(** * RecTools [rectools.visuals.metrics_app]: validation and reshaping of the
    metrics table behind [MetricsApp].

    The development embeds [src/rectools/visuals/metrics_app.py] shallowly.
    A pandas [DataFrame] is a list of column names together with labelled
    rows; Python exceptions are values of [exn] carried by the [result]
    monad; the in-place assignment done by [_validate_models_metrics_names]
    is explicit state passing (the validator returns the table it leaves
    behind); the [lru_cache] memoisation of the two views is a cache held in
    the application state, with a step relation for the calls made during
    the object's lifetime.

    A float in a cell is the rational it stands for ([Q]); the means of the
    average view and the conversion of integers to floats are computed in
    IEEE 754 binary64 arithmetic, every operation rounded to the nearest
    float as [SpecFloat] defines it. The textual form Python gives a float
    ([str(0.5)]) is a parameter, [float_repr]. What [construct] runs of the
    chart and widget libraries when it displays the object is taken to
    return. *)

From Stdlib Require Import String Ascii List ZArith QArith Qabs Bool Lia.
From Stdlib Require Import DecimalString Sorted Permutation SpecFloat.
Import ListNotations.

Close Scope Q_scope.
Local Open Scope string_scope.
Local Open Scope list_scope.

(** ** Python values and exceptions *)

(** Modelled from the spec: the [rectools.Columns] constants are not part of
    the sources at hand; the spec calls them the model identifier column and
    the fold column, and the source itself spells the fold column
    ["i_split"] in [_validate_models_metrics_split]. *)
Module Columns.
Definition Model : string := "model".
Definition Split : string := "i_split".
End Columns.

(** A cell of a table: a string, an integer, a float (as a rational) or a
    missing value ([NaN] / [None]). *)
Inductive cell : Type :=
| CStr (s : string)
| CInt (z : Z)
| CFloat (q : Q)
| CNaN.

Inductive exn : Type :=
| ValueError (msg : string)
| KeyError (msg : string)
| TypeError
| StopIteration
| IndexError.

Inductive result (A : Type) : Type :=
| Ok (a : A)
| Raise (e : exn).
Arguments Ok {A} a.
Arguments Raise {A} e.

Definition bind {A B : Type} (m : result A) (k : A -> result B) : result B :=
  match m with
  | Ok a => k a
  | Raise e => Raise e
  end.

Notation "x <- m ;; k" := (bind m (fun x => k))
  (at level 100, m at next level, right associativity).

Fixpoint mapM {A B : Type} (f : A -> result B) (l : list A) : result (list B) :=
  match l with
  | [] => Ok []
  | x :: xs => y <- f x ;; ys <- mapM f xs ;; Ok (y :: ys)
  end.

Definition is_value_error {A : Type} (r : result A) : bool :=
  match r with Raise (ValueError _) => true | _ => false end.

Definition is_key_error {A : Type} (r : result A) : bool :=
  match r with Raise (KeyError _) => true | _ => false end.

(** Numeric reading of a cell. *)
Definition cell_num (c : cell) : option Q :=
  match c with
  | CInt z => Some (inject_Z z)
  | CFloat q => Some q
  | _ => None
  end.

(** Equality as pandas' hash tables see it ([unique], [nunique],
    [drop_duplicates], group and merge keys): numbers compare by value,
    missing values are all alike. *)
Definition cell_eqb (a b : cell) : bool :=
  match a, b with
  | CStr s, CStr t => String.eqb s t
  | CNaN, CNaN => true
  | _, _ =>
      match cell_num a, cell_num b with
      | Some x, Some y => Qeq_bool x y
      | _, _ => false
      end
  end.

Definition isnull (c : cell) : bool :=
  match c with CNaN => true | _ => false end.

(** The element-wise [==]: a missing value is equal to nothing. *)
Definition py_eq (a b : cell) : bool :=
  negb (isnull a) && cell_eqb a b.

(** Order used when pandas sorts group keys: numbers by value, then
    strings by code point. *)
Definition cell_leb (a b : cell) : bool :=
  match cell_num a, cell_num b with
  | Some x, Some y => Qle_bool x y
  | Some _, None => true
  | None, Some _ => false
  | None, None =>
      match a, b with
      | CStr s, CStr t => String.leb s t
      | CNaN, CStr _ => false
      | _, _ => true
      end
  end.

(** Python's [<] between two values; [None] stands for the [TypeError]
    raised when a string meets a number. *)
Definition py_lt (a b : cell) : option bool :=
  match a, b with
  | CStr s, CStr t => Some (String.ltb s t)
  | CStr _, _ | _, CStr _ => None
  | _, _ =>
      match cell_num a, cell_num b with
      | Some x, Some y => Some (Qle_bool x y && negb (Qeq_bool x y))
      | _, _ => Some false
      end
  end.

Section PyStr.

(** [str] of a float, left abstract. *)
Variable float_repr : Q -> string.

(** [str(v)], which is what [astype(str)] applies to every element. *)
Definition py_str (c : cell) : string :=
  match c with
  | CStr s => s
  | CInt z => NilZero.string_of_int (Z.to_int z)
  | CFloat q => float_repr q
  | CNaN => "nan"
  end.

End PyStr.

(** [s.replace(" ", "_")]. *)
Fixpoint replace_space (s : string) : string :=
  match s with
  | EmptyString => EmptyString
  | String c r =>
      String (if Ascii.eqb c " "%char then "_"%char else c) (replace_space r)
  end.

(** [.str.replace(" ", "_")] on one element: non-strings become missing. *)
Definition str_replace (c : cell) : cell :=
  match c with
  | CStr s => CStr (replace_space s)
  | _ => CNaN
  end.

Fixpoint has_space (s : string) : bool :=
  match s with
  | EmptyString => false
  | String c r => Ascii.eqb c " "%char || has_space r
  end.

(** ** Floating point numbers *)

(** The floats of numpy and pandas are IEEE 754 binary64 numbers: 53 bits
    of precision, exponents below 1024. *)
Definition prec : Z := 53.
Definition emax : Z := 1024.

Definition float64 : Type := spec_float.

(** The conversion of an [int64] to a float: the nearest float, ties to
    even. *)
Definition float64_of_Z (z : Z) : float64 := binary_normalize prec emax z 0 false.

(** The float nearest to a rational, ties to even. The quotient is taken
    with 1074 binary places, past which no float has a digit; the remainder
    tells on which side of the halfway point the rational lies. A rational
    that is a float is its own nearest float. *)
Definition float64_of_Q (q : Q) : float64 :=
  match Qnum q with
  | Z0 => S754_zero false
  | n =>
      let d := Zpos (Qden q) in
      let a := (Z.abs n * 2 ^ 1074)%Z in
      let l := if (a mod d =? 0)%Z then loc_Exact
               else loc_Inexact (Z.compare (2 * (a mod d)) d) in
      binary_round_aux prec emax (n <? 0)%Z (a / d)%Z (-1074)%Z l
  end.

(** The rational a finite float stands for, in lowest terms. *)
Definition Q_of_float64 (f : float64) : option Q :=
  match f with
  | S754_zero _ => Some (0#1)%Q
  | S754_finite s m e =>
      let n := if s then Zneg m else Zpos m in
      Some (Qred (if (0 <=? e)%Z then Qmake (n * 2 ^ e) 1
                  else Qmake n (Z.to_pos (2 ^ (- e)))))
  | _ => None
  end.

(** The float nearest to a rational, as a rational: what a decimal literal
    such as [0.1] denotes. *)
Definition float_literal (q : Q) : Q :=
  match Q_of_float64 (float64_of_Q q) with
  | Some x => x
  | None => q
  end.

(** The rational is a float. *)
Definition is_float64 (q : Q) : bool :=
  match Q_of_float64 (float64_of_Q q) with
  | Some x => Qeq_bool x q
  | None => false
  end.

(** The integer fits an [int64]. *)
Definition is_int64 (z : Z) : bool := ((- 2 ^ 63 <=? z) && (z <? 2 ^ 63))%Z.

(** The integer fits a [uint64]. *)
Definition is_uint64 (z : Z) : bool := ((0 <=? z) && (z <? 2 ^ 64))%Z.

(** A float as a cell. The cells have no infinity: a result that overflows
    is outside of what the tables can hold, and is read as a missing
    value. *)
Definition cell_of_float64 (f : float64) : cell :=
  match Q_of_float64 f with
  | Some q => CFloat q
  | None => CNaN
  end.

Definition float64_is_nan (f : float64) : bool :=
  match f with S754_nan => true | _ => false end.

(** One step of the compensated (Kahan) summation of pandas' [group_mean]:
    [y = val - compensation; t = sumx + y;
     compensation = t - sumx - y; sumx = t], the compensation being reset
    when it is not a number. *)
Definition kahan_step (st : float64 * float64) (val : float64) : float64 * float64 :=
  let y := SFsub prec emax val (snd st) in
  let t := SFadd prec emax (fst st) y in
  let compensation := SFsub prec emax (SFsub prec emax t (fst st)) y in
  (t, if float64_is_nan compensation then S754_zero false else compensation).

Definition kahan_sum (l : list float64) : float64 :=
  fst (fold_left kahan_step l (S754_zero false, S754_zero false)).

(** [sumx / nobs] *)
Definition float64_mean (l : list float64) : float64 :=
  SFdiv prec emax (kahan_sum l) (float64_of_Z (Z.of_nat (length l))).

(** ** Lists: first-occurrence de-duplication, stable insertion sort *)

Fixpoint dedup {A : Type} (eqb : A -> A -> bool) (l : list A) : list A :=
  match l with
  | [] => []
  | x :: xs => x :: filter (fun y => negb (eqb x y)) (dedup eqb xs)
  end.

Fixpoint insert_sorted {A : Type} (leb : A -> A -> bool) (x : A) (l : list A)
  : list A :=
  match l with
  | [] => [x]
  | y :: ys => if leb x y then x :: l else y :: insert_sorted leb x ys
  end.

Fixpoint sort_by {A : Type} (leb : A -> A -> bool) (l : list A) : list A :=
  match l with
  | [] => []
  | x :: xs => insert_sorted leb x (sort_by leb xs)
  end.

Fixpoint list_eqb {A : Type} (eqb : A -> A -> bool) (l1 l2 : list A) : bool :=
  match l1, l2 with
  | [], [] => true
  | x :: xs, y :: ys => eqb x y && list_eqb eqb xs ys
  | _, _ => false
  end.

Fixpoint set_nth {A : Type} (i : nat) (v : A) (l : list A) : list A :=
  match l, i with
  | [], _ => []
  | _ :: xs, O => v :: xs
  | x :: xs, S j => x :: set_nth j v xs
  end.

Fixpoint remove_nth {A : Type} (i : nat) (l : list A) : list A :=
  match l, i with
  | [], _ => []
  | _ :: xs, O => xs
  | x :: xs, S j => x :: remove_nth j xs
  end.

Fixpoint index_of (c : string) (cols : list string) : option nat :=
  match cols with
  | [] => None
  | x :: xs =>
      if String.eqb x c then Some O else option_map S (index_of c xs)
  end.

Definition mem_str (c : string) (l : list string) : bool :=
  existsb (String.eqb c) l.

(** ** Series and data frames *)

(** A series: values with their index labels. *)
Definition Series : Type := list (cell * cell).

(** A data frame: column names and rows, each row with its index label. *)
Record DataFrame : Type := mkDF {
  columns : list string;
  rows : list (cell * list cell)
}.

(** Either a data frame or some other Python object. *)
Inductive pyobj : Type :=
| PyFrame (df : DataFrame)
| PyOther.

Definition values (s : Series) : list cell := map snd s.

(** A fresh [RangeIndex]. *)
Definition range_index {A : Type} (l : list A) : list (cell * A) :=
  combine (map (fun n => CInt (Z.of_nat n)) (seq 0 (length l))) l.

Definition cell_at (i : nat) (r : cell * list cell) : cell := nth i (snd r) CNaN.

(** [df[c]] *)
Definition get_column (df : DataFrame) (c : string) : result Series :=
  match index_of c (columns df) with
  | None => Raise (KeyError c)
  | Some i => Ok (map (fun r => (fst r, cell_at i r)) (rows df))
  end.

(** [df[c] = s], for a series that carries the index of [df]. *)
Definition set_column (df : DataFrame) (c : string) (s : Series) : DataFrame :=
  match index_of c (columns df) with
  | Some i =>
      mkDF (columns df)
           (map (fun rv => (fst (fst rv), set_nth i (snd (snd rv)) (snd (fst rv))))
                (combine (rows df) s))
  | None =>
      mkDF (columns df ++ [c])
           (map (fun rv => (fst (fst rv), snd (fst rv) ++ [snd (snd rv)]))
                (combine (rows df) s))
  end.

(** [df[[c1, ..., cn]]] *)
Definition select_columns (df : DataFrame) (cs : list string) : result DataFrame :=
  idx <- mapM (fun c => match index_of c (columns df) with
                        | Some i => Ok i
                        | None => Raise (KeyError c)
                        end) cs ;;
  Ok (mkDF cs (map (fun r => (fst r, map (fun i => cell_at i r) idx)) (rows df))).

Definition series_map (f : cell -> cell) (s : Series) : Series :=
  map (fun lv => (fst lv, f (snd lv))) s.

(** [s.unique()]: distinct values in order of first appearance. *)
Definition unique (s : Series) : list cell := dedup cell_eqb (values s).

(** [s.nunique()]: missing values are not counted. *)
Definition nunique (s : Series) : nat :=
  length (dedup cell_eqb (filter (fun v => negb (isnull v)) (values s))).

(** [s.isnull().any()] *)
Definition series_has_null (s : Series) : bool := existsb isnull (values s).

(** [df.isnull().values.any()] *)
Definition frame_has_null (df : DataFrame) : bool :=
  existsb (fun r => existsb isnull (snd r)) (rows df).

(** [s.drop_duplicates()] keeps, with its label, the first row of every value. *)
Definition series_drop_duplicates (s : Series) : Series :=
  dedup (fun a b => cell_eqb (snd a) (snd b)) s.

(** [s.to_frame()] for a series named [name]. *)
Definition to_frame (name : string) (s : Series) : DataFrame :=
  mkDF [name] (map (fun lv => (fst lv, [snd lv])) s).

(** [df.drop_duplicates()] keeps the first of every run of equal rows. *)
Definition drop_duplicates (df : DataFrame) : DataFrame :=
  mkDF (columns df)
       (dedup (fun a b => list_eqb cell_eqb (snd a) (snd b)) (rows df)).

(** [df.reset_index(drop=True)] *)
Definition reset_index_drop (df : DataFrame) : DataFrame :=
  mkDF (columns df) (range_index (map snd (rows df))).

(** [df.reset_index()] for an index named [name]: the index becomes the
    first column. *)
Definition reset_index (name : string) (df : DataFrame) : DataFrame :=
  mkDF (name :: columns df)
       (range_index (map (fun r => fst r :: snd r) (rows df))).

(** Keys of [groupby]: rows with a missing key are left out; the keys come
    sorted or, with [sort=False], in order of first appearance. *)
Definition group_keys (sort : bool) (keys : list cell) : list cell :=
  let ks := dedup cell_eqb (filter (fun v => negb (isnull v)) keys) in
  if sort then sort_by cell_leb ks else ks.

(** The rows of one group. *)
Definition get_group (df : DataFrame) (i : nat) (k : cell) : DataFrame :=
  mkDF (columns df) (filter (fun r => cell_eqb (cell_at i r) k) (rows df)).

(** Python set comparison of two collections of values. A missing value
    taken out of an array is an object of its own, equal to no other. *)
Definition set_eqb (a b : list cell) : bool :=
  forallb (fun x => existsb (py_eq x) b) a &&
  forallb (fun y => existsb (py_eq y) a) b.

(** Mean of a column of a group. The values are taken as [float64], those
    of an integer column converted; missing values are skipped, a string
    makes the aggregation fail. The sum is compensated, the quotient a
    float division; a group without values has no mean. *)
Fixpoint numeric_values (l : list cell) : result (list float64) :=
  match l with
  | [] => Ok []
  | CStr _ :: _ => Raise TypeError
  | CNaN :: xs => numeric_values xs
  | CInt z :: xs => fs <- numeric_values xs ;; Ok (float64_of_Z z :: fs)
  | CFloat q :: xs => fs <- numeric_values xs ;; Ok (float64_of_Q q :: fs)
  end.

Definition mean (l : list cell) : result cell :=
  fs <- numeric_values l ;;
  match fs with
  | [] => Ok CNaN
  | _ => Ok (cell_of_float64 (float64_mean fs))
  end.

(** [df.groupby([key], sort=False).mean()]: one row per key, labelled by
    the key, holding the mean of every other column. *)
Definition groupby_mean (df : DataFrame) (key : string) : result DataFrame :=
  match index_of key (columns df) with
  | None => Raise (KeyError key)
  | Some i =>
      let others := remove_nth i (seq 0 (length (columns df))) in
      let ks := group_keys false (map (cell_at i) (rows df)) in
      rs <- mapM (fun k =>
                    ms <- mapM (fun j => mean (map (cell_at j) (rows (get_group df i k))))
                               others ;;
                    Ok (k, ms)) ks ;;
      Ok (mkDF (remove_nth i (columns df)) rs)
  end.

(** The types of columns that the cells can tell apart. *)
Inductive dtype : Type :=
| DObject
| DInt64
| DUInt64
| DFloat64.

Definition dtype_name (d : dtype) : string :=
  match d with
  | DObject => "object"
  | DInt64 => "int64"
  | DUInt64 => "uint64"
  | DFloat64 => "float64"
  end.

Definition cell_is_str (c : cell) : bool :=
  match c with CStr _ => true | _ => false end.

Definition cell_is_int (c : cell) : bool :=
  match c with CInt _ => true | _ => false end.

(** The type pandas gives a column made from these values: integers that
    all fit make an [int64] (or [uint64]) column, floats and missing values
    a [float64] column, anything else, and no value at all, an [object]
    column. *)
Definition dtype_of (l : list cell) : dtype :=
  match l with
  | [] => DObject
  | _ =>
      if forallb (fun c => match c with CInt z => is_int64 z | _ => false end) l
      then DInt64
      else if forallb (fun c => match c with CInt z => is_uint64 z | _ => false end) l
      then DUInt64
      else if forallb (fun c => match c with CFloat _ | CNaN => true | _ => false end) l
      then DFloat64
      else DObject
  end.

(** An [object] column that pandas infers to hold strings (["string"] or
    ["mixed"]): it has a string and no integer. *)
Definition string_like (l : list cell) : bool :=
  existsb cell_is_str l && negb (existsb cell_is_int l).

(** The check a merge makes on its keys: with values on both sides, an
    [object] key inferred to hold strings cannot meet a numeric key. *)
Definition merge_keys_clash (lk rk : list cell) : bool :=
  match lk, rk with
  | [], _ | _, [] => false
  | _, _ =>
      match dtype_of lk, dtype_of rk with
      | DObject, DObject => false
      | DObject, _ => string_like lk
      | _, DObject => string_like rk
      | _, _ => false
      end
  end.

(** An integer taken into a [float64] column. *)
Definition int_to_float (c : cell) : cell :=
  match c with
  | CInt z => cell_of_float64 (float64_of_Z z)
  | _ => c
  end.

Definition int_column (df : DataFrame) (p : nat) : bool :=
  match dtype_of (map (cell_at p) (rows df)) with
  | DInt64 | DUInt64 => true
  | _ => false
  end.

(** Every row of [left] has a row of [right] with its key. *)
Definition all_matched (left right : DataFrame) (i j : nat) : bool :=
  forallb (fun l => existsb (fun r => cell_eqb (cell_at j r) (cell_at i l)) (rows right))
          (rows left).

(** The integer columns of [right], but for the key column [j], turned
    into float columns. *)
Definition promote_ints (right : DataFrame) (j : nat) : DataFrame :=
  mkDF (columns right)
       (map (fun r =>
               (fst r,
                map (fun pc => if int_column right (fst pc) && negb (fst pc =? j)%nat
                               then int_to_float (snd pc) else snd pc)
                    (combine (seq 0 (length (snd r))) (snd r))))
            (rows right)).

(** The table [right] as a left join takes its cells: when some row of
    [left] finds no match, the missing values that stand in make a float
    column of every integer column. *)
Definition merge_right (left right : DataFrame) (i j : nat) : DataFrame :=
  if all_matched left right i j then right else promote_ints right j.

(** [left.merge(right, on=key, how="left")]: every row of [left], in order,
    with the columns of each matching row of [right], or missing values
    when there is none; columns present on both sides get the suffixes
    [_x] and [_y]; the result has a fresh index. Keys of types that do not
    go together are refused. *)
Definition merge_left (left right : DataFrame) (key : string) : result DataFrame :=
  match index_of key (columns left), index_of key (columns right) with
  | Some i, Some j =>
      let lk := map (cell_at i) (rows left) in
      let rk := map (cell_at j) (rows right) in
      if merge_keys_clash lk rk then
        Raise (ValueError ("You are trying to merge on " ++ dtype_name (dtype_of lk)
                           ++ " and " ++ dtype_name (dtype_of rk)
                           ++ " columns for key '" ++ key
                           ++ "'. If you wish to proceed you should use pd.concat")%string)
      else
        let taken := merge_right left right i j in
        let rcols := remove_nth j (columns right) in
        let lname c := if negb (String.eqb c key) && mem_str c rcols
                       then (c ++ "_x")%string else c in
        let rname c := if negb (String.eqb c key) && mem_str c (columns left)
                       then (c ++ "_y")%string else c in
        let joined l :=
          match filter (fun r => cell_eqb (cell_at j r) (cell_at i l)) (rows taken) with
          | [] => [snd l ++ repeat CNaN (length rcols)]
          | ms => map (fun r => snd l ++ remove_nth j (snd r)) ms
          end in
        Ok (mkDF (map lname (columns left) ++ map rname rcols)
                 (range_index (flat_map joined (rows left))))
  | _, _ => Raise (KeyError key)
  end.

(** [a + b] for two series on the same index: strings are concatenated,
    numbers added; a string cannot be added to anything else. *)
Definition cell_add (a b : cell) : result cell :=
  match a, b with
  | CStr s, CStr t => Ok (CStr (s ++ t)%string)
  | CStr _, _ | _, CStr _ => Raise TypeError
  | _, _ =>
      match cell_num a, cell_num b with
      | Some x, Some y => Ok (CFloat (x + y)%Q)
      | _, _ => Ok CNaN
      end
  end.

Definition series_add (a b : Series) : result Series :=
  mapM (fun ab => v <- cell_add (snd (fst ab)) (snd (snd ab)) ;; Ok (fst (fst ab), v))
       (combine a b).

(** [df[mask]] for a boolean mask over the rows. *)
Definition boolean_index (df : DataFrame) (mask : list bool) : DataFrame :=
  mkDF (columns df) (map fst (filter snd (combine (rows df) mask))).

(** Python's [sorted]: stable, by [<]. *)
Fixpoint py_insert (x : cell) (l : list cell) : result (list cell) :=
  match l with
  | [] => Ok [x]
  | y :: ys =>
      match py_lt y x with
      | None => Raise TypeError
      | Some true => r <- py_insert x ys ;; Ok (y :: r)
      | Some false => Ok (x :: l)
      end
  end.

Fixpoint sorted (l : list cell) : result (list cell) :=
  match l with
  | [] => Ok []
  | x :: xs => r <- sorted xs ;; py_insert x r
  end.

(** ** The application object *)

(** [functools.lru_cache] keeps 128 entries unless told otherwise. *)
Definition lru_maxsize : nat := 128.

(** The fields of [MetricsApp] that carry data, and the two memo tables of
    [_make_chart_data_fold] and [_make_chart_data_avg]. *)
Record MetricsApp : Type := mkApp {
  data : DataFrame;
  metric_names : list string;
  meta_names : list string;
  show_legend : bool;
  auto_display : bool;
  fold_cache : list (cell * DataFrame);
  avg_cache : option DataFrame
}.

Definition with_fold_cache (a : MetricsApp) (c : list (cell * DataFrame)) : MetricsApp :=
  mkApp (data a) (metric_names a) (meta_names a) (show_legend a) (auto_display a)
        c (avg_cache a).

Definition with_avg_cache (a : MetricsApp) (c : option DataFrame) : MetricsApp :=
  mkApp (data a) (metric_names a) (meta_names a) (show_legend a) (auto_display a)
        (fold_cache a) c.

Fixpoint cache_lookup (k : cell) (c : list (cell * DataFrame)) : option DataFrame :=
  match c with
  | [] => None
  | (k', v) :: rest => if cell_eqb k' k then Some v else cache_lookup k rest
  end.

(** A hit makes the entry the most recently used one. *)
Definition cache_touch (k : cell) (v : DataFrame) (c : list (cell * DataFrame))
  : list (cell * DataFrame) :=
  (k, v) :: filter (fun e => negb (cell_eqb (fst e) k)) c.

(** A miss stores the result and drops the least recently used entries. *)
Definition cache_insert (k : cell) (v : DataFrame) (c : list (cell * DataFrame))
  : list (cell * DataFrame) :=
  firstn lru_maxsize ((k, v) :: c).
Arguments cache_insert : simpl never.

Section MetricsApp.

Variable float_repr : Q -> string.

(** [s.astype(str)] *)
Definition astype_str (s : Series) : Series :=
  series_map (fun v => CStr (py_str float_repr v)) s.

Definition is_metric_column (c : string) : bool :=
  negb (String.eqb c Columns.Model || String.eqb c Columns.Split).

Definition _validate_models_metrics_base (models_metrics : pyobj) : result unit :=
  match models_metrics with
  | PyOther =>
      Raise (ValueError "Incorrect input type. `metrics_data` should be a DataFrame")
  | PyFrame df =>
      if negb (mem_str Columns.Model (columns df)) then
        Raise (KeyError "Missing `Model` column in `metrics_data` DataFrame")
      else if (length (filter is_metric_column (columns df)) <? 1)%nat then
        Raise (KeyError "`metrics_data` DataFrame assumed to have at least one metric column")
      else if frame_has_null df then
        Raise (ValueError "Found NaN values in `metrics_data`")
      else Ok tt
  end.

(** The loop over the groups of [_validate_models_metrics_split]. *)
Fixpoint check_groups (df : DataFrame) (i : nat) (ref_fold_count : nat)
         (ref_fold_names : list cell) (keys : list cell) : result unit :=
  match keys with
  | [] => Ok tt
  | model :: rest =>
      let group := get_group df i model in
      s <- get_column group "i_split" ;;
      if negb (nunique s =? ref_fold_count)%nat then
        Raise (ValueError (py_str float_repr model
                           ++ " does not have the expected fold amount")%string)
      else
        s' <- get_column group "i_split" ;;
        if negb (set_eqb (unique s') ref_fold_names) then
          Raise (ValueError (py_str float_repr model
                             ++ " does not have the expected fold names")%string)
        else check_groups df i ref_fold_count ref_fold_names rest
  end.

Definition _validate_models_metrics_split (models_metrics : DataFrame) : result unit :=
  if negb (mem_str Columns.Split (columns models_metrics)) then Ok tt
  else
    match index_of Columns.Model (columns models_metrics) with
    | None => Raise (KeyError Columns.Model)
    | Some i =>
        let keys := group_keys true (map (cell_at i) (rows models_metrics)) in
        match keys with
        | [] => Raise StopIteration
        | first :: _ =>
            let ref_group := get_group models_metrics i first in
            s <- get_column ref_group Columns.Split ;;
            let ref_fold_count := nunique s in
            let ref_fold_names := unique s in
            check_groups models_metrics i ref_fold_count ref_fold_names keys
        end
    end.

(** The validator assigns to the model column of the table it is given:
    the second component is the table as the call leaves it. *)
Definition _validate_models_metrics_names (models_metrics : DataFrame)
  : result unit * DataFrame :=
  if mem_str Columns.Split (columns models_metrics) then
    match get_column models_metrics Columns.Model with
    | Raise e => (Raise e, models_metrics)
    | Ok m =>
        let models_metrics' :=
          set_column models_metrics Columns.Model
                     (series_map str_replace (astype_str m)) in
        (m' <- get_column models_metrics' Columns.Model ;;
         sp <- get_column models_metrics' Columns.Split ;;
         models_names_comb <- series_add m' (astype_str sp) ;;
         if negb (nunique models_names_comb =? length models_names_comb)%nat then
           Raise (ValueError "Each `Model` value in the `metrics_data` DataFrame must be unique")
         else Ok tt,
         models_metrics')
    end
  else
    match get_column models_metrics Columns.Model with
    | Raise e => (Raise e, models_metrics)
    | Ok m =>
        let models_metrics' :=
          set_column models_metrics Columns.Model
                     (series_map str_replace (astype_str m)) in
        (m' <- get_column models_metrics' Columns.Model ;;
         if negb (nunique m' =? length m')%nat then
           Raise (ValueError "Each `Model` value in the `metrics_data` DataFrame must be unique")
         else Ok tt,
         models_metrics')
    end.

Definition _validate_models_metadata (models_metadata : pyobj) : result unit :=
  match models_metadata with
  | PyOther =>
      Raise (ValueError "Incorrect input type. `models_metadata` should be a DataFrame")
  | PyFrame df =>
      if negb (mem_str Columns.Model (columns df)) then
        Raise (KeyError "Missing `Model`` column in `models_metadata` DataFrame")
      else
        m <- get_column df Columns.Model ;;
        if negb (nunique m =? length (rows df))%nat then
          Raise (ValueError "`Model` values of `models_metadata` should be unique`")
        else
          m' <- get_column df Columns.Model ;;
          if series_has_null m' then
            Raise (ValueError "Found NaN values in `Model` column")
          else Ok tt
  end.

End MetricsApp.

(** [MetricsApp.model_names] *)
Definition model_names (a : MetricsApp) : result (list cell) :=
  m <- get_column (data a) Columns.Model ;;
  sorted (unique m).

(** [MetricsApp.fold_ids] *)
Definition fold_ids (a : MetricsApp) : result (option (list cell)) :=
  if mem_str Columns.Split (columns (data a)) then
    s <- get_column (data a) Columns.Split ;;
    l <- sorted (unique s) ;;
    Ok (Some l)
  else Ok None.

(** The body of [_make_chart_data_fold]. *)
Definition make_chart_data_fold_body (a : MetricsApp) (fold_number : cell)
  : result DataFrame :=
  s <- get_column (data a) Columns.Split ;;
  Ok (reset_index_drop
        (boolean_index (data a) (map (fun v => py_eq v fold_number) (values s)))).

(** [_make_chart_data_fold] under [lru_cache]: the result and the object
    with its memo table updated. An exception is not memoised. *)
Definition _make_chart_data_fold (a : MetricsApp) (fold_number : cell)
  : result DataFrame * MetricsApp :=
  match cache_lookup fold_number (fold_cache a) with
  | Some v => (Ok v, with_fold_cache a (cache_touch fold_number v (fold_cache a)))
  | None =>
      match make_chart_data_fold_body a fold_number with
      | Ok v => (Ok v, with_fold_cache a (cache_insert fold_number v (fold_cache a)))
      | Raise e => (Raise e, a)
      end
  end.

(** The body of [_make_chart_data_avg]. *)
Definition make_chart_data_avg_body (a : MetricsApp) : result DataFrame :=
  let metric_data_columns := Columns.Model :: metric_names a in
  let meta_data_columns := Columns.Model :: meta_names a in
  d <- select_columns (data a) metric_data_columns ;;
  g <- groupby_mean d Columns.Model ;;
  let metrics_data := reset_index Columns.Model g in
  d' <- select_columns (data a) meta_data_columns ;;
  let meta_data := drop_duplicates d' in
  r <- merge_left metrics_data meta_data Columns.Model ;;
  Ok (reset_index_drop r).

Definition _make_chart_data_avg (a : MetricsApp) : result DataFrame * MetricsApp :=
  match avg_cache a with
  | Some v => (Ok v, a)
  | None =>
      match make_chart_data_avg_body a with
      | Ok v => (Ok v, with_avg_cache a (Some v))
      | Raise e => (Raise e, a)
      end
  end.

(** [_create_chart_data]: [use_avg] is the value of the check box, [fold_i]
    the value of the fold drop-down ([None] when nothing is selected). *)
Definition _create_chart_data (a : MetricsApp) (use_avg : bool) (fold_i : option cell)
  : result DataFrame * MetricsApp :=
  match use_avg, fold_i with
  | true, _ => _make_chart_data_avg a
  | false, None => _make_chart_data_avg a
  | false, Some fold => _make_chart_data_fold a fold
  end.

(** [MetricsApp.display], as far as this module computes: the first metric
    name and the first fold identifier become the values of the drop-downs,
    the chart data are asked for with the box for the average ticked, and
    are asked for again by the call of [_update_chart] that ends
    [display]. The calls into the chart and widget libraries are taken to
    return. *)
Definition display (self : MetricsApp) : result unit * MetricsApp :=
  match metric_names self with
  | [] => (Raise IndexError, self)
  | _ :: _ =>
      match fold_ids self with
      | Raise e => (Raise e, self)
      | Ok (Some []) => (Raise IndexError, self)
      | Ok ids =>
          let fold_i := match ids with
                        | Some (first :: _) => first
                        | _ => CInt (-1)
                        end in
          match _create_chart_data self true (Some fold_i) with
          | (Raise e, self') => (Raise e, self')
          | (Ok _, self') =>
              match _create_chart_data self' true (Some fold_i) with
              | (Raise e, self'') => (Raise e, self'')
              | (Ok _, self'') => (Ok tt, self'')
              end
          end
      end
  end.

(** [MetricsApp.__init__]: the fields are set, the memo tables are empty,
    and the widget is displayed if asked for. *)
Definition __init__ (data : DataFrame) (metric_names meta_names : list string)
           (show_legend auto_display : bool) : result MetricsApp :=
  let self := mkApp data metric_names meta_names show_legend auto_display [] None in
  if auto_display then
    match display self with
    | (Ok _, self') => Ok self'
    | (Raise e, _) => Raise e
    end
  else Ok self.

Section Construct.

Variable float_repr : Q -> string.

(** What [construct] does once the three validators of the metrics table
    have passed, on the table [models_metrics] as they left it. *)
Definition construct_merged (models_metrics : DataFrame)
           (models_metadata : option pyobj) (show_legend auto_display : bool)
  : result MetricsApp :=
  models_metadata' <-
    match models_metadata with
    | None =>
        m <- get_column models_metrics Columns.Model ;;
        Ok (PyFrame (to_frame Columns.Model (series_drop_duplicates m)))
    | Some o => Ok o
    end ;;
  _ <- _validate_models_metadata models_metadata' ;;
  match models_metadata' with
  | PyOther => Raise TypeError
  | PyFrame metadata =>
      merged_data <- merge_left models_metrics metadata Columns.Model ;;
      m <- get_column merged_data Columns.Model ;;
      let merged_data' :=
        set_column merged_data Columns.Model (series_map str_replace m) in
      let metric_names :=
        filter (fun col => negb (String.eqb col Columns.Split
                                 || String.eqb col Columns.Model))
               (columns models_metrics) in
      let meta_names :=
        filter (fun col => negb (String.eqb col Columns.Model)) (columns metadata) in
      __init__ merged_data' metric_names meta_names show_legend auto_display
  end.

(** [MetricsApp.construct]. The second component is the caller's metrics
    object after the call. *)
Definition construct (models_metrics : pyobj) (models_metadata : option pyobj)
           (show_legend auto_display : bool) : result MetricsApp * pyobj :=
  match _validate_models_metrics_base models_metrics, models_metrics with
  | Raise e, _ => (Raise e, models_metrics)
  | Ok _, PyOther => (Raise TypeError, models_metrics)
  | Ok _, PyFrame df =>
      match _validate_models_metrics_split float_repr df with
      | Raise e => (Raise e, models_metrics)
      | Ok _ =>
          match _validate_models_metrics_names float_repr df with
          | (Raise e, df') => (Raise e, PyFrame df')
          | (Ok _, df') =>
              (construct_merged df' models_metadata show_legend auto_display,
               PyFrame df')
          end
      end
  end.

End Construct.

(** One event in the life of the object: a view is requested, or entries of
    a memo table are pushed out (the tables are shared by all instances). *)
Inductive step : MetricsApp -> MetricsApp -> Prop :=
| step_chart_data a use_avg fold_i :
    step a (snd (_create_chart_data a use_avg fold_i))
| step_fold a fold_number :
    step a (snd (_make_chart_data_fold a fold_number))
| step_avg a :
    step a (snd (_make_chart_data_avg a))
| step_evict_fold a n :
    step a (with_fold_cache a (firstn n (fold_cache a)))
| step_evict_avg a :
    step a (with_avg_cache a None).

(** The states an object goes through after its construction. *)
Inductive lifetime (a0 : MetricsApp) : MetricsApp -> Prop :=
| lifetime_start : lifetime a0 a0
| lifetime_step a a' : lifetime a0 a -> step a a' -> lifetime a0 a'.

(** ** Vocabulary of the specification *)

(** No two elements of the list are equal for [eqb]. *)
Inductive Distinct {A : Type} (eqb : A -> A -> bool) : list A -> Prop :=
| Distinct_nil : Distinct eqb []
| Distinct_cons x l :
    (forall y, In y l -> eqb x y = false) ->
    Distinct eqb l -> Distinct eqb (x :: l).

Fixpoint distinctb {A : Type} (eqb : A -> A -> bool) (l : list A) : bool :=
  match l with
  | [] => true
  | x :: xs => forallb (fun y => negb (eqb x y)) xs && distinctb eqb xs
  end.

(** A table is rectangular: every row has one cell per column. *)
Definition wf_frame (df : DataFrame) : Prop :=
  Forall (fun r => length (snd r) = length (columns df)) (rows df).

(** The cells of the column named [c], top to bottom. *)
Definition column_values (df : DataFrame) (c : string) : list cell :=
  match index_of c (columns df) with
  | Some i => map (cell_at i) (rows df)
  | None => []
  end.

(** The cell of row [r] in the column named [c]. *)
Definition cell_of (df : DataFrame) (c : string) (r : cell * list cell) : cell :=
  match index_of c (columns df) with
  | Some i => cell_at i r
  | None => CNaN
  end.

(** The models of a metrics table: the values of its model column that are
    not missing. *)
Definition is_model (df : DataFrame) (m : cell) : Prop :=
  In m (column_values df Columns.Model) /\ isnull m = false.

(** The fold identifiers recorded for model [m]. *)
Definition folds_of (df : DataFrame) (m : cell) : list cell :=
  map (cell_of df Columns.Split)
      (filter (fun r => cell_eqb (cell_of df Columns.Model r) m) (rows df)).

(** Two collections hold the same values. *)
Definition same_set (a b : list cell) : Prop :=
  forall x, (exists y, In y a /\ cell_eqb x y = true) <->
            (exists y, In y b /\ cell_eqb x y = true).

(** The number of distinct values of a collection. *)
Definition count_distinct (a : list cell) : nat := length (dedup cell_eqb a).

(** Model [k] has as many distinct folds as [ref], and the same ones. *)
Definition group_agrees (df : DataFrame) (ref k : cell) : Prop :=
  count_distinct (folds_of df k) = count_distinct (folds_of df ref) /\
  same_set (folds_of df k) (folds_of df ref).

(** The model the split validator compares the others with: the first key
    of the grouping. *)
Definition reference_model (df : DataFrame) : option cell :=
  hd_error (group_keys true (column_values df Columns.Model)).

(** The name under which a model is known after normalisation. *)
Definition normalized_name (float_repr : Q -> string) (c : cell) : string :=
  replace_space (py_str float_repr c).

(** The table with every model name replaced by its normal form. *)
Definition normalized_table (float_repr : Q -> string) (df : DataFrame) : DataFrame :=
  match index_of Columns.Model (columns df) with
  | Some i =>
      mkDF (columns df)
           (map (fun r => (fst r,
                           set_nth i (CStr (normalized_name float_repr (cell_at i r)))
                                   (snd r)))
                (rows df))
  | None => df
  end.

(** What a left join puts after the cells of a left row whose key is [k]:
    the other cells of every row of [right] with that key, or missing
    values when there is none. *)
Definition merge_extra (right : DataFrame) (j : nat) (k : cell) : list (list cell) :=
  match filter (fun r => cell_eqb (cell_at j r) k) (rows right) with
  | [] => [repeat CNaN (length (remove_nth j (columns right)))]
  | ms => map (fun r => remove_nth j (snd r)) ms
  end.

(** Every model of the metrics table has a row in the metadata, under the
    normal form of its name. *)
Definition every_model_has_metadata (float_repr : Q -> string) (df metadata : DataFrame)
  : Prop :=
  forall r0, In r0 (rows df) ->
             exists mr, In mr (rows metadata) /\
                        cell_of metadata Columns.Model mr
                        = CStr (normalized_name float_repr (cell_of df Columns.Model r0)).

(** The column named [c] is an integer column. *)
Definition integer_column (df : DataFrame) (c : string) : Prop :=
  dtype_of (column_values df c) = DInt64 \/ dtype_of (column_values df c) = DUInt64.

(** The identifier of a row: its model and, when the table has a fold
    column, its fold. *)
Definition row_identifier (df : DataFrame) (r : cell * list cell) : cell * cell :=
  (cell_of df Columns.Model r,
   if mem_str Columns.Split (columns df) then cell_of df Columns.Split r else CNaN).

Definition identifier_eqb (a b : cell * cell) : bool :=
  cell_eqb (fst a) (fst b) && cell_eqb (snd a) (snd b).

(** The uniqueness validator raises a [ValueError] exactly when the
    identifiers of the rows are not unique. *)
Definition raises_iff_identifiers_repeat (float_repr : Q -> string) (df : DataFrame)
  : Prop :=
  is_value_error (fst (_validate_models_metrics_names float_repr df)) = true <->
  ~ Distinct identifier_eqb (map (row_identifier df) (rows df)).

(** The identifier of a row once the model name is in normal form. *)
Definition normalized_identifier (float_repr : Q -> string) (df : DataFrame)
           (r : cell * list cell) : string * cell :=
  (normalized_name float_repr (cell_of df Columns.Model r),
   cell_of df Columns.Split r).

(** The rows of [df] whose fold column equals [fold], under a fresh index. *)
Definition fold_view_spec (df : DataFrame) (fold : cell) : DataFrame :=
  mkDF (columns df)
       (range_index
          (filter (fun cells => py_eq (nth (match index_of Columns.Split (columns df) with
                                            | Some j => j
                                            | None => O
                                            end) cells CNaN) fold)
                  (map snd (rows df)))).

(** Every memoised view is the one its body computes. *)
Definition cache_ok (a : MetricsApp) : Prop :=
  (forall k v, In (k, v) (fold_cache a) -> make_chart_data_fold_body a k = Ok v) /\
  (forall v, avg_cache a = Some v -> make_chart_data_avg_body a = Ok v).

(** Two states of the same object: the data fields agree. *)
Definition same_object (a a' : MetricsApp) : Prop :=
  data a' = data a /\ metric_names a' = metric_names a /\ meta_names a' = meta_names a.

Definition Qsum (l : list Q) : Q := fold_right Qplus (0#1)%Q l.

(** Arithmetic mean of numbers. *)
Definition arithmetic_mean (l : list Q) : Q :=
  (Qsum l / inject_Z (Z.of_nat (length l)))%Q.

(** The float read in a cell of a metric column. *)
Definition float_of (c : cell) : float64 :=
  match c with
  | CInt z => float64_of_Z z
  | CFloat q => float64_of_Q q
  | _ => S754_nan
  end.

(** The mean of the numbers of some cells as float arithmetic gives it:
    their compensated sum, divided by their number. *)
Definition float_mean (l : list cell) : cell :=
  cell_of_float64 (float64_mean (map float_of l)).

(** The models of a table in order of first appearance. *)
Definition models_in_order (df : DataFrame) : list cell :=
  dedup cell_eqb (column_values df Columns.Model).

Definition rows_of_model (df : DataFrame) (m : cell) : list (cell * list cell) :=
  filter (fun r => cell_eqb (cell_of df Columns.Model r) m) (rows df).

(** The average view: one row per model, in order of first appearance, with
    the mean of every metric over the rows of the model, as float
    arithmetic gives it, and the metadata of the model. *)
Definition average_view_spec (df : DataFrame) (metrics metas : list string)
  : DataFrame :=
  mkDF (Columns.Model :: metrics ++ metas)
       (range_index
          (map (fun m =>
                  m :: map (fun c => float_mean (map (fun r => cell_of df c r)
                                                     (rows_of_model df m)))
                           metrics
                    ++ map (fun c => match rows_of_model df m with
                                     | r :: _ => cell_of df c r
                                     | [] => CNaN
                                     end) metas)
               (models_in_order df))).

(** The model of a row. *)
Definition row_key (df : DataFrame) (r : cell * list cell) : cell :=
  cell_of df Columns.Model r.

(** Two rows are rows of the same model. *)
Definition same_key (df : DataFrame) (r r' : cell * list cell) : bool :=
  cell_eqb (row_key df r) (row_key df r').

(** The first row of every model, in order of appearance. *)
Definition first_rows (df : DataFrame) : list (cell * list cell) :=
  dedup (same_key df) (rows df).

(** The means of the metrics [metrics] over the rows of model [k]. *)
Definition group_means (df : DataFrame) (metrics : list string) (k : cell) : list cell :=
  map (fun c => float_mean (map (fun r => cell_of df c r) (rows_of_model df k)))
      metrics.

(** The metadata cells of a row. *)
Definition row_metadata (df : DataFrame) (metas : list string) (r : cell * list cell)
  : list cell :=
  map (fun c => cell_of df c r) metas.

(** What the average view relies on in the data of an object: the columns
    it names are there, metric and metadata names do not clash, model names
    are strings, the metadata of a row depends on its model only, and the
    metric cells hold numbers. *)
Definition avg_ready (a : MetricsApp) : Prop :=
  mem_str Columns.Model (columns (data a)) = true /\
  (forall c, In c (metric_names a ++ meta_names a) ->
             mem_str c (columns (data a)) = true /\ c <> Columns.Model) /\
  (forall c, In c (metric_names a) -> ~ In c (meta_names a)) /\
  (forall r, In r (rows (data a)) ->
             exists s, cell_of (data a) Columns.Model r = CStr s) /\
  (forall r1 r2 c, In r1 (rows (data a)) -> In r2 (rows (data a)) ->
                   cell_of (data a) Columns.Model r1 = cell_of (data a) Columns.Model r2 ->
                   In c (meta_names a) ->
                   cell_of (data a) c r1 = cell_of (data a) c r2) /\
  (forall r c, In r (rows (data a)) -> In c (metric_names a) ->
               exists q, cell_num (cell_of (data a) c r) = Some q).

(** Cell-wise comparison of two tables, numbers by value. *)
Definition frame_eqb (a b : DataFrame) : bool :=
  list_eqb String.eqb (columns a) (columns b) &&
  list_eqb (fun r s => cell_eqb (fst r) (fst s) && list_eqb cell_eqb (snd r) (snd s))
           (rows a) (rows b).

(** The average view of the object is the table [expected]. *)
Definition average_view_yields (a : MetricsApp) (expected : DataFrame) : Prop :=
  exists v, fst (_make_chart_data_avg a) = Ok v /\ frame_eqb v expected = true.

(** The column named [c] is an [int64] column or a [float64] column: its
    cells are all integers that fit, or all floats. *)
Definition machine_numbers (df : DataFrame) (c : string) : Prop :=
  (forall r, In r (rows df) ->
             exists z, cell_of df c r = CInt z /\ is_int64 z = true) \/
  (forall r, In r (rows df) ->
             exists q, cell_of df c r = CFloat q /\ is_float64 q = true).

(** No mean of the average view overflows. *)
Definition finite_means (df : DataFrame) (metrics : list string) : Prop :=
  forall m c, In m (models_in_order df) -> In c metrics ->
              exists q, float_mean (map (fun r => cell_of df c r) (rows_of_model df m))
                        = CFloat q.

(** ** Concrete tables *)

Definition frame_of (cols : list string) (rs : list (list cell)) : DataFrame :=
  mkDF cols (range_index rs).

(** A textual form for floats, enough for the concrete tables. *)
Definition repr_example (q : Q) : string :=
  (NilZero.string_of_int (Z.to_int (Qnum q)) ++ "/"
   ++ NilZero.string_of_int (Z.to_int (Zpos (Qden q))))%string.

(** The floats that the literals [0.05], [0.1], ..., [0.6] denote. *)
Definition float_0_05 : Q := Eval vm_compute in float_literal (5#100).
Definition float_0_1 : Q := Eval vm_compute in float_literal (1#10).
Definition float_0_2 : Q := Eval vm_compute in float_literal (2#10).
Definition float_0_3 : Q := Eval vm_compute in float_literal (3#10).
Definition float_0_4 : Q := Eval vm_compute in float_literal (4#10).
Definition float_0_5 : Q := Eval vm_compute in float_literal (5#10).
Definition float_0_6 : Q := Eval vm_compute in float_literal (6#10).

(** The float just below [0.4], which Python prints
    [0.39999999999999997]. *)
Definition float_below_0_4 : Q := (7205759403792793 # 18014398509481984)%Q.

(** [DF_METRICS] of [tests/visuals/test_metrics_app.py]. *)
Definition DF_METRICS : DataFrame :=
  frame_of ["model"; "i_split"; "prec@10"; "recall"]
    [ [CStr "Model1"; CInt 0; CFloat float_0_1; CFloat float_0_1];
      [CStr "Model2"; CInt 0; CFloat float_0_2; CFloat float_0_2];
      [CStr "Model1"; CInt 1; CFloat float_0_3; CFloat float_0_3];
      [CStr "Model2"; CInt 1; CFloat float_0_4; CFloat float_0_4];
      [CStr "Model1"; CInt 2; CFloat float_0_5; CFloat float_0_5];
      [CStr "Model2"; CInt 2; CFloat float_0_6; CFloat float_0_6] ].

(** The object [construct] builds from [DF_METRICS] alone. *)
Definition app_of_DF_METRICS : MetricsApp :=
  mkApp DF_METRICS ["prec@10"; "recall"] [] true false [] None.

(** The average view expected for [DF_METRICS]: 0.3 for Model1, 0.4 for
    Model2. *)
Definition expected_average : DataFrame :=
  frame_of ["model"; "prec@10"; "recall"]
    [ [CStr "Model1"; CFloat float_0_3; CFloat float_0_3];
      [CStr "Model2"; CFloat float_0_4; CFloat float_0_4] ].

(** The average view computed for [DF_METRICS]: 0.3 for Model1,
    0.39999999999999997 for Model2. *)
Definition computed_average : DataFrame :=
  frame_of ["model"; "prec@10"; "recall"]
    [ [CStr "Model1"; CFloat float_0_3; CFloat float_0_3];
      [CStr "Model2"; CFloat float_below_0_4; CFloat float_below_0_4] ].

(** [DF_METRICS_EMPTY] of the tests: no metric column. *)
Definition DF_METRICS_EMPTY : DataFrame :=
  frame_of ["model"; "i_split"]
    [ [CStr "Model1"; CInt 0]; [CStr "Model2"; CInt 0];
      [CStr "Model1"; CInt 1]; [CStr "Model2"; CInt 1];
      [CStr "Model1"; CInt 2]; [CStr "Model2"; CInt 2] ].

(** [DF_METRICS_NO_MODEL] of the tests: no model column. *)
Definition DF_METRICS_NO_MODEL : DataFrame :=
  frame_of ["i_split"; "prec@10"; "recall"]
    [ [CInt 0; CFloat float_0_1; CFloat float_0_1];
      [CInt 0; CFloat float_0_2; CFloat float_0_2];
      [CInt 1; CFloat float_0_3; CFloat float_0_3];
      [CInt 1; CFloat float_0_4; CFloat float_0_4];
      [CInt 2; CFloat float_0_5; CFloat float_0_5];
      [CInt 2; CFloat float_0_6; CFloat float_0_6] ].

(** The metadata table of the docstring of [construct]. *)
Definition metadata_df : DataFrame :=
  frame_of ["model"; "factors"; "regularization"; "alpha"]
    [ [CStr "Model1"; CInt 64; CFloat float_0_05; CFloat (2#1)];
      [CStr "Model2"; CInt 32; CFloat float_0_05; CFloat (1#2)] ].

(** A model whose name has a space, with one fold and one metric, and the
    metadata recorded under the same name. *)
Definition metrics_spaced : DataFrame :=
  frame_of ["model"; "i_split"; "prec@10"]
    [ [CStr "my model"; CInt 0; CFloat (1#2)] ].

Definition metadata_spaced : DataFrame :=
  frame_of ["model"; "factors"] [ [CStr "my model"; CInt 64] ].

(** Two models told apart only by a space and an underscore. *)
Definition metrics_near_names : DataFrame :=
  frame_of ["model"; "prec@10"]
    [ [CStr "my model"; CFloat (1#2)]; [CStr "my_model"; CFloat (1#4)] ].

(** The object [construct] builds from [DF_METRICS] and [metadata_df]. *)
Definition app_with_metadata : MetricsApp :=
  Eval vm_compute in
    match fst (construct repr_example (PyFrame DF_METRICS)
                         (Some (PyFrame metadata_df)) true false) with
    | Ok a => a
    | Raise _ => app_of_DF_METRICS
    end.

(** The same two models, both measured on fold 0. *)
Definition metrics_near_names_fold : DataFrame :=
  frame_of ["model"; "i_split"; "prec@10"]
    [ [CStr "my model"; CInt 0; CFloat (1#2)];
      [CStr "my_model"; CInt 0; CFloat (1#4)] ].

(** Two models whose names and folds are all distinct, though ["A"] with
    fold 11 and ["A1"] with fold 1 read the same once put end to end. *)
Definition metrics_concatenated : DataFrame :=
  frame_of ["model"; "i_split"; "prec@10"]
    [ [CStr "A"; CInt 11; CFloat (1#2)];
      [CStr "A"; CInt 1; CFloat (1#4)];
      [CStr "A1"; CInt 1; CFloat (1#2)];
      [CStr "A1"; CInt 11; CFloat (1#4)] ].

(** A model with folds 0 and 1, another with fold 0 only. *)
Definition metrics_uneven_folds : DataFrame :=
  frame_of ["model"; "i_split"; "prec@10"]
    [ [CStr "Model1"; CInt 0; CFloat (1#2)];
      [CStr "Model1"; CInt 1; CFloat (1#4)];
      [CStr "Model2"; CInt 0; CFloat (1#4)] ].

(** ** The chart side: options and trace names *)

Definition WIDGET_WIDTH : Z := 800.
Definition WIDGET_HEIGHT : Z := 500.

(** A Python [dict] with string keys, in insertion order. *)
Definition dict (V : Type) : Type := list (string * V).

Fixpoint dict_get {V : Type} (d : dict V) (k : string) : option V :=
  match d with
  | [] => None
  | (k', v) :: rest => if String.eqb k' k then Some v else dict_get rest k
  end.

(** [d[k] = v]: an existing key keeps its place, a new one goes last. *)
Fixpoint dict_set {V : Type} (d : dict V) (k : string) (v : V) : dict V :=
  match d with
  | [] => [(k, v)]
  | (k', v') :: rest =>
      if String.eqb k' k then (k', v) :: rest else (k', v') :: dict_set rest k v
  end.

(** [d.update(other)] *)
Definition dict_update {V : Type} (d other : dict V) : dict V :=
  fold_left (fun acc kv => dict_set acc (fst kv) (snd kv)) other d.

(** The keys of a dictionary are pairwise different. *)
Definition dict_wf {V : Type} (d : dict V) : Prop := NoDup (map fst d).

Section ScatterKwargs.

(** The values of chart options are any Python objects; integers are among
    them. *)
Variable V : Type.
Variable of_int : Z -> V.

(** [self.scatter_kwargs] as [__init__] sets it. *)
Definition init_scatter_kwargs (scatter_kwargs : option (dict V)) : dict V :=
  match scatter_kwargs with
  | Some d => d
  | None => []
  end.

(** The dictionary [scatter_kwargs] that [_create_chart] builds and unpacks
    into its call of [plotly.express.scatter], beside the arguments it
    names itself. *)
Definition chart_scatter_kwargs (self_scatter_kwargs : dict V) : dict V :=
  dict_update [("width", of_int WIDGET_WIDTH); ("height", of_int WIDGET_HEIGHT)]
              self_scatter_kwargs.

End ScatterKwargs.

(** [s.split(" ", 1)]: the text before the first space and, when there is
    one, the text after it. *)
Fixpoint split_at_space (s : string) : string * option string :=
  match s with
  | EmptyString => (EmptyString, None)
  | String c r =>
      if Ascii.eqb c " "%char then (EmptyString, Some r)
      else (String c (fst (split_at_space r)), snd (split_at_space r))
  end.

(** [name.split(" ", 1)[-1]], the key under which [_update_chart] files a
    trace. *)
Definition trace_key (name : string) : string :=
  match split_at_space name with
  | (_, Some rest) => rest
  | (whole, None) => whole
  end.

(** [name.split(" ", 1)[1]]; [None] stands for the [IndexError] raised when
    the name has no space. *)
Definition trace_tail (name : string) : option string :=
  snd (split_at_space name).

(** The errors of the chart side: a key missing from a dictionary, an index
    out of range. *)
Inductive chart_error : Type :=
| ChartKeyError (key : string)
| ChartIndexError.

Section Traces.

(** The values held by the fields of a trace, the point symbols, and what
    else a trace holds. *)
Variables X S O : Type.

(** A trace of a figure, with the fields [_update_chart] reads and writes. *)
Record Trace : Type := mkTrace {
  trace_x : X;
  trace_y : X;
  trace_marker_color : X;
  trace_marker_symbol : S;
  trace_text : X;
  trace_name : string;
  trace_legendgroup : X;
  trace_hoverinfo : X;
  trace_hovertemplate : X;
  trace_other : O
}.

(** [{trace.name.split(" ", 1)[-1]: trace.marker.symbol for trace in fig.data}] *)
Definition trace_name2symbol (fig_data : list Trace) : dict S :=
  fold_left (fun d trace => dict_set d (trace_key (trace_name trace))
                                     (trace_marker_symbol trace))
            fig_data [].

(** [trace.marker.symbol = symbol] *)
Definition set_marker_symbol (trace : Trace) (symbol : S) : Trace :=
  mkTrace (trace_x trace) (trace_y trace) (trace_marker_color trace) symbol
          (trace_text trace) (trace_name trace) (trace_legendgroup trace)
          (trace_hoverinfo trace) (trace_hovertemplate trace) (trace_other trace).

(** The first loop of [_update_chart]: every trace of the new figure takes
    the symbol filed under its key. *)
Fixpoint restore_symbols (trace_name2symbol : dict S) (fig_data : list Trace)
  : chart_error + list Trace :=
  match fig_data with
  | [] => inr []
  | trace :: rest =>
      let trace_name := trace_key (trace_name trace) in
      match dict_get trace_name2symbol trace_name with
      | None => inl (ChartKeyError trace_name)
      | Some symbol =>
          match restore_symbols trace_name2symbol rest with
          | inl e => inl e
          | inr rest' => inr (set_marker_symbol trace symbol :: rest')
          end
      end
  end.

(** [{trace.name.split(" ", 1)[-1]: idx for idx, trace in enumerate(fig.data)}] *)
Definition nometa_trace_name2idx (fig_data : list Trace) : dict nat :=
  fold_left (fun d it => dict_set d (trace_key (trace_name (snd it))) (fst it))
            (combine (seq 0 (length fig_data)) fig_data) [].

(** The assignments to [fig_widget.data[idx]]: the nine fields of [trace]
    go onto the trace of the widget. *)
Definition copy_fields (widget_trace trace : Trace) : Trace :=
  mkTrace (trace_x trace) (trace_y trace) (trace_marker_color trace)
          (trace_marker_symbol trace) (trace_text trace) (trace_name trace)
          (trace_legendgroup trace) (trace_hoverinfo trace)
          (trace_hovertemplate trace) (trace_other widget_trace).

(** The second loop of [_update_chart], over the traces of the new figure. *)
Fixpoint patch_widget (nometa_trace_name2idx : dict nat) (use_meta : bool)
         (widget_data fig_data : list Trace) : chart_error + list Trace :=
  match fig_data with
  | [] => inr widget_data
  | trace :: rest =>
      match (if use_meta then trace_tail (trace_name trace)
             else Some (trace_name trace)) with
      | None => inl ChartIndexError
      | Some trace_name =>
          match dict_get nometa_trace_name2idx trace_name with
          | None => inl (ChartKeyError trace_name)
          | Some idx =>
              match nth_error widget_data idx with
              | None => inl ChartIndexError
              | Some widget_trace =>
                  patch_widget nometa_trace_name2idx use_meta
                               (set_nth idx (copy_fields widget_trace trace) widget_data)
                               rest
              end
          end
      end
  end.

(** The part of [_update_chart] that works on traces: [previous] are the
    traces of [self.fig] before the call, [chart] those of the figure
    [_create_chart] returns, [widget_data] those of the live figure. The
    result is the new [self.fig.data] and the new [fig_widget.data]. *)
Definition update_chart_traces (previous chart widget_data : list Trace)
           (use_meta : bool) : chart_error + (list Trace * list Trace) :=
  match restore_symbols (trace_name2symbol previous) chart with
  | inl e => inl e
  | inr fig_data =>
      match patch_widget (nometa_trace_name2idx fig_data) use_meta widget_data fig_data with
      | inl e => inl e
      | inr widget_data' => inr (fig_data, widget_data')
      end
  end.

(** The traces of the widget with the fields of the new traces copied onto
    them, position by position. *)
Fixpoint copy_onto (widget_data fig_data : list Trace) : list Trace :=
  match widget_data, fig_data with
  | w :: ws, t :: ts => copy_fields w t :: copy_onto ws ts
  | _, _ => widget_data
  end.

(** The symbol of the last trace filed under [key]. *)
Definition last_symbol (fig_data : list Trace) (key : string) : option S :=
  option_map trace_marker_symbol
             (find (fun t => String.eqb (trace_key (trace_name t)) key) (rev fig_data)).

End Traces.

Arguments trace_name {X S O} t.
Arguments trace_marker_symbol {X S O} t.
Arguments trace_other {X S O} t.
Arguments trace_name2symbol {X S O} fig_data.
Arguments set_marker_symbol {X S O} trace symbol.
Arguments restore_symbols {X S O} trace_name2symbol fig_data.
Arguments nometa_trace_name2idx {X S O} fig_data.
Arguments copy_fields {X S O} widget_trace trace.
Arguments patch_widget {X S O} nometa_trace_name2idx use_meta widget_data fig_data.
Arguments update_chart_traces {X S O} previous chart widget_data use_meta.
Arguments copy_onto {X S O} widget_data fig_data.
Arguments last_symbol {X S O} fig_data key.

(** Python's [a < b] holds. *)
Definition cell_lt (a b : cell) : Prop := py_lt a b = Some true.

(** The value is a string; the value is an integer. *)
Definition is_str (c : cell) : Prop := exists s, c = CStr s.
Definition is_int (c : cell) : Prop := exists z, c = CInt z.

(** The sum of a list of natural numbers. *)
Definition sum_nat (l : list nat) : nat := fold_right Nat.add O l.

(** ** Basic facts *)

Lemma cell_eqb_refl (a : cell) : cell_eqb a a = true.
Proof.
  destruct a; simpl; auto using String.eqb_refl, Qeq_bool_refl.
Qed.

Lemma cell_eqb_sym (a b : cell) : cell_eqb a b = cell_eqb b a.
Proof.
  destruct a, b; simpl; auto using String.eqb_sym, Qeq_bool_comm.
Qed.

Lemma cell_eqb_trans (a b c : cell) :
  cell_eqb a b = true -> cell_eqb b c = true -> cell_eqb a c = true.
Proof.
  destruct a, b, c; simpl; try discriminate; auto;
    try (intros; eapply Qeq_bool_trans; eassumption).
  intros H1 H2. apply String.eqb_eq in H1, H2. subst. apply String.eqb_refl.
Qed.

Lemma cell_eqb_congr (a b c : cell) :
  cell_eqb a b = true -> cell_eqb a c = cell_eqb b c.
Proof.
  intro H. destruct (cell_eqb b c) eqn:E.
  - eapply cell_eqb_trans; eassumption.
  - destruct (cell_eqb a c) eqn:E'; auto.
    rewrite cell_eqb_sym in H.
    rewrite (cell_eqb_trans _ _ _ H E') in E. discriminate.
Qed.

Lemma cell_eqb_str (s : string) (c : cell) :
  cell_eqb (CStr s) c = true -> c = CStr s.
Proof.
  destruct c; simpl; try discriminate.
  intro H. apply String.eqb_eq in H. now subst.
Qed.

Lemma mem_str_In (c : string) (l : list string) : mem_str c l = true <-> In c l.
Proof.
  unfold mem_str. rewrite existsb_exists. split.
  - intros [x [Hin Heq]]. apply String.eqb_eq in Heq. now subst.
  - intro Hin. exists c. split; auto using String.eqb_refl.
Qed.

Lemma index_of_None (c : string) (l : list string) :
  index_of c l = None <-> mem_str c l = false.
Proof.
  induction l as [|x xs IH]; simpl.
  - tauto.
  - rewrite (String.eqb_sym c x). destruct (String.eqb x c); simpl.
    + split; discriminate.
    + destruct (index_of c xs); simpl in *.
      * split; [discriminate|]. intro H. apply IH in H. discriminate.
      * tauto.
Qed.

Lemma index_of_Some (c : string) (l : list string) :
  mem_str c l = true -> exists i, index_of c l = Some i.
Proof.
  intro H. destruct (index_of c l) eqn:E; eauto.
  apply index_of_None in E. congruence.
Qed.

Lemma index_of_lt (c : string) (l : list string) (i : nat) :
  index_of c l = Some i -> (i < length l)%nat /\ nth i l ""%string = c.
Proof.
  revert i. induction l as [|x xs IH]; simpl; intros i H; [discriminate|].
  destruct (String.eqb x c) eqn:E.
  - inversion H; subst. apply String.eqb_eq in E. split; [lia|auto].
  - destruct (index_of c xs) as [j|]; simpl in H; [|discriminate].
    inversion H; subst. destruct (IH j eq_refl). split; [lia|auto].
Qed.

Lemma index_of_inj (c d : string) (l : list string) (i : nat) :
  index_of c l = Some i -> index_of d l = Some i -> c = d.
Proof.
  intros H1 H2. apply index_of_lt in H1, H2. destruct H1, H2. congruence.
Qed.

Lemma filter_all {A : Type} (f : A -> bool) (l : list A) :
  (forall x, In x l -> f x = true) -> filter f l = l.
Proof.
  induction l as [|x xs IH]; simpl; intro H; auto.
  rewrite (H x) by auto. f_equal. apply IH. auto.
Qed.

Lemma filter_length_le {A : Type} (f : A -> bool) (l : list A) :
  (length (filter f l) <= length l)%nat.
Proof.
  induction l as [|x xs IH]; simpl; auto. destruct (f x); simpl; lia.
Qed.

Lemma filter_full {A : Type} (f : A -> bool) (l : list A) :
  length (filter f l) = length l -> forall x, In x l -> f x = true.
Proof.
  intros H x Hin. apply filter_length_forallb in H.
  rewrite forallb_forall in H. auto.
Qed.

Lemma dedup_length_le {A : Type} (eqb : A -> A -> bool) (l : list A) :
  (length (dedup eqb l) <= length l)%nat.
Proof.
  induction l as [|x xs IH]; simpl; auto.
  pose proof (filter_length_le (fun y => negb (eqb x y)) (dedup eqb xs)). lia.
Qed.

Lemma dedup_In {A : Type} (eqb : A -> A -> bool) (l : list A) (x : A) :
  In x (dedup eqb l) -> In x l.
Proof.
  induction l as [|y ys IH]; simpl; auto.
  intros [H|H]; auto. apply filter_In in H. right. apply IH. tauto.
Qed.

Lemma dedup_Distinct {A : Type} (eqb : A -> A -> bool) (l : list A) :
  Distinct eqb l -> dedup eqb l = l.
Proof.
  induction 1 as [|x l Hx Hl IH]; simpl; auto.
  rewrite IH. f_equal. apply filter_all. intros y Hy. now rewrite Hx.
Qed.

Lemma dedup_full_Distinct {A : Type} (eqb : A -> A -> bool) (l : list A) :
  length (dedup eqb l) = length l -> Distinct eqb l.
Proof.
  induction l as [|x xs IH]; simpl; intro H; [constructor|].
  pose proof (filter_length_le (fun y => negb (eqb x y)) (dedup eqb xs)) as H1.
  pose proof (dedup_length_le eqb xs) as H2.
  assert (Hd : length (dedup eqb xs) = length xs) by lia.
  specialize (IH Hd). constructor; auto.
  intros y Hy. rewrite (dedup_Distinct _ _ IH) in H.
  assert (Hf : negb (eqb x y) = true).
  { apply (filter_full (fun y => negb (eqb x y)) xs); auto; lia. }
  now apply negb_true_iff in Hf.
Qed.

Lemma dedup_length_Distinct {A : Type} (eqb : A -> A -> bool) (l : list A) :
  length (dedup eqb l) = length l <-> Distinct eqb l.
Proof.
  split; [apply dedup_full_Distinct|]. intro H. now rewrite dedup_Distinct.
Qed.

Lemma distinctb_Distinct {A : Type} (eqb : A -> A -> bool) (l : list A) :
  distinctb eqb l = true <-> Distinct eqb l.
Proof.
  induction l as [|x xs IH]; simpl.
  - split; auto. constructor.
  - rewrite andb_true_iff, forallb_forall, IH. split.
    + intros [H1 H2]. constructor; auto.
      intros y Hy. apply negb_true_iff. auto.
    + intro H. inversion H; subst. split; auto.
      intros y Hy. apply negb_true_iff. auto.
Qed.

Lemma Distinct_dec {A : Type} (eqb : A -> A -> bool) (l : list A) :
  Distinct eqb l \/ ~ Distinct eqb l.
Proof.
  destruct (distinctb eqb l) eqn:E.
  - left. now apply distinctb_Distinct.
  - right. intro H. apply distinctb_Distinct in H. congruence.
Qed.

Lemma existsb_isnull (l : list cell) : existsb isnull l = true <-> In CNaN l.
Proof.
  rewrite existsb_exists. split.
  - intros [x [Hin Hx]]. destruct x; try discriminate. auto.
  - intro H. exists CNaN. auto.
Qed.

Lemma filter_notnull_id (l : list cell) :
  ~ In CNaN l -> filter (fun v => negb (isnull v)) l = l.
Proof.
  intro H. apply filter_all. intros x Hx.
  destruct x; auto; contradiction.
Qed.

Lemma filter_notnull_full (l : list cell) :
  length (filter (fun v => negb (isnull v)) l) = length l -> ~ In CNaN l.
Proof.
  intros H Hin. pose proof (filter_full _ _ H CNaN Hin) as E. discriminate.
Qed.

(** [nunique] falls short of the length exactly when a value is repeated or
    missing. *)
Lemma nunique_full (s : Series) :
  nunique s = length s <-> Distinct cell_eqb (values s) /\ ~ In CNaN (values s).
Proof.
  unfold nunique. set (l := values s).
  assert (Hl : length s = length l) by (unfold l, values; now rewrite length_map).
  rewrite Hl. split.
  - intro H.
    pose proof (dedup_length_le cell_eqb (filter (fun v => negb (isnull v)) l)) as H1.
    pose proof (filter_length_le (fun v => negb (isnull v)) l) as H2.
    assert (Hn : ~ In CNaN l) by (apply filter_notnull_full; lia).
    split; auto. rewrite filter_notnull_id in H by auto.
    now apply dedup_length_Distinct.
  - intros [Hd Hn]. rewrite filter_notnull_id by auto. now rewrite dedup_Distinct.
Qed.

Lemma get_column_values (df : DataFrame) (c : string) (s : Series) :
  get_column df c = Ok s -> values s = column_values df c /\ length s = length (rows df).
Proof.
  unfold get_column, column_values. destruct (index_of c (columns df)); [|discriminate].
  intro H. inversion H; subst. unfold values.
  rewrite map_map, length_map. auto.
Qed.

Lemma get_column_mem (df : DataFrame) (c : string) :
  mem_str c (columns df) = true -> exists s, get_column df c = Ok s.
Proof.
  intro H. unfold get_column. destruct (index_of_Some _ _ H) as [i Hi].
  rewrite Hi. eauto.
Qed.

(** ** Schema errors of [construct] *)

(** C6: whatever else is passed, [construct] raises a [KeyError] when the
    metrics table has no model column, and raises a [KeyError] when no
    column is left once the model and fold columns are set aside; the
    table is not touched. *)
Theorem construct_schema_error (float_repr : Q -> string) (df : DataFrame)
        (models_metadata : option pyobj) (show_legend auto_display : bool) :
  mem_str Columns.Model (columns df) = false \/
  (length (filter is_metric_column (columns df)) < 1)%nat ->
  is_key_error
    (fst (construct float_repr (PyFrame df) models_metadata show_legend auto_display))
  = true /\
  snd (construct float_repr (PyFrame df) models_metadata show_legend auto_display)
  = PyFrame df.
Proof.
  intro H. unfold construct, _validate_models_metrics_base.
  destruct (mem_str Columns.Model (columns df)) eqn:Em; simpl.
  - destruct H as [H|H]; [discriminate|].
    apply Nat.ltb_lt in H. rewrite H. simpl. auto.
  - auto.
Qed.

Lemma construct_schema_error_witness :
  (is_key_error
     (fst (construct repr_example (PyFrame DF_METRICS_NO_MODEL) None true false)) = true /\
   snd (construct repr_example (PyFrame DF_METRICS_NO_MODEL) None true false)
   = PyFrame DF_METRICS_NO_MODEL) /\
  (is_key_error
     (fst (construct repr_example (PyFrame DF_METRICS_EMPTY) None true false)) = true /\
   snd (construct repr_example (PyFrame DF_METRICS_EMPTY) None true false)
   = PyFrame DF_METRICS_EMPTY).
Proof.
  split; apply construct_schema_error.
  - left. reflexivity.
  - right. simpl. lia.
Defined.

(** ** The metadata validator *)

(** C7: the metadata validator raises a [ValueError] for an object that is
    not a table; for a table it raises a [KeyError] exactly when the model
    column is absent, a [ValueError] exactly when the model column is there
    and holds a repeated or a missing value, and returns normally exactly
    when the model column is there with distinct values none of which is
    missing. *)
Theorem validate_models_metadata_spec (o : pyobj) :
  match o with
  | PyOther => is_value_error (_validate_models_metadata o) = true
  | PyFrame df =>
      let present := mem_str Columns.Model (columns df) in
      let names := column_values df Columns.Model in
      (is_key_error (_validate_models_metadata o) = true <-> present = false) /\
      (is_value_error (_validate_models_metadata o) = true <->
       present = true /\ (~ Distinct cell_eqb names \/ In CNaN names)) /\
      (_validate_models_metadata o = Ok tt <->
       present = true /\ Distinct cell_eqb names /\ ~ In CNaN names)
  end.
Proof.
  destruct o as [df|]; [|reflexivity].
  cbv zeta. unfold _validate_models_metadata.
  destruct (mem_str Columns.Model (columns df)) eqn:Em; simpl.
  2:{ repeat split; try discriminate; try tauto; intros [? _]; discriminate. }
  destruct (get_column_mem _ _ Em) as [s Hs]. rewrite Hs. simpl.
  destruct (get_column_values _ _ _ Hs) as [Hv Hl].
  rewrite <- Hv, <- Hl.
  pose proof (nunique_full s) as Hn.
  destruct (Nat.eqb_spec (nunique s) (length s)) as [E|E]; simpl.
  - apply Hn in E. destruct E as [Hd Hnan].
    assert (Hex : series_has_null s = false).
    { unfold series_has_null. destruct (existsb isnull (values s)) eqn:X; auto.
      apply existsb_isnull in X. contradiction. }
    rewrite Hex. simpl. repeat split; auto; try discriminate.
    intros [_ [H|H]]; contradiction.
  - repeat split; auto; try discriminate.
    + destruct (Distinct_dec cell_eqb (values s)) as [Hd|Hd]; auto.
      destruct (existsb isnull (values s)) eqn:X.
      * right. now apply existsb_isnull.
      * exfalso. apply E, Hn. split; auto. intro Hin.
        apply existsb_isnull in Hin. congruence.
    + intros [_ [Hd Hnan]]. exfalso. apply E, Hn. auto.
Qed.

(** ** Choice of the view *)

(** C9: the data handed to the chart is the average view whenever the
    check box is ticked or no fold is selected, and the fold view of the
    selected fold otherwise. *)
Theorem create_chart_data_selection (a : MetricsApp) (fold_i : option cell)
        (fold : cell) :
  _create_chart_data a true fold_i = _make_chart_data_avg a /\
  _create_chart_data a false None = _make_chart_data_avg a /\
  _create_chart_data a false (Some fold) = _make_chart_data_fold a fold.
Proof.
  repeat split.
Qed.

(** ** Model names with spaces *)

(** C1: with a model called ["my model"] both in the metrics table and in
    the metadata table, both tables pass validation, yet the merged data
    knows the model as ["my_model"] and has lost its metadata: the metrics
    names are rewritten before the join, the metadata names are not. *)
Theorem construct_loses_metadata_of_spaced_name :
  _validate_models_metadata (PyFrame metadata_spaced) = Ok tt /\
  column_values metadata_spaced "factors" = [CInt 64] /\
  exists a,
    fst (construct repr_example (PyFrame metrics_spaced)
                   (Some (PyFrame metadata_spaced)) true false) = Ok a /\
    column_values (data a) Columns.Model = [CStr "my_model"] /\
    column_values (data a) "factors" = [CNaN].
Proof.
  split; [reflexivity|]. split; [reflexivity|].
  eexists. split; [vm_compute; reflexivity|]. split; reflexivity.
Qed.

(** C4: the names validator returns normally on the table with the model
    ["my model"], and leaves the model column of that table rewritten. *)
Theorem validate_names_rewrites_table :
  fst (_validate_models_metrics_names repr_example metrics_spaced) = Ok tt /\
  column_values metrics_spaced Columns.Model = [CStr "my model"] /\
  column_values (snd (_validate_models_metrics_names repr_example metrics_spaced))
                Columns.Model = [CStr "my_model"] /\
  snd (_validate_models_metrics_names repr_example metrics_spaced) <> metrics_spaced.
Proof.
  repeat split; try reflexivity.
  intro H. apply (f_equal (fun d => column_values d Columns.Model)) in H.
  vm_compute in H. discriminate.
Qed.

(** ** What [construct] goes through when it succeeds *)

(** The chart data with the box for the average ticked are the average
    view. *)
Lemma create_chart_data_avg (a : MetricsApp) (fold_i : option cell) :
  _create_chart_data a true fold_i = _make_chart_data_avg a.
Proof. reflexivity. Qed.

(** What [display] comes to: the fold identifiers are computed, and are not
    an empty list; the average view is computed and memoised. *)
Lemma display_ok (self : MetricsApp) (self' : MetricsApp) :
  avg_cache self = None ->
  display self = (Ok tt, self') ->
  metric_names self <> [] /\
  (exists ids, fold_ids self = Ok ids /\ ids <> Some []) /\
  exists v, make_chart_data_avg_body self = Ok v /\
            self' = with_avg_cache self (Some v).
Proof.
  intros Hn. unfold display.
  destruct (metric_names self) as [|c cs] eqn:Em; [discriminate|].
  destruct (fold_ids self) as [ids|e] eqn:Ef; [|discriminate].
  rewrite !create_chart_data_avg.
  assert (Hcall : forall (k : result DataFrame * MetricsApp -> result unit * MetricsApp),
             k (_make_chart_data_avg self)
             = k (match make_chart_data_avg_body self with
                  | Ok v => (Ok v, with_avg_cache self (Some v))
                  | Raise e => (Raise e, self)
                  end)).
  { intro k. unfold _make_chart_data_avg. now rewrite Hn. }
  assert (Hgo : match _make_chart_data_avg self with
                | (Raise e, self1) => (Raise e, self1)
                | (Ok _, self1) =>
                    match _make_chart_data_avg self1 with
                    | (Raise e, self2) => (Raise e, self2)
                    | (Ok _, self2) => (Ok tt, self2)
                    end
                end = (Ok tt, self') ->
                exists v, make_chart_data_avg_body self = Ok v /\
                          self' = with_avg_cache self (Some v)).
  { unfold _make_chart_data_avg at 1. rewrite Hn.
    destruct (make_chart_data_avg_body self) as [v|e] eqn:Eb; [|discriminate].
    unfold _make_chart_data_avg. cbn [avg_cache with_avg_cache].
    intro H. inversion H. eauto. }
  destruct ids as [[|f fs]|]; [discriminate| |]; intro H.
  - split; [discriminate|]. split; [exists (Some (f :: fs)); split; [auto|discriminate]|].
    now apply Hgo.
  - split; [discriminate|]. split; [exists None; split; [auto|discriminate]|].
    now apply Hgo.
Qed.

(** When the fold identifiers and the average view can be computed,
    [display] goes through. *)
Lemma display_succeeds (self : MetricsApp) (ids : option (list cell)) (v : DataFrame) :
  avg_cache self = None ->
  metric_names self <> [] ->
  fold_ids self = Ok ids -> ids <> Some [] ->
  make_chart_data_avg_body self = Ok v ->
  display self = (Ok tt, with_avg_cache self (Some v)).
Proof.
  intros Hn Hm Hf Hids Hb. unfold display.
  destruct (metric_names self) as [|c cs]; [congruence|]. rewrite Hf.
  rewrite !create_chart_data_avg.
  assert (E1 : _make_chart_data_avg self = (Ok v, with_avg_cache self (Some v))).
  { unfold _make_chart_data_avg. now rewrite Hn, Hb. }
  assert (E2 : _make_chart_data_avg (with_avg_cache self (Some v))
               = (Ok v, with_avg_cache self (Some v))) by reflexivity.
  destruct ids as [[|f fs]|]; [congruence| |];
    rewrite E1; cbv beta iota; rewrite create_chart_data_avg, E2; reflexivity.
Qed.

(** What [__init__] returns: the fields as given, no fold view memoised,
    and at most the average view of these data memoised. *)
Lemma init_inv (d : DataFrame) (ms ns : list string) (sl ad : bool) (a0 : MetricsApp) :
  __init__ d ms ns sl ad = Ok a0 ->
  exists ac, a0 = mkApp d ms ns sl ad [] ac /\
             (ad = false -> ac = None) /\
             forall v, ac = Some v ->
                       make_chart_data_avg_body (mkApp d ms ns sl ad [] None) = Ok v.
Proof.
  unfold __init__. destruct ad.
  - destruct (display (mkApp d ms ns sl true [] None)) as [[[]|e] self'] eqn:Ed;
      [|discriminate].
    intro H. inversion H; subst a0; clear H.
    destruct (display_ok (mkApp d ms ns sl true [] None) self' eq_refl Ed)
      as (_ & _ & v & Hv & ->).
    exists (Some v). split; [reflexivity|]. split; [discriminate|].
    intros v' E. now inversion E; subst.
  - intro H. inversion H. exists None. split; [reflexivity|]. split; auto.
    discriminate.
Qed.

Lemma construct_inv (float_repr : Q -> string) (models_metrics : pyobj)
      (models_metadata : option pyobj) (sl ad : bool) (a0 : MetricsApp) :
  fst (construct float_repr models_metrics models_metadata sl ad) = Ok a0 ->
  exists df df' metadata merged m ac,
    models_metrics = PyFrame df /\
    _validate_models_metrics_base (PyFrame df) = Ok tt /\
    _validate_models_metrics_split float_repr df = Ok tt /\
    _validate_models_metrics_names float_repr df = (Ok tt, df') /\
    match models_metadata with
    | None => exists s, get_column df' Columns.Model = Ok s /\
                        metadata = to_frame Columns.Model (series_drop_duplicates s)
    | Some o => o = PyFrame metadata
    end /\
    _validate_models_metadata (PyFrame metadata) = Ok tt /\
    merge_left df' metadata Columns.Model = Ok merged /\
    get_column merged Columns.Model = Ok m /\
    a0 = mkApp (set_column merged Columns.Model (series_map str_replace m))
               (filter is_metric_column (columns df'))
               (filter (fun col => negb (String.eqb col Columns.Model)) (columns metadata))
               sl ad [] ac.
Proof.
  unfold construct.
  destruct (_validate_models_metrics_base models_metrics) as [[]|e] eqn:Eb;
    [|discriminate].
  destruct models_metrics as [df|]; [|discriminate].
  destruct (_validate_models_metrics_split float_repr df) as [[]|e] eqn:Es;
    [|discriminate].
  destruct (_validate_models_metrics_names float_repr df) as [[[]|e] df'] eqn:En;
    [|discriminate].
  cbn [fst]. unfold construct_merged. intro H.
  assert (Ef : forall l : list string,
             filter (fun col => negb (String.eqb col Columns.Split
                                      || String.eqb col Columns.Model)) l
             = filter is_metric_column l).
  { intro l. apply filter_ext. intro c. unfold is_metric_column. now rewrite orb_comm. }
  destruct models_metadata as [o|].
  - cbn [bind] in H.
    destruct (_validate_models_metadata o) as [[]|e] eqn:Em; [|discriminate].
    cbn [bind] in H. destruct o as [metadata|]; [|discriminate].
    destruct (merge_left df' metadata Columns.Model) as [merged|e] eqn:Eg;
      [|discriminate].
    cbn [bind] in H. destruct (get_column merged Columns.Model) as [m|e] eqn:Ec;
      [|discriminate].
    cbn [bind] in H. rewrite Ef in H. apply init_inv in H.
    destruct H as (ac & -> & _).
    exists df, df', metadata, merged, m, ac.
    repeat (split; [assumption || reflexivity|]). reflexivity.
  - destruct (get_column df' Columns.Model) as [s|e] eqn:Eg0; [|discriminate].
    cbn [bind] in H.
    set (metadata := to_frame Columns.Model (series_drop_duplicates s)) in *.
    destruct (_validate_models_metadata (PyFrame metadata)) as [[]|e] eqn:Em;
      [|discriminate].
    cbn [bind] in H.
    destruct (merge_left df' metadata Columns.Model) as [merged|e] eqn:Eg;
      [|discriminate].
    cbn [bind] in H. destruct (get_column merged Columns.Model) as [m|e] eqn:Ec;
      [|discriminate].
    cbn [bind] in H. rewrite Ef in H. apply init_inv in H.
    destruct H as (ac & -> & _).
    exists df, df', metadata, merged, m, ac.
    repeat (split; [assumption || reflexivity || eauto|]). reflexivity.
Qed.

(** A constructed object has no fold view memoised, and memoises no other
    average view than the one its body computes. *)
Lemma construct_caches (float_repr : Q -> string) (mm : pyobj)
      (md : option pyobj) (sl ad : bool) (a0 : MetricsApp) :
  fst (construct float_repr mm md sl ad) = Ok a0 ->
  fold_cache a0 = [] /\
  (ad = false -> avg_cache a0 = None) /\
  cache_ok a0.
Proof.
  unfold construct.
  destruct (_validate_models_metrics_base mm) as [[]|e]; [|discriminate].
  destruct mm as [df|]; [|discriminate].
  destruct (_validate_models_metrics_split float_repr df) as [[]|e]; [|discriminate].
  destruct (_validate_models_metrics_names float_repr df) as [[[]|e] df'];
    [|discriminate].
  cbn [fst]. unfold construct_merged.
  destruct (match md with
            | Some o => Ok o
            | None => m <- get_column df' Columns.Model;;
                      Ok (PyFrame (to_frame Columns.Model (series_drop_duplicates m)))
            end) as [o|e]; [|discriminate].
  cbn [bind]. destruct (_validate_models_metadata o) as [[]|e]; [|discriminate].
  cbn [bind]. destruct o as [metadata|]; [|discriminate].
  destruct (merge_left df' metadata Columns.Model) as [merged|e]; [|discriminate].
  cbn [bind]. destruct (get_column merged Columns.Model) as [m|e]; [|discriminate].
  cbn [bind]. intro H. apply init_inv in H. destruct H as (ac & -> & Hnone & Hsome).
  cbn [fold_cache avg_cache]. repeat split; auto.
  intros k v [].
Qed.

(** ** Memoisation and the life of the object *)

Lemma firstn_incl {A : Type} (n : nat) (l : list A) (x : A) :
  In x (firstn n l) -> In x l.
Proof.
  revert l. induction n as [|n IH]; intros [|y ys] H; simpl in *;
    try contradiction.
  destruct H as [H|H]; auto.
Qed.

Lemma cache_insert_In (k k1 : cell) (v v1 : DataFrame) (c : list (cell * DataFrame)) :
  In (k1, v1) (cache_insert k v c) -> (k, v) = (k1, v1) \/ In (k1, v1) c.
Proof.
  unfold cache_insert. intro H. apply firstn_incl in H. exact H.
Qed.

Lemma cache_lookup_insert (k : cell) (v : DataFrame) (c : list (cell * DataFrame)) :
  cache_lookup k (cache_insert k v c) = Some v.
Proof.
  unfold cache_insert, lru_maxsize. cbn [firstn cache_lookup].
  now rewrite cell_eqb_refl.
Qed.

Lemma cache_lookup_In (k : cell) (c : list (cell * DataFrame)) (v : DataFrame) :
  cache_lookup k c = Some v ->
  exists k', In (k', v) c /\ cell_eqb k' k = true.
Proof.
  induction c as [|[k' v'] rest IH]; simpl; [discriminate|].
  destruct (cell_eqb k' k) eqn:E.
  - intro H. inversion H; subst. eauto.
  - intro H. destruct (IH H) as [k'' [Hin Heq]]. eauto.
Qed.

Lemma py_eq_congr (k k' v : cell) :
  cell_eqb k k' = true -> py_eq v k = py_eq v k'.
Proof.
  intro H. unfold py_eq. f_equal.
  rewrite (cell_eqb_sym v k), (cell_eqb_sym v k'). now apply cell_eqb_congr.
Qed.

Lemma fold_body_congr (a : MetricsApp) (k k' : cell) :
  cell_eqb k k' = true ->
  make_chart_data_fold_body a k = make_chart_data_fold_body a k'.
Proof.
  intro H. unfold make_chart_data_fold_body.
  destruct (get_column (data a) Columns.Split); simpl; auto.
  do 3 f_equal. apply map_ext. intro v. now apply py_eq_congr.
Qed.

Lemma fold_body_same (a a' : MetricsApp) (k : cell) :
  same_object a a' ->
  make_chart_data_fold_body a' k = make_chart_data_fold_body a k.
Proof.
  intros [Hd _]. unfold make_chart_data_fold_body. now rewrite Hd.
Qed.

Lemma avg_body_same (a a' : MetricsApp) :
  same_object a a' -> make_chart_data_avg_body a' = make_chart_data_avg_body a.
Proof.
  intros [Hd [Hm Hn]]. unfold make_chart_data_avg_body. now rewrite Hd, Hm, Hn.
Qed.

Lemma fold_call_same (a : MetricsApp) (k : cell) :
  same_object a (snd (_make_chart_data_fold a k)).
Proof.
  unfold _make_chart_data_fold, same_object.
  destruct (cache_lookup k (fold_cache a)); simpl; auto.
  destruct (make_chart_data_fold_body a k); simpl; auto.
Qed.

Lemma avg_call_same (a : MetricsApp) :
  same_object a (snd (_make_chart_data_avg a)).
Proof.
  unfold _make_chart_data_avg, same_object.
  destruct (avg_cache a); simpl; auto.
  destruct (make_chart_data_avg_body a); simpl; auto.
Qed.

Lemma fold_call_cache_ok (a : MetricsApp) (k : cell) :
  cache_ok a -> cache_ok (snd (_make_chart_data_fold a k)).
Proof.
  intros [Hf Ha]. unfold _make_chart_data_fold.
  destruct (cache_lookup k (fold_cache a)) as [v|] eqn:El; simpl.
  - destruct (cache_lookup_In _ _ _ El) as [k' [Hin Heq]].
    split; simpl; auto.
    intros k1 v1 [H|H].
    + inversion H; subst. change (make_chart_data_fold_body a k1 = Ok v1).
      rewrite <- (fold_body_congr a k' k1 Heq). auto.
    + apply filter_In in H. apply (Hf k1 v1). tauto.
  - destruct (make_chart_data_fold_body a k) as [v|e] eqn:Eb; simpl.
    + split; simpl; auto.
      intros k1 v1 H. apply cache_insert_In in H. destruct H as [H|H].
      * inversion H; subst. exact Eb.
      * apply (Hf k1 v1 H).
    + split; auto.
Qed.

Lemma avg_call_cache_ok (a : MetricsApp) :
  cache_ok a -> cache_ok (snd (_make_chart_data_avg a)).
Proof.
  intro H. pose proof H as [Hf _]. unfold _make_chart_data_avg.
  destruct (avg_cache a) as [v|] eqn:El; simpl; [exact H|].
  destruct (make_chart_data_avg_body a) as [v|e] eqn:Eb; simpl; [|exact H].
  split; simpl; auto. intros v1 H1. inversion H1; subst. exact Eb.
Qed.

Lemma step_same (a a' : MetricsApp) : step a a' -> same_object a a'.
Proof.
  destruct 1 as [a [] [f|]|a f|a|a n|a];
    simpl; auto using fold_call_same, avg_call_same; repeat split.
Qed.

Lemma step_cache_ok (a a' : MetricsApp) : step a a' -> cache_ok a -> cache_ok a'.
Proof.
  destruct 1 as [a [] [f|]|a f|a|a n|a];
    simpl; auto using fold_call_cache_ok, avg_call_cache_ok.
  - intros [Hf Ha]. split; simpl; auto.
    intros k v H. apply firstn_incl in H. apply (Hf k v H).
  - intros [Hf Ha]. split; simpl; auto. discriminate.
Qed.

Lemma lifetime_same (a0 a : MetricsApp) : lifetime a0 a -> same_object a0 a.
Proof.
  induction 1 as [|a a' _ [Hd [Hm Hn]] Hs].
  - repeat split.
  - destruct (step_same _ _ Hs) as [Hd' [Hm' Hn']].
    repeat split; congruence.
Qed.

Lemma lifetime_cache_ok (a0 a : MetricsApp) :
  cache_ok a0 -> lifetime a0 a -> cache_ok a.
Proof.
  intro H0. induction 1; eauto using step_cache_ok.
Qed.

Lemma combine_mask {A : Type} (f : A -> bool) (l : list A) :
  map fst (filter snd (combine l (map f l))) = filter f l.
Proof.
  induction l as [|x xs IH]; simpl; auto.
  destruct (f x); simpl; now rewrite IH.
Qed.

Lemma filter_map_snd {A B : Type} (f : B -> bool) (l : list (A * B)) :
  map snd (filter (fun r => f (snd r)) l) = filter f (map snd l).
Proof.
  induction l as [|x xs IH]; simpl; auto.
  destruct (f (snd x)); simpl; now rewrite IH.
Qed.

Lemma fold_body_spec (a : MetricsApp) (k : cell) :
  mem_str Columns.Split (columns (data a)) = true ->
  make_chart_data_fold_body a k = Ok (fold_view_spec (data a) k).
Proof.
  intro H. unfold make_chart_data_fold_body, get_column, fold_view_spec.
  destruct (index_of_Some _ _ H) as [j Hj]. rewrite Hj. simpl.
  f_equal. unfold reset_index_drop, boolean_index, values. simpl.
  do 2 f_equal.
  assert (Hm : map (fun v => py_eq v k)
                   (map snd (map (fun r => (fst r, cell_at j r)) (rows (data a))))
               = map (fun r => py_eq (cell_at j r) k) (rows (data a))).
  { rewrite !map_map. reflexivity. }
  rewrite Hm, combine_mask.
  apply (filter_map_snd (fun cells => py_eq (nth j cells CNaN) k)).
Qed.

Lemma fold_call_twice (a : MetricsApp) (k : cell) :
  fst (_make_chart_data_fold (snd (_make_chart_data_fold a k)) k)
  = fst (_make_chart_data_fold a k).
Proof.
  unfold _make_chart_data_fold at 2 3.
  destruct (cache_lookup k (fold_cache a)) as [v|] eqn:El; simpl.
  - unfold _make_chart_data_fold. simpl. now rewrite cell_eqb_refl.
  - destruct (make_chart_data_fold_body a k) as [v|e] eqn:Eb; simpl.
    + unfold _make_chart_data_fold. cbn [fst snd fold_cache with_fold_cache].
      now rewrite cache_lookup_insert.
    + unfold _make_chart_data_fold. now rewrite El, Eb.
Qed.

Lemma fold_call_result (a : MetricsApp) (k : cell) :
  cache_ok a ->
  fst (_make_chart_data_fold a k) = make_chart_data_fold_body a k.
Proof.
  intros [Hf _]. unfold _make_chart_data_fold.
  destruct (cache_lookup k (fold_cache a)) as [v|] eqn:El; simpl.
  - destruct (cache_lookup_In _ _ _ El) as [k' [Hin Heq]].
    rewrite <- (fold_body_congr a k' k Heq). symmetry. auto.
  - destruct (make_chart_data_fold_body a k); auto.
Qed.

(** C8: at any time in the life of a constructed object, and for any fold
    identifier, the fold view is the table of the rows of the merged data
    whose fold column equals the identifier, under a fresh index (when the
    merged data has a fold column), and asking for it again gives the same
    result. *)
Theorem fold_view_memoised (float_repr : Q -> string) (models_metrics : pyobj)
        (models_metadata : option pyobj) (show_legend auto_display : bool)
        (a0 a : MetricsApp) (fold_number : cell) :
  fst (construct float_repr models_metrics models_metadata show_legend auto_display)
  = Ok a0 ->
  lifetime a0 a ->
  (mem_str Columns.Split (columns (data a0)) = true ->
   fst (_make_chart_data_fold a fold_number)
   = Ok (fold_view_spec (data a0) fold_number)) /\
  fst (_make_chart_data_fold (snd (_make_chart_data_fold a fold_number)) fold_number)
  = fst (_make_chart_data_fold a fold_number).
Proof.
  intros Hc Hl. split; [|apply fold_call_twice].
  intro Hs. destruct (construct_caches _ _ _ _ _ _ Hc) as (_ & _ & H0).
  pose proof (lifetime_cache_ok _ _ H0 Hl) as Hok.
  destruct (lifetime_same _ _ Hl) as [Hd _].
  rewrite fold_call_result by assumption.
  rewrite fold_body_spec by (now rewrite Hd). now rewrite Hd.
Qed.

Lemma fold_view_memoised_witness :
  let a := snd (_make_chart_data_fold app_of_DF_METRICS (CInt 0)) in
  (mem_str Columns.Split (columns (data app_of_DF_METRICS)) = true ->
   fst (_make_chart_data_fold a (CInt 1))
   = Ok (fold_view_spec (data app_of_DF_METRICS) (CInt 1))) /\
  fst (_make_chart_data_fold (snd (_make_chart_data_fold a (CInt 1))) (CInt 1))
  = fst (_make_chart_data_fold a (CInt 1)).
Proof.
  intro a.
  apply (fold_view_memoised repr_example (PyFrame DF_METRICS) None true false
                            app_of_DF_METRICS a (CInt 1)).
  - vm_compute. reflexivity.
  - apply lifetime_step with (a := app_of_DF_METRICS).
    + apply lifetime_start.
    + apply step_fold.
Defined.

(** ** Positions in rows *)

Lemma set_nth_length {A : Type} (i : nat) (v : A) (l : list A) :
  length (set_nth i v l) = length l.
Proof.
  revert i. induction l as [|x xs IH]; intros [|i]; simpl; auto.
Qed.

Lemma nth_set_nth_same {A : Type} (i : nat) (v d : A) (l : list A) :
  (i < length l)%nat -> nth i (set_nth i v l) d = v.
Proof.
  revert i. induction l as [|x xs IH]; intros [|i]; simpl; intro H;
    try lia; auto. apply IH. lia.
Qed.

Lemma nth_set_nth_other {A : Type} (i j : nat) (v d : A) (l : list A) :
  i <> j -> nth j (set_nth i v l) d = nth j l d.
Proof.
  revert i j. induction l as [|x xs IH]; intros [|i] [|j]; simpl; intro H;
    try congruence; auto.
Qed.

Lemma set_nth_nth {A : Type} (i : nat) (d : A) (l : list A) :
  (i < length l)%nat -> set_nth i (nth i l d) l = l.
Proof.
  revert i. induction l as [|x xs IH]; intros [|i]; simpl; intro H;
    try lia; auto. f_equal. apply IH. lia.
Qed.

Lemma map_combine_map {A B C : Type} (F : A * B -> C) (G : A -> B) (l : list A) :
  map F (combine l (map G l)) = map (fun x => F (x, G x)) l.
Proof.
  induction l as [|x xs IH]; simpl; auto. now rewrite IH.
Qed.

Lemma range_index_In {A : Type} (l : list A) (p : cell * A) :
  In p (range_index l) -> In (snd p) l.
Proof.
  unfold range_index. destruct p as [lab x]. intro H.
  apply in_combine_r in H. exact H.
Qed.

Lemma range_index_snd {A : Type} (l : list A) : map snd (range_index l) = l.
Proof.
  unfold range_index.
  assert (H : forall (ks : list cell), length ks = length l ->
                                       map snd (combine ks l) = l).
  { induction l as [|x xs IH]; intros [|k ks]; simpl; intro H;
      try discriminate; auto. f_equal. apply IH. lia. }
  apply H. now rewrite length_map, length_seq.
Qed.

(** ** Names and their normal form *)

Lemma replace_space_no_space (s : string) : has_space (replace_space s) = false.
Proof.
  induction s as [|c r IH]; simpl; auto.
  rewrite IH. destruct (Ascii.eqb c " "%char) eqn:E; simpl; auto.
  now rewrite E.
Qed.

Lemma replace_space_fixed (s : string) :
  has_space s = false -> replace_space s = s.
Proof.
  induction s as [|c r IH]; simpl; auto.
  intro H. apply orb_false_iff in H. destruct H as [H1 H2].
  rewrite H1, IH; auto.
Qed.

Lemma replace_space_idem (s : string) :
  replace_space (replace_space s) = replace_space s.
Proof.
  apply replace_space_fixed, replace_space_no_space.
Qed.

Lemma suffix_x_not_model (c : string) :
  String.eqb (c ++ "_x") Columns.Model = false.
Proof.
  apply String.eqb_neq.
  destruct c as [|a1 [|a2 [|a3 [|a4 [|a5 [|a6 c]]]]]]; simpl; intro H;
    inversion H.
Qed.

Lemma index_of_app_l (c : string) (l r : list string) (i : nat) :
  index_of c l = Some i -> index_of c (l ++ r) = Some i.
Proof.
  revert i. induction l as [|x xs IH]; simpl; intros i H; [discriminate|].
  destruct (String.eqb x c); auto.
  destruct (index_of c xs) as [j|]; simpl in H; [|discriminate].
  now rewrite (IH j eq_refl).
Qed.

Lemma index_of_app_r (c : string) (l r : list string) :
  index_of c l = None ->
  index_of c (l ++ r) = option_map (fun j => (length l + j)%nat) (index_of c r).
Proof.
  induction l as [|x xs IH]; simpl; intro H.
  - destruct (index_of c r); reflexivity.
  - destruct (String.eqb x c); [discriminate|].
    destruct (index_of c xs); [discriminate|].
    rewrite IH by reflexivity. destruct (index_of c r); reflexivity.
Qed.

Lemma index_of_map (f : string -> string) (c : string) (l : list string) :
  (forall x, In x l -> String.eqb (f x) c = String.eqb x c) ->
  index_of c (map f l) = index_of c l.
Proof.
  induction l as [|x xs IH]; simpl; intro H; auto.
  rewrite (H x) by auto. rewrite IH by auto. reflexivity.
Qed.

(** ** The table the names validator leaves behind *)

Lemma names_validator_table (float_repr : Q -> string) (df : DataFrame) :
  snd (_validate_models_metrics_names float_repr df) = normalized_table float_repr df.
Proof.
  unfold _validate_models_metrics_names, normalized_table, get_column, set_column.
  destruct (index_of Columns.Model (columns df)) as [i|] eqn:Ei.
  - assert (E : forall (s : Series),
               s = series_map str_replace
                     (astype_str float_repr
                        (map (fun r => (fst r, cell_at i r)) (rows df))) ->
               mkDF (columns df)
                    (map (fun rv => (fst (fst rv), set_nth i (snd (snd rv)) (snd (fst rv))))
                         (combine (rows df) s))
               = mkDF (columns df)
                      (map (fun r => (fst r,
                                      set_nth i (CStr (normalized_name float_repr (cell_at i r)))
                                              (snd r)))
                           (rows df))).
    { intros s ->. f_equal. unfold series_map, astype_str, series_map.
      rewrite !map_map. simpl.
      rewrite (map_combine_map
                 (fun rv => (fst (fst rv), set_nth i (snd (snd rv)) (snd (fst rv))))).
      reflexivity. }
    destruct (mem_str Columns.Split (columns df)); cbn [snd]; now apply E.
  - destruct (mem_str Columns.Split (columns df)); reflexivity.
Qed.

Lemma normalized_table_columns (float_repr : Q -> string) (df : DataFrame) :
  columns (normalized_table float_repr df) = columns df.
Proof.
  unfold normalized_table. destruct (index_of Columns.Model (columns df)); reflexivity.
Qed.

Lemma normalized_table_wf (float_repr : Q -> string) (df : DataFrame) :
  wf_frame df -> wf_frame (normalized_table float_repr df).
Proof.
  unfold normalized_table, wf_frame.
  destruct (index_of Columns.Model (columns df)) as [i|]; auto.
  simpl. intro H. apply Forall_map. simpl.
  eapply Forall_impl; [|exact H]. simpl. intros r Hr. now rewrite set_nth_length.
Qed.

Lemma normalized_table_model (float_repr : Q -> string) (df : DataFrame) (i : nat)
      (r : cell * list cell) :
  wf_frame df ->
  index_of Columns.Model (columns df) = Some i ->
  In r (rows (normalized_table float_repr df)) ->
  exists r0, In r0 (rows df) /\ fst r = fst r0 /\
             snd r = set_nth i (CStr (normalized_name float_repr (cell_at i r0))) (snd r0) /\
             cell_at i r = CStr (normalized_name float_repr (cell_at i r0)).
Proof.
  intros Hwf Hi. unfold normalized_table. rewrite Hi. simpl.
  intro H. apply in_map_iff in H. destruct H as [r0 [<- Hin]].
  exists r0. repeat split; auto.
  unfold cell_at at 1. simpl. apply nth_set_nth_same.
  unfold wf_frame in Hwf. rewrite Forall_forall in Hwf. rewrite (Hwf r0 Hin).
  now apply index_of_lt in Hi.
Qed.

(** ** The left join *)

Lemma promoted_cell (right : DataFrame) (j p : nat) (r : cell * list cell) :
  nth p (map (fun pc => if int_column right (fst pc) && negb (fst pc =? j)%nat
                        then int_to_float (snd pc) else snd pc)
             (combine (seq 0 (length (snd r))) (snd r))) CNaN
  = if int_column right p && negb (p =? j)%nat
    then int_to_float (cell_at p r) else cell_at p r.
Proof.
  unfold cell_at. generalize (snd r) as l. intro l.
  assert (G : forall s q,
             nth q (map (fun pc => if int_column right (fst pc) && negb (fst pc =? j)%nat
                                   then int_to_float (snd pc) else snd pc)
                        (combine (seq s (length l)) l)) CNaN
             = if int_column right (s + q) && negb (s + q =? j)%nat
               then int_to_float (nth q l CNaN) else nth q l CNaN).
  { induction l as [|x xs IH]; intros s q.
    - destruct q; cbn [length seq combine map nth]; destruct (_ && _); reflexivity.
    - destruct q as [|q]; cbn [length seq combine map nth fst snd].
      + now rewrite Nat.add_0_r.
      + rewrite IH. now replace (S s + q)%nat with (s + S q)%nat by lia. }
  apply (G 0%nat p).
Qed.

Lemma merge_right_columns (left right : DataFrame) (i j : nat) :
  columns (merge_right left right i j) = columns right.
Proof.
  unfold merge_right. destruct (all_matched left right i j); reflexivity.
Qed.

(** The rows of the table a join takes its cells from are those of the
    right-hand table, one for one, with the same label, the same key and as
    many cells; the cells of an integer column are floats when some row of
    the left-hand table finds no match. *)
Lemma merge_right_rows (left right : DataFrame) (i j : nat) :
  exists f : cell * list cell -> cell * list cell,
    rows (merge_right left right i j) = map f (rows right) /\
    forall r, fst (f r) = fst r /\ cell_at j (f r) = cell_at j r /\
              length (snd (f r)) = length (snd r) /\
              forall p, cell_at p (f r)
                        = if negb (all_matched left right i j)
                             && (int_column right p && negb (p =? j)%nat)
                          then int_to_float (cell_at p r) else cell_at p r.
Proof.
  unfold merge_right. destruct (all_matched left right i j).
  - exists (fun r => r). split; [now rewrite map_id|]. intro r. repeat split; auto.
  - eexists. split; [reflexivity|]. intro r. cbn [fst snd negb andb]. repeat split.
    + unfold cell_at at 1. cbn [snd]. rewrite promoted_cell.
      rewrite Nat.eqb_refl. cbn [negb]. now rewrite andb_false_r.
    + now rewrite length_map, length_combine, length_seq, Nat.min_id.
    + intro p. unfold cell_at at 1. cbn [snd]. now rewrite promoted_cell.
Qed.

Lemma merge_right_keys (left right : DataFrame) (i j : nat) :
  map (cell_at j) (rows (merge_right left right i j)) = map (cell_at j) (rows right).
Proof.
  destruct (merge_right_rows left right i j) as (f & -> & Hf).
  rewrite map_map. apply map_ext. intro r. apply Hf.
Qed.

Lemma merge_left_ok (left right : DataFrame) (i j : nat) (merged : DataFrame) :
  index_of Columns.Model (columns left) = Some i ->
  index_of Columns.Model (columns right) = Some j ->
  merge_left left right Columns.Model = Ok merged ->
  merge_keys_clash (map (cell_at i) (rows left)) (map (cell_at j) (rows right)) = false /\
  merged
  = mkDF (map (fun c => if negb (String.eqb c Columns.Model)
                           && mem_str c (remove_nth j (columns right))
                        then (c ++ "_x")%string else c) (columns left)
          ++ map (fun c => if negb (String.eqb c Columns.Model)
                              && mem_str c (columns left)
                           then (c ++ "_y")%string else c)
                 (remove_nth j (columns right)))
         (range_index
            (flat_map (fun l => map (fun e => snd l ++ e)
                                    (merge_extra (merge_right left right i j) j
                                                 (cell_at i l)))
                      (rows left))).
Proof.
  intros Hi Hj. unfold merge_left. rewrite Hi, Hj.
  destruct (merge_keys_clash _ _); [discriminate|]. intro H. split; auto.
  inversion H; subst; clear H. f_equal. f_equal.
  apply flat_map_ext. intro l. unfold merge_extra.
  rewrite merge_right_columns.
  destruct (filter (fun r => cell_eqb (cell_at j r) (cell_at i l))
                   (rows (merge_right left right i j)));
    cbn [map]; auto.
  f_equal. now rewrite map_map.
Qed.

Lemma merge_left_columns (left right : DataFrame) (i j : nat) (merged : DataFrame) :
  index_of Columns.Model (columns left) = Some i ->
  index_of Columns.Model (columns right) = Some j ->
  merge_left left right Columns.Model = Ok merged ->
  rows merged
  = range_index
      (flat_map (fun l => map (fun e => snd l ++ e)
                              (merge_extra (merge_right left right i j) j (cell_at i l)))
                (rows left)) /\
  index_of Columns.Model (columns merged) = Some i.
Proof.
  intros Hi Hj H. destruct (merge_left_ok _ _ _ _ _ Hi Hj H) as [_ ->].
  cbn [rows columns]. split.
  - reflexivity.
  - apply index_of_app_l. rewrite index_of_map; auto.
    intros x _. destruct (String.eqb x Columns.Model) eqn:E; cbn [negb andb]; auto.
    destruct (mem_str x (remove_nth j (columns right))); auto.
    apply suffix_x_not_model.
Qed.

Lemma merged_row_origin (left right : DataFrame) (i j : nat) (merged : DataFrame)
      (r : cell * list cell) :
  index_of Columns.Model (columns left) = Some i ->
  index_of Columns.Model (columns right) = Some j ->
  merge_left left right Columns.Model = Ok merged ->
  In r (rows merged) ->
  exists l e, In l (rows left) /\
              In e (merge_extra (merge_right left right i j) j (cell_at i l)) /\
              snd r = snd l ++ e.
Proof.
  intros Hi Hj Hm Hin.
  destruct (merge_left_columns _ _ _ _ _ Hi Hj Hm) as [Hr _].
  rewrite Hr in Hin. apply range_index_In in Hin.
  apply in_flat_map in Hin. destruct Hin as [l [Hl He]].
  apply in_map_iff in He. destruct He as [e [<- He]]. eauto.
Qed.

Lemma dtype_of_strings (l : list cell) :
  (forall c, In c l -> exists s, c = CStr s) -> dtype_of l = DObject.
Proof.
  destruct l as [|x xs]; auto. intro H.
  destruct (H x (or_introl eq_refl)) as [s ->]. reflexivity.
Qed.

(** String keys go with string keys. *)
Lemma strings_no_clash (lk rk : list cell) :
  (forall c, In c lk -> exists s, c = CStr s) ->
  (forall c, In c rk -> exists s, c = CStr s) ->
  merge_keys_clash lk rk = false.
Proof.
  intros Hl Hr. unfold merge_keys_clash.
  destruct lk as [|x xs]; auto. destruct rk as [|y ys]; auto.
  now rewrite (dtype_of_strings (x :: xs)), (dtype_of_strings (y :: ys)).
Qed.

Lemma all_matched_keys (left right : DataFrame) (i j : nat) :
  (forall l, In l (rows left) ->
             exists r, In r (rows right) /\ cell_eqb (cell_at j r) (cell_at i l) = true) ->
  merge_right left right i j = right.
Proof.
  intro H. unfold merge_right.
  assert (E : all_matched left right i j = true).
  { unfold all_matched. apply forallb_forall. intros l Hl.
    apply existsb_exists. destruct (H l Hl) as (r & Hr & Hk). eauto. }
  now rewrite E.
Qed.

(** ** The data of a constructed object *)

Lemma set_column_same (df : DataFrame) (c : string) (i : nat) (f : cell -> cell) :
  index_of c (columns df) = Some i ->
  (forall r, In r (rows df) ->
             (i < length (snd r))%nat /\ f (cell_at i r) = cell_at i r) ->
  set_column df c (series_map f (map (fun r => (fst r, cell_at i r)) (rows df))) = df.
Proof.
  intros Hi H. unfold set_column. rewrite Hi. destruct df as [cols rs].
  cbn [columns rows] in *. f_equal. unfold series_map. rewrite map_map.
  rewrite (map_combine_map
             (fun rv => (fst (fst rv), set_nth i (snd (snd rv)) (snd (fst rv))))).
  cbn [fst snd]. rewrite <- (map_id rs) at 2. apply map_ext_in.
  intros r Hr. destruct (H r Hr) as [Hlt Hf]. rewrite Hf.
  unfold cell_at. rewrite set_nth_nth by assumption. now destruct r.
Qed.

Lemma validate_metadata_ok (metadata : DataFrame) :
  _validate_models_metadata (PyFrame metadata) = Ok tt ->
  exists j, index_of Columns.Model (columns metadata) = Some j /\
            Distinct cell_eqb (map (cell_at j) (rows metadata)) /\
            ~ In CNaN (map (cell_at j) (rows metadata)).
Proof.
  unfold _validate_models_metadata, get_column.
  destruct (mem_str Columns.Model (columns metadata)) eqn:Em; [|discriminate].
  destruct (index_of_Some _ _ Em) as [j Hj]. rewrite Hj. cbn [negb bind].
  set (s := map (fun r => (fst r, cell_at j r)) (rows metadata)).
  assert (Hv : values s = map (cell_at j) (rows metadata)).
  { unfold s, values. now rewrite map_map. }
  assert (Hl : length s = length (rows metadata)).
  { unfold s. now rewrite length_map. }
  rewrite <- Hl.
  destruct (Nat.eqb_spec (nunique s) (length s)) as [E|E]; [|discriminate].
  intros _. exists j. split; auto. rewrite <- Hv. now apply nunique_full.
Qed.

Lemma validate_base_ok (df : DataFrame) :
  _validate_models_metrics_base (PyFrame df) = Ok tt ->
  mem_str Columns.Model (columns df) = true /\ frame_has_null df = false.
Proof.
  unfold _validate_models_metrics_base.
  destruct (mem_str Columns.Model (columns df)); [|discriminate]. cbn [negb].
  destruct (length (filter is_metric_column (columns df)) <? 1)%nat; [discriminate|].
  destruct (frame_has_null df); [discriminate|]. auto.
Qed.

Lemma construct_data (float_repr : Q -> string) (df : DataFrame)
      (md : option pyobj) (sl ad : bool) (a0 : MetricsApp) :
  wf_frame df ->
  fst (construct float_repr (PyFrame df) md sl ad) = Ok a0 ->
  exists i metadata j,
    index_of Columns.Model (columns df) = Some i /\
    index_of Columns.Model (columns metadata) = Some j /\
    Distinct cell_eqb (map (cell_at j) (rows metadata)) /\
    ~ In CNaN (map (cell_at j) (rows metadata)) /\
    merge_left (normalized_table float_repr df) metadata Columns.Model = Ok (data a0) /\
    metric_names a0 = filter is_metric_column (columns df) /\
    meta_names a0
    = filter (fun col => negb (String.eqb col Columns.Model)) (columns metadata) /\
    frame_has_null df = false.
Proof.
  intros Hwf Hc. apply construct_inv in Hc.
  destruct Hc as (df0 & df' & metadata & merged & m & ac & E0 & Hb & _ & Hn & _ & Hv
                  & Hm & Hg & ->).
  inversion E0; subst df0; clear E0.
  destruct (validate_base_ok _ Hb) as [Hmem Hnull].
  destruct (index_of_Some _ _ Hmem) as [i Hi].
  destruct (validate_metadata_ok _ Hv) as (j & Hj & Hd & Hnan).
  assert (Edf' : df' = normalized_table float_repr df).
  { rewrite <- names_validator_table. now rewrite Hn. }
  subst df'.
  assert (Hi' : index_of Columns.Model (columns (normalized_table float_repr df)) = Some i).
  { now rewrite normalized_table_columns. }
  destruct (merge_left_columns _ _ _ _ _ Hi' Hj Hm) as [Hrows Hidx].
  exists i, metadata, j. cbn [data metric_names meta_names].
  repeat (split; [assumption|]).
  split; [|split; [now rewrite normalized_table_columns| split; auto]].
  rewrite Hm. f_equal.
  assert (Em : m = map (fun r => (fst r, cell_at i r)) (rows merged)).
  { unfold get_column in Hg. rewrite Hidx in Hg. now inversion Hg. }
  rewrite Em. symmetry. apply set_column_same; auto.
  intros r Hr.
  destruct (merged_row_origin _ _ _ _ _ _ Hi' Hj Hm Hr) as (l & e & Hl & _ & Hs).
  destruct (normalized_table_model _ _ _ _ Hwf Hi Hl) as (r0 & Hr0 & _ & Hset & Hcell).
  pose proof (normalized_table_wf float_repr _ Hwf) as Hwf'.
  unfold wf_frame in Hwf'. rewrite Forall_forall in Hwf'.
  pose proof (Hwf' l Hl) as Hlen. rewrite normalized_table_columns in Hlen.
  pose proof (index_of_lt _ _ _ Hi) as [Hlt _].
  assert (Hc : cell_at i r = cell_at i l).
  { unfold cell_at. rewrite Hs. apply app_nth1. lia. }
  split.
  - rewrite Hs, length_app. lia.
  - rewrite Hc, Hcell. unfold str_replace, normalized_name.
    now rewrite replace_space_idem.
Qed.

(** Every model cell of the data of a constructed object is the normal form
    of a model name of the metrics table. *)
Lemma construct_model_cells (float_repr : Q -> string) (df : DataFrame)
      (md : option pyobj) (sl ad : bool) (a0 : MetricsApp) (c : cell) :
  wf_frame df ->
  fst (construct float_repr (PyFrame df) md sl ad) = Ok a0 ->
  In c (column_values (data a0) Columns.Model) ->
  exists c0, In c0 (column_values df Columns.Model) /\
             c = CStr (normalized_name float_repr c0).
Proof.
  intros Hwf Hc Hin.
  destruct (construct_data _ _ _ _ _ _ Hwf Hc)
    as (i & metadata & j & Hi & Hj & _ & _ & Hm & _).
  assert (Hi' : index_of Columns.Model (columns (normalized_table float_repr df)) = Some i).
  { now rewrite normalized_table_columns. }
  destruct (merge_left_columns _ _ _ _ _ Hi' Hj Hm) as [_ Hidx].
  unfold column_values in Hin. rewrite Hidx in Hin.
  apply in_map_iff in Hin. destruct Hin as [r [<- Hr]].
  destruct (merged_row_origin _ _ _ _ _ _ Hi' Hj Hm Hr) as (l & e & Hl & _ & Hs).
  destruct (normalized_table_model _ _ _ _ Hwf Hi Hl) as (r0 & Hr0 & _ & _ & Hcell).
  pose proof (normalized_table_wf float_repr _ Hwf) as Hwf'.
  unfold wf_frame in Hwf'. rewrite Forall_forall in Hwf'.
  pose proof (Hwf' l Hl) as Hlen. rewrite normalized_table_columns in Hlen.
  pose proof (index_of_lt _ _ _ Hi) as [Hlt _].
  exists (cell_at i r0). split.
  - unfold column_values. rewrite Hi. now apply in_map.
  - rewrite <- Hcell. unfold cell_at. rewrite Hs. apply app_nth1. lia.
Qed.

(** ** Sorting names *)

Lemma py_insert_strings (s : string) (l : list cell) :
  (forall c, In c l -> exists t, c = CStr t) ->
  exists l', py_insert (CStr s) l = Ok l' /\
             forall c, In c l' <-> c = CStr s \/ In c l.
Proof.
  induction l as [|y ys IH]; intro H.
  - exists [CStr s]. split; auto. simpl. intuition congruence.
  - destruct (H y (or_introl eq_refl)) as [t ->]. simpl.
    destruct (String.ltb t s).
    + destruct IH as [l' [E Hl']]; [intros; apply H; now right|].
      rewrite E. simpl. exists (CStr t :: l'). split; auto.
      intro c. simpl. rewrite Hl'. intuition congruence.
    + exists (CStr s :: CStr t :: ys). split; auto. simpl. intuition congruence.
Qed.

Lemma sorted_strings (l : list cell) :
  (forall c, In c l -> exists t, c = CStr t) ->
  exists l', sorted l = Ok l' /\ forall c, In c l' <-> In c l.
Proof.
  induction l as [|x xs IH]; intro H.
  - exists []. split; auto. tauto.
  - destruct IH as [l1 [E1 H1]]; [intros; apply H; now right|].
    destruct (H x (or_introl eq_refl)) as [s ->].
    destruct (py_insert_strings s l1) as [l2 [E2 H2]].
    { intros c Hc. apply H. right. now apply H1. }
    simpl. rewrite E1. simpl. rewrite E2. exists l2. split; auto.
    intro c. rewrite H2, H1. simpl. intuition congruence.
Qed.

(** ** Model names of a constructed object *)

(** C10: when [construct] succeeds on a (rectangular) metrics table, then at
    any time in the life of the object its data are the data it was
    constructed with, every cell of their model column is a string without
    a space, and [model_names] returns strings without a space, each the
    normal form (the text of the name with spaces replaced by underscores)
    of a model name of the metrics table. *)
Theorem model_names_normalized (float_repr : Q -> string) (df : DataFrame)
        (models_metadata : option pyobj) (show_legend auto_display : bool)
        (a0 a : MetricsApp) :
  wf_frame df ->
  fst (construct float_repr (PyFrame df) models_metadata show_legend auto_display)
  = Ok a0 ->
  lifetime a0 a ->
  data a = data a0 /\
  (forall c, In c (column_values (data a) Columns.Model) ->
             exists s, c = CStr s /\ has_space s = false) /\
  exists names,
    model_names a = Ok names /\
    forall n, In n names ->
              exists c0, In c0 (column_values df Columns.Model) /\
                         n = CStr (normalized_name float_repr c0) /\
                         has_space (normalized_name float_repr c0) = false.
Proof.
  intros Hwf Hc Hl.
  destruct (lifetime_same _ _ Hl) as [Hd _].
  assert (Hcells : forall c, In c (column_values (data a) Columns.Model) ->
                             exists c0, In c0 (column_values df Columns.Model) /\
                                        c = CStr (normalized_name float_repr c0)).
  { intros c Hin. rewrite Hd in Hin. eapply construct_model_cells; eauto. }
  split; [assumption|]. split.
  - intros c Hin. destruct (Hcells c Hin) as (c0 & _ & ->).
    eexists. split; [reflexivity|]. apply replace_space_no_space.
  - destruct (construct_data _ _ _ _ _ _ Hwf Hc)
      as (i & metadata & j & Hi & Hj & _ & _ & Hm & _).
    assert (Hi' : index_of Columns.Model (columns (normalized_table float_repr df))
                  = Some i) by now rewrite normalized_table_columns.
    destruct (merge_left_columns _ _ _ _ _ Hi' Hj Hm) as [_ Hidx].
    unfold model_names, get_column. rewrite Hd, Hidx. cbn [bind].
    set (m := map (fun r => (fst r, cell_at i r)) (rows (data a0))).
    assert (Hv : forall c, In c (unique m) -> In c (column_values (data a) Columns.Model)).
    { intros c Hin. apply dedup_In in Hin. unfold column_values.
      rewrite Hd, Hidx. unfold m, values in Hin. now rewrite map_map in Hin. }
    destruct (sorted_strings (unique m)) as [names [Es Hn]].
    { intros c Hin. destruct (Hcells c (Hv c Hin)) as (c0 & _ & ->). eauto. }
    exists names. split; auto.
    intros n Hin. apply Hn in Hin. destruct (Hcells n (Hv n Hin)) as (c0 & H0 & ->).
    exists c0. repeat split; auto. apply replace_space_no_space.
Qed.

Lemma model_names_normalized_witness :
  let a0 :=
    mkApp (frame_of ["model"; "prec@10"]
             [ [CStr "my_model"; CFloat (1#2)]; [CStr "other"; CFloat (1#4)] ])
          ["prec@10"] [] true false [] None in
  let df :=
    frame_of ["model"; "prec@10"]
      [ [CStr "my model"; CFloat (1#2)]; [CStr "other"; CFloat (1#4)] ] in
  model_names a0 = Ok [CStr "my_model"; CStr "other"] /\
  data a0 = data a0 /\
  (forall c, In c (column_values (data a0) Columns.Model) ->
             exists s, c = CStr s /\ has_space s = false) /\
  exists names,
    model_names a0 = Ok names /\
    forall n, In n names ->
              exists c0, In c0 (column_values df Columns.Model) /\
                         n = CStr (normalized_name repr_example c0) /\
                         has_space (normalized_name repr_example c0) = false.
Proof.
  intros a0 df. split; [reflexivity|].
  apply (model_names_normalized repr_example df None true false a0 a0).
  - unfold wf_frame. repeat constructor.
  - vm_compute. reflexivity.
  - apply lifetime_start.
Defined.

(** ** The uniqueness validator *)

Lemma Distinct_strings (l : list string) :
  Distinct cell_eqb (map CStr l) <-> NoDup l.
Proof.
  induction l as [|x xs IH]; simpl.
  - split; constructor.
  - split; intro H; inversion H; subst; constructor.
    + intro Hin. match goal with Hx : forall y, _ -> _ = false |- _ =>
        specialize (Hx (CStr x) (in_map CStr xs x Hin)) end.
      simpl in *. rewrite String.eqb_refl in *. discriminate.
    + now apply IH.
    + intros y Hy. apply in_map_iff in Hy. destruct Hy as [t [<- Ht]].
      simpl. apply String.eqb_neq. intros ->. contradiction.
    + now apply IH.
Qed.

Lemma nunique_strings (s : Series) (l : list string) :
  values s = map CStr l ->
  (nunique s =? length s)%nat = true <-> NoDup l.
Proof.
  intro H. rewrite Nat.eqb_eq, nunique_full, H, Distinct_strings.
  split; [tauto|]. intro Hn. split; auto.
  intro Hin. apply in_map_iff in Hin. destruct Hin as [t [Ht _]]. discriminate.
Qed.

Lemma series_add_strings {R : Type} (lab : R -> cell) (A B : R -> string) (l : list R) :
  series_add (map (fun r => (lab r, CStr (A r))) l)
             (map (fun r => (lab r, CStr (B r))) l)
  = Ok (map (fun r => (lab r, CStr (A r ++ B r)%string)) l).
Proof.
  unfold series_add. induction l as [|x xs IH]; simpl; auto.
  now rewrite IH.
Qed.

Lemma cell_at_normalized (float_repr : Q -> string) (i j : nat) (r : cell * list cell) :
  i <> j ->
  cell_at j (fst r, set_nth i (CStr (normalized_name float_repr (cell_at i r))) (snd r))
  = cell_at j r.
Proof.
  intro H. unfold cell_at. simpl. now apply nth_set_nth_other.
Qed.

Lemma cell_at_normalized_same (float_repr : Q -> string) (i : nat) (r : cell * list cell) :
  (i < length (snd r))%nat ->
  cell_at i (fst r, set_nth i (CStr (normalized_name float_repr (cell_at i r))) (snd r))
  = CStr (normalized_name float_repr (cell_at i r)).
Proof.
  intro H. unfold cell_at. simpl. now apply nth_set_nth_same.
Qed.

(** What the validator compares when there is no fold column. *)
Lemma names_validator_no_fold (float_repr : Q -> string) (df : DataFrame) :
  wf_frame df ->
  mem_str Columns.Model (columns df) = true ->
  mem_str Columns.Split (columns df) = false ->
  fst (_validate_models_metrics_names float_repr df)
  = if (nunique (map (fun r => (fst r, CStr (normalized_name float_repr
                                               (cell_of df Columns.Model r))))
                     (rows df)) =? length (rows df))%nat
    then Ok tt
    else Raise (ValueError "Each `Model` value in the `metrics_data` DataFrame must be unique").
Proof.
  intros Hwf Hm Hs. unfold _validate_models_metrics_names. rewrite Hs.
  destruct (index_of_Some _ _ Hm) as [i Hi].
  pose proof (names_validator_table float_repr df) as Ht.
  unfold _validate_models_metrics_names in Ht. rewrite Hs in Ht.
  unfold get_column at 1. unfold get_column at 1 in Ht. rewrite Hi in *.
  cbn [snd fst] in *. rewrite Ht. unfold normalized_table, get_column. rewrite Hi.
  cbn [columns rows bind]. rewrite Hi. cbn [bind]. rewrite !map_map. cbn [fst].
  assert (E : map (fun x : cell * list cell =>
                     (fst x, cell_at i (fst x, set_nth i (CStr (normalized_name float_repr
                                                                   (cell_at i x))) (snd x))))
                  (rows df)
              = map (fun r => (fst r, CStr (normalized_name float_repr
                                              (cell_of df Columns.Model r))))
                    (rows df)).
  { apply map_ext_in. intros r Hr. f_equal. unfold cell_of. rewrite Hi.
    apply cell_at_normalized_same.
    unfold wf_frame in Hwf. rewrite Forall_forall in Hwf. rewrite (Hwf r Hr).
    now apply index_of_lt in Hi. }
  rewrite E, !length_map.
  destruct (nunique _ =? length (rows df))%nat; reflexivity.
Qed.

(** What the validator compares when there is a fold column. *)
Lemma names_validator_fold (float_repr : Q -> string) (df : DataFrame) :
  wf_frame df ->
  mem_str Columns.Model (columns df) = true ->
  mem_str Columns.Split (columns df) = true ->
  fst (_validate_models_metrics_names float_repr df)
  = if (nunique (map (fun r => (fst r,
                                CStr (normalized_name float_repr (cell_of df Columns.Model r)
                                      ++ py_str float_repr (cell_of df Columns.Split r))%string))
                     (rows df)) =? length (rows df))%nat
    then Ok tt
    else Raise (ValueError "Each `Model` value in the `metrics_data` DataFrame must be unique").
Proof.
  intros Hwf Hm Hs. unfold _validate_models_metrics_names. rewrite Hs.
  destruct (index_of_Some _ _ Hm) as [i Hi].
  destruct (index_of_Some _ _ Hs) as [j Hj].
  assert (Hij : i <> j).
  { intros ->. pose proof (index_of_inj _ _ _ _ Hi Hj). discriminate. }
  pose proof (names_validator_table float_repr df) as Ht.
  unfold _validate_models_metrics_names in Ht. rewrite Hs in Ht.
  unfold get_column at 1. unfold get_column at 1 in Ht. rewrite Hi in *.
  cbn [snd fst] in *. rewrite Ht. unfold normalized_table, get_column. rewrite Hi.
  cbn [columns rows bind]. rewrite Hi, Hj. cbn [bind].
  unfold astype_str, series_map. rewrite !map_map. cbn [fst snd].
  assert (E1 : map (fun x : cell * list cell =>
                      (fst x, cell_at i (fst x, set_nth i (CStr (normalized_name float_repr
                                                                    (cell_at i x))) (snd x))))
                   (rows df)
               = map (fun r => (fst r, CStr (normalized_name float_repr
                                               (cell_of df Columns.Model r))))
                     (rows df)).
  { apply map_ext_in. intros r Hr. f_equal. unfold cell_of. rewrite Hi.
    apply cell_at_normalized_same.
    unfold wf_frame in Hwf. rewrite Forall_forall in Hwf. rewrite (Hwf r Hr).
    now apply index_of_lt in Hi. }
  assert (E2 : map (fun x : cell * list cell =>
                      (fst x, CStr (py_str float_repr
                                      (cell_at j (fst x, set_nth i (CStr (normalized_name float_repr
                                                                            (cell_at i x))) (snd x))))))
                   (rows df)
               = map (fun r => (fst r, CStr (py_str float_repr (cell_of df Columns.Split r))))
                     (rows df)).
  { apply map_ext. intro r. unfold cell_of. rewrite Hj.
    now rewrite cell_at_normalized. }
  rewrite E1, E2, series_add_strings. cbn [bind]. rewrite !length_map.
  destruct (nunique _ =? length (rows df))%nat; reflexivity.
Qed.

(** C3, as the code has it: on a (rectangular) table with a model column,
    identifiers are compared with the model name in normal form. Without a
    fold column the validator raises a [ValueError] exactly when two rows
    have the same normalised model name, and returns normally otherwise;
    with a fold column it raises a [ValueError] whenever two rows have the
    same normalised model name and the same fold. *)
Theorem names_validator_normalized (float_repr : Q -> string) (df : DataFrame) :
  wf_frame df ->
  mem_str Columns.Model (columns df) = true ->
  (mem_str Columns.Split (columns df) = false ->
   (is_value_error (fst (_validate_models_metrics_names float_repr df)) = true <->
    ~ NoDup (map (normalized_name float_repr) (column_values df Columns.Model))) /\
   (fst (_validate_models_metrics_names float_repr df) = Ok tt <->
    NoDup (map (normalized_name float_repr) (column_values df Columns.Model)))) /\
  (mem_str Columns.Split (columns df) = true ->
   ~ NoDup (map (normalized_identifier float_repr df) (rows df)) ->
   is_value_error (fst (_validate_models_metrics_names float_repr df)) = true).
Proof.
  intros Hwf Hm. split; intro Hs.
  - rewrite names_validator_no_fold by assumption.
    set (s := map _ (rows df)).
    assert (Hv : values s
                 = map CStr (map (normalized_name float_repr)
                                 (column_values df Columns.Model))).
    { unfold s, values, column_values, cell_of.
      destruct (index_of_Some _ _ Hm) as [i ->]. now rewrite !map_map. }
    assert (Hl : length (rows df) = length s) by (unfold s; now rewrite length_map).
    rewrite Hl. pose proof (nunique_strings s _ Hv) as Hn.
    destruct (nunique s =? length s)%nat; simpl.
    + split; split; auto; try discriminate.
      * intro H. exfalso. apply H. now apply Hn.
      * intros _. now apply Hn.
    + split; split; auto; try discriminate.
      * intros _ H. apply Hn in H. discriminate.
      * intro H. apply Hn in H. discriminate.
  - intro Hdup. rewrite names_validator_fold by assumption.
    set (s := map _ (rows df)).
    pose (f := fun p : string * cell => (fst p ++ py_str float_repr (snd p))%string).
    assert (Hv : values s
                 = map CStr (map f (map (normalized_identifier float_repr df) (rows df)))).
    { unfold s, values, f, normalized_identifier. now rewrite !map_map. }
    assert (Hl : length (rows df) = length s) by (unfold s; now rewrite length_map).
    rewrite Hl. pose proof (nunique_strings s _ Hv) as Hn.
    destruct (nunique s =? length s)%nat; simpl; auto.
    exfalso. apply Hdup. eapply NoDup_map_inv. now apply Hn.
Qed.

Lemma names_validator_normalized_witness :
  ((mem_str Columns.Split (columns metrics_near_names) = false ->
    (is_value_error (fst (_validate_models_metrics_names repr_example metrics_near_names))
     = true <->
     ~ NoDup (map (normalized_name repr_example)
                  (column_values metrics_near_names Columns.Model))) /\
    (fst (_validate_models_metrics_names repr_example metrics_near_names) = Ok tt <->
     NoDup (map (normalized_name repr_example)
                (column_values metrics_near_names Columns.Model)))) /\
   (mem_str Columns.Split (columns metrics_near_names) = true ->
    ~ NoDup (map (normalized_identifier repr_example metrics_near_names)
                 (rows metrics_near_names)) ->
    is_value_error (fst (_validate_models_metrics_names repr_example metrics_near_names))
    = true)) /\
  is_value_error (fst (_validate_models_metrics_names repr_example metrics_near_names_fold))
  = true.
Proof.
  split.
  - apply (names_validator_normalized repr_example metrics_near_names).
    + unfold wf_frame. repeat constructor.
    + reflexivity.
  - apply (names_validator_normalized repr_example metrics_near_names_fold).
    + unfold wf_frame. repeat constructor.
    + reflexivity.
    + reflexivity.
    + vm_compute. intro H. inversion H as [|x l Hx Hl]; subst. apply Hx. now left.
Defined.

(** With a fold column the validator compares the name and the fold put end
    to end: the table below passes the split validator and has four distinct
    (normalised name, fold) pairs, and the validator raises. *)
Lemma names_validator_concatenation :
  _validate_models_metrics_split repr_example metrics_concatenated = Ok tt /\
  NoDup (map (normalized_identifier repr_example metrics_concatenated)
             (rows metrics_concatenated)) /\
  is_value_error (fst (_validate_models_metrics_names repr_example metrics_concatenated))
  = true.
Proof.
  split; [reflexivity|]. split; [|reflexivity].
  vm_compute. repeat (constructor; [simpl; intuition discriminate|]). constructor.
Qed.

(** C3, as it is worded, fails: in a table without a fold column the models
    ["my model"] and ["my_model"] occur once each, and the validator raises
    a [ValueError]. *)
Lemma names_validator_counterexample :
  ~ raises_iff_identifiers_repeat repr_example metrics_near_names.
Proof.
  unfold raises_iff_identifiers_repeat. intros [H _].
  apply H; [reflexivity|].
  apply distinctb_Distinct. reflexivity.
Qed.

(** ** The split validator *)

Lemma insert_sorted_In {A : Type} (leb : A -> A -> bool) (x y : A) (l : list A) :
  In y (insert_sorted leb x l) <-> y = x \/ In y l.
Proof.
  induction l as [|z zs IH]; simpl.
  - intuition congruence.
  - destruct (leb x z); simpl; [intuition congruence|].
    rewrite IH. intuition congruence.
Qed.

Lemma sort_by_In {A : Type} (leb : A -> A -> bool) (y : A) (l : list A) :
  In y (sort_by leb l) <-> In y l.
Proof.
  induction l as [|x xs IH]; simpl; [tauto|].
  rewrite insert_sorted_In, IH. intuition congruence.
Qed.

Lemma dedup_complete (l : list cell) (x : cell) :
  In x l -> exists y, In y (dedup cell_eqb l) /\ cell_eqb y x = true.
Proof.
  induction l as [|a l' IH]; simpl; [tauto|].
  intros [->|H].
  - exists x. auto using cell_eqb_refl.
  - destruct (IH H) as [y [Hy Hyx]].
    destruct (cell_eqb a y) eqn:E.
    + exists a. split; auto. eapply cell_eqb_trans; eassumption.
    + exists y. split; auto. right. apply filter_In. now rewrite E.
Qed.

Lemma group_keys_In (sort : bool) (l : list cell) (k : cell) :
  In k (group_keys sort l) -> In k l /\ isnull k = false.
Proof.
  unfold group_keys. intro H.
  assert (H' : In k (dedup cell_eqb (filter (fun v => negb (isnull v)) l))).
  { destruct sort; auto. now apply sort_by_In in H. }
  apply dedup_In, filter_In in H'. destruct H' as [H1 H2].
  split; auto. now apply negb_true_iff.
Qed.

Lemma group_keys_complete (sort : bool) (l : list cell) (m : cell) :
  In m l -> isnull m = false ->
  exists k, In k (group_keys sort l) /\ cell_eqb k m = true.
Proof.
  intros H Hn.
  destruct (dedup_complete (filter (fun v => negb (isnull v)) l) m) as [k [Hk Hkm]].
  { apply filter_In. now rewrite Hn. }
  exists k. split; auto. unfold group_keys. destruct sort; auto.
  now apply sort_by_In.
Qed.

Lemma py_eq_notnull (x y : cell) : isnull x = false -> py_eq x y = cell_eqb x y.
Proof.
  intro H. unfold py_eq. now rewrite H.
Qed.

Lemma notnull_In (l : list cell) (x : cell) : ~ In CNaN l -> In x l -> isnull x = false.
Proof.
  intros H Hin. destruct x; auto. contradiction.
Qed.

Lemma covered_dedup (l : list cell) (x : cell) :
  (exists y, In y (dedup cell_eqb l) /\ cell_eqb x y = true) <->
  (exists y, In y l /\ cell_eqb x y = true).
Proof.
  split; intros [y [Hy Hxy]].
  - exists y. split; auto. now apply dedup_In in Hy.
  - destruct (dedup_complete l y Hy) as [z [Hz Hzy]].
    exists z. split; auto. rewrite cell_eqb_sym in Hzy.
    eapply cell_eqb_trans; eassumption.
Qed.

Lemma forallb_covered (a b : list cell) :
  ~ In CNaN a ->
  forallb (fun x => existsb (py_eq x) b) a = true <->
  (forall x, In x a -> exists y, In y b /\ cell_eqb x y = true).
Proof.
  intro Ha. rewrite forallb_forall. split; intros H x Hx.
  - specialize (H x Hx). apply existsb_exists in H. destruct H as [y [Hy Hxy]].
    rewrite py_eq_notnull in Hxy by (eapply notnull_In; eauto). eauto.
  - destruct (H x Hx) as [y [Hy Hxy]]. apply existsb_exists. exists y.
    split; auto. rewrite py_eq_notnull by (eapply notnull_In; eauto). auto.
Qed.

Lemma same_set_covered (a b : list cell) :
  same_set a b <->
  (forall x, In x a -> exists y, In y b /\ cell_eqb x y = true) /\
  (forall y, In y b -> exists x, In x a /\ cell_eqb y x = true).
Proof.
  unfold same_set. split.
  - intro H. split; intros x Hx; apply H; exists x; auto using cell_eqb_refl.
  - intros [H1 H2] x. split; intros [y [Hy Hxy]].
    + destruct (H1 y Hy) as [z [Hz Hyz]]. exists z. split; auto.
      eapply cell_eqb_trans; eassumption.
    + destruct (H2 y Hy) as [z [Hz Hyz]]. exists z. split; auto.
      eapply cell_eqb_trans; eassumption.
Qed.

Lemma same_set_dedup (a b : list cell) :
  same_set (dedup cell_eqb a) (dedup cell_eqb b) <-> same_set a b.
Proof.
  unfold same_set. split; intros H x.
  - rewrite <- (covered_dedup a), <- (covered_dedup b). apply H.
  - rewrite (covered_dedup a), (covered_dedup b). apply H.
Qed.

Lemma set_eqb_same_set (a b : list cell) :
  ~ In CNaN a -> ~ In CNaN b ->
  set_eqb (dedup cell_eqb a) (dedup cell_eqb b) = true <-> same_set a b.
Proof.
  intros Ha Hb. unfold set_eqb.
  assert (Ha' : ~ In CNaN (dedup cell_eqb a)) by (intro H; now apply dedup_In in H).
  assert (Hb' : ~ In CNaN (dedup cell_eqb b)) by (intro H; now apply dedup_In in H).
  rewrite andb_true_iff, (forallb_covered _ _ Ha'), (forallb_covered _ _ Hb').
  rewrite <- same_set_covered. apply same_set_dedup.
Qed.

Lemma same_set_sym (a b : list cell) : same_set a b -> same_set b a.
Proof.
  unfold same_set. intros H x. symmetry. apply H.
Qed.

Lemma same_set_trans (a b c : list cell) :
  same_set a b -> same_set b c -> same_set a c.
Proof.
  unfold same_set. intros H1 H2 x. rewrite H1. apply H2.
Qed.

Lemma folds_of_congr (df : DataFrame) (k m : cell) :
  cell_eqb k m = true -> folds_of df m = folds_of df k.
Proof.
  intro H. unfold folds_of. f_equal. apply filter_ext. intro r.
  rewrite (cell_eqb_sym _ m), (cell_eqb_sym _ k). symmetry.
  now apply cell_eqb_congr.
Qed.

Lemma folds_of_values (df : DataFrame) (i j : nat) (m : cell) :
  index_of Columns.Model (columns df) = Some i ->
  index_of Columns.Split (columns df) = Some j ->
  folds_of df m
  = map (cell_at j) (filter (fun r => cell_eqb (cell_at i r) m) (rows df)).
Proof.
  intros Hi Hj. unfold folds_of, cell_of. now rewrite Hi, Hj.
Qed.

Lemma folds_of_notnull (df : DataFrame) (m : cell) :
  mem_str Columns.Split (columns df) = true ->
  ~ In CNaN (column_values df Columns.Split) -> ~ In CNaN (folds_of df m).
Proof.
  intros Hs H Hin. apply H. destruct (index_of_Some _ _ Hs) as [j Hj].
  unfold folds_of in Hin. apply in_map_iff in Hin.
  destruct Hin as [r [Hr Hin]]. apply filter_In in Hin. destruct Hin as [Hin _].
  unfold column_values, cell_of in *. rewrite Hj in *.
  rewrite <- Hr. now apply in_map.
Qed.

Lemma group_column (df : DataFrame) (i j : nat) (k : cell) :
  index_of Columns.Model (columns df) = Some i ->
  index_of Columns.Split (columns df) = Some j ->
  exists s, get_column (get_group df i k) Columns.Split = Ok s /\
            values s = folds_of df k.
Proof.
  intros Hi Hj. unfold get_column, get_group. cbn [columns rows]. rewrite Hj.
  eexists. split; [reflexivity|].
  unfold values. rewrite map_map. cbn [snd].
  now rewrite (folds_of_values df i j).
Qed.

Lemma nunique_notnull (s : Series) :
  ~ In CNaN (values s) -> nunique s = count_distinct (values s).
Proof.
  intro H. unfold nunique, count_distinct. now rewrite filter_notnull_id.
Qed.

Lemma check_groups_result (float_repr : Q -> string) (df : DataFrame) (i j : nat)
      (ref : cell) (keys : list cell) :
  index_of Columns.Model (columns df) = Some i ->
  index_of Columns.Split (columns df) = Some j ->
  ~ In CNaN (column_values df Columns.Split) ->
  (check_groups float_repr df i (count_distinct (folds_of df ref))
                (dedup cell_eqb (folds_of df ref)) keys = Ok tt /\
   forall k, In k keys -> group_agrees df ref k) \/
  (is_value_error
     (check_groups float_repr df i (count_distinct (folds_of df ref))
                   (dedup cell_eqb (folds_of df ref)) keys) = true /\
   exists k, In k keys /\ ~ group_agrees df ref k).
Proof.
  intros Hi Hj Hn.
  assert (Hs : mem_str Columns.Split (columns df) = true).
  { destruct (mem_str Columns.Split (columns df)) eqn:E; auto.
    apply index_of_None in E. congruence. }
  induction keys as [|k ks IH].
  - left. simpl. split; auto. intros k [].
  - cbn [check_groups].
    destruct (group_column df i j k Hi Hj) as [s [Es Hv]].
    change "i_split"%string with Columns.Split. rewrite Es. cbn [bind].
    pose proof (folds_of_notnull df k Hs Hn) as Hk.
    pose proof (folds_of_notnull df ref Hs Hn) as Hr.
    rewrite nunique_notnull by (now rewrite Hv). unfold unique. rewrite Hv.
    destruct (Nat.eqb_spec (count_distinct (folds_of df k))
                           (count_distinct (folds_of df ref))) as [Ec|Ec];
      cbn [negb].
    + destruct (set_eqb (dedup cell_eqb (folds_of df k))
                        (dedup cell_eqb (folds_of df ref))) eqn:Eq; cbn [negb].
      * apply set_eqb_same_set in Eq; auto.
        destruct IH as [[E H]|[E [k' [Hk' Hbad]]]].
        -- left. split; auto. intros k' [<-|Hin]; auto. split; auto.
        -- right. split; auto. exists k'. split; auto. now right.
      * right. split; auto. exists k. split; [now left|].
        intros [_ Hsame]. apply set_eqb_same_set in Hsame; auto. congruence.
    + right. split; auto. exists k. split; [now left|]. intros [Hc _]. contradiction.
Qed.

(** C2: on a table with a fold column and a model column, and no missing
    fold, the split validator raises a [ValueError] exactly when some model
    has a number of distinct folds, or a set of folds, that is not the one
    of the reference model; and when it returns normally any two models
    have the same set of folds. *)
Theorem split_validator_spec (float_repr : Q -> string) (df : DataFrame) :
  mem_str Columns.Split (columns df) = true ->
  mem_str Columns.Model (columns df) = true ->
  ~ In CNaN (column_values df Columns.Split) ->
  (is_value_error (_validate_models_metrics_split float_repr df) = true <->
   exists m ref,
     reference_model df = Some ref /\ is_model df m /\
     (count_distinct (folds_of df m) <> count_distinct (folds_of df ref) \/
      ~ same_set (folds_of df m) (folds_of df ref))) /\
  (_validate_models_metrics_split float_repr df = Ok tt ->
   forall m1 m2, is_model df m1 -> is_model df m2 ->
                 same_set (folds_of df m1) (folds_of df m2)).
Proof.
  intros Hs Hm Hn.
  destruct (index_of_Some _ _ Hm) as [i Hi].
  destruct (index_of_Some _ _ Hs) as [j Hj].
  unfold _validate_models_metrics_split, reference_model, is_model, column_values.
  rewrite Hs, Hi. cbn [negb].
  set (col := map (cell_at i) (rows df)).
  destruct (group_keys true col) as [|ref ks] eqn:Ek.
  { split.
    - split; [discriminate|]. intros (m & r & Hr & _). discriminate.
    - discriminate. }
  destruct (group_column df i j ref Hi Hj) as [s [Es Hv]].
  rewrite Es. cbn [bind hd_error].
  pose proof (folds_of_notnull df ref Hs Hn) as Hr.
  rewrite nunique_notnull by (now rewrite Hv). unfold unique. rewrite Hv.
  assert (Hkeys : forall m, In m col -> isnull m = false ->
                            exists k, In k (ref :: ks) /\ folds_of df m = folds_of df k).
  { intros m H1 H2. destruct (group_keys_complete true col m H1 H2) as [k [Hk Hkm]].
    rewrite Ek in Hk. exists k. split; auto. now apply folds_of_congr. }
  destruct (check_groups_result float_repr df i j ref (ref :: ks) Hi Hj Hn)
    as [[E H]|[E [k [Hk Hbad]]]].
  - rewrite E. split.
    + split; [discriminate|].
      intros (m & r & Hr' & [H1 H2] & Hd). inversion Hr'; subst r.
      destruct (Hkeys m H1 H2) as [k [Hk Ef]]. rewrite Ef in Hd.
      destruct (H k Hk) as [Hc Hsame]. tauto.
    + intros _ m1 m2 [H1 H1'] [H2 H2'].
      destruct (Hkeys m1 H1 H1') as [k1 [Hk1 E1]].
      destruct (Hkeys m2 H2 H2') as [k2 [Hk2 E2]].
      rewrite E1, E2. eapply same_set_trans; [apply (H k1 Hk1)|].
      apply same_set_sym. apply (H k2 Hk2).
  - split.
    + split; [|intros _; exact E]. intros _.
      exists k, ref. split; auto. split.
      * rewrite <- Ek in Hk. now apply group_keys_In in Hk.
      * unfold group_agrees in Hbad.
        destruct (Nat.eq_dec (count_distinct (folds_of df k))
                             (count_distinct (folds_of df ref))); [|now left].
        right. intro Hsame. apply Hbad. auto.
    + intro H. rewrite H in E. discriminate.
Qed.

Lemma split_validator_spec_witness :
  ((is_value_error (_validate_models_metrics_split repr_example DF_METRICS) = true <->
    exists m ref,
      reference_model DF_METRICS = Some ref /\ is_model DF_METRICS m /\
      (count_distinct (folds_of DF_METRICS m) <> count_distinct (folds_of DF_METRICS ref) \/
       ~ same_set (folds_of DF_METRICS m) (folds_of DF_METRICS ref))) /\
   (_validate_models_metrics_split repr_example DF_METRICS = Ok tt ->
    forall m1 m2, is_model DF_METRICS m1 -> is_model DF_METRICS m2 ->
                  same_set (folds_of DF_METRICS m1) (folds_of DF_METRICS m2))) /\
  _validate_models_metrics_split repr_example DF_METRICS = Ok tt /\
  is_value_error (_validate_models_metrics_split repr_example metrics_uneven_folds) = true /\
  exists m ref,
    reference_model metrics_uneven_folds = Some ref /\ is_model metrics_uneven_folds m /\
    (count_distinct (folds_of metrics_uneven_folds m)
     <> count_distinct (folds_of metrics_uneven_folds ref) \/
     ~ same_set (folds_of metrics_uneven_folds m) (folds_of metrics_uneven_folds ref)).
Proof.
  split; [|split; [reflexivity|split; [reflexivity|]]].
  - apply (split_validator_spec repr_example DF_METRICS).
    + reflexivity.
    + reflexivity.
    + vm_compute. intuition discriminate.
  - apply (split_validator_spec repr_example metrics_uneven_folds).
    + reflexivity.
    + reflexivity.
    + vm_compute. intuition discriminate.
    + reflexivity.
Defined.

(** ** Lists again: maps, de-duplication, first rows *)

Lemma mapM_ok {A B : Type} (f : A -> result B) (g : A -> B) (l : list A) :
  (forall x, In x l -> f x = Ok (g x)) -> mapM f l = Ok (map g l).
Proof.
  induction l as [|x xs IH]; simpl; intro H; auto.
  rewrite (H x) by auto. cbn [bind]. rewrite IH by auto. reflexivity.
Qed.

Lemma map_seq_nth {A B : Type} (g : A -> B) (d : A) (l : list A) (s : nat) :
  map (fun p => g (nth (p - s) l d)) (seq s (length l)) = map g l.
Proof.
  revert s. induction l as [|x xs IH]; intro s; simpl; auto.
  rewrite Nat.sub_diag. f_equal. rewrite <- (IH (S s)).
  apply map_ext_in. intros p Hp. apply in_seq in Hp.
  destruct (p - s)%nat as [|q] eqn:E; [lia|].
  replace (p - S s)%nat with q by lia. reflexivity.
Qed.

Lemma filter_map_comm {A B : Type} (f : A -> B) (P : B -> bool) (l : list A) :
  filter P (map f l) = map f (filter (fun x => P (f x)) l).
Proof.
  induction l as [|x xs IH]; simpl; auto.
  destruct (P (f x)); simpl; now rewrite IH.
Qed.

Lemma dedup_map {A B : Type} (f : A -> B) (eqA : A -> A -> bool)
      (eqB : B -> B -> bool) (l : list A) :
  (forall x y, In x l -> In y l -> eqB (f x) (f y) = eqA x y) ->
  dedup eqB (map f l) = map f (dedup eqA l).
Proof.
  induction l as [|x xs IH]; simpl; intro H; auto.
  rewrite IH by auto. rewrite filter_map_comm. do 2 f_equal.
  apply filter_ext_in. intros y Hy. apply dedup_In in Hy.
  now rewrite H by auto.
Qed.

Lemma dedup_first {A : Type} (eqb : A -> A -> bool) (l : list A) (r : A) :
  (forall x, eqb x x = true) ->
  (forall x y, eqb x y = eqb y x) ->
  In r (dedup eqb l) ->
  exists tl, filter (fun x => eqb x r) l = r :: tl.
Proof.
  intros Hrefl Hsym. induction l as [|x xs IH]; simpl; [tauto|].
  intros [->|H].
  - rewrite Hrefl. eauto.
  - apply filter_In in H. destruct H as [H Hx].
    apply negb_true_iff in Hx. rewrite Hx. auto.
Qed.

Lemma dedup_single {A : Type} (eqb : A -> A -> bool) (l : list A) (r : A) :
  (forall x, eqb x x = true) ->
  (forall x y, eqb x y = eqb y x) ->
  (forall x y z, eqb x y = true -> eqb y z = true -> eqb x z = true) ->
  In r (dedup eqb l) ->
  filter (fun x => eqb x r) (dedup eqb l) = [r].
Proof.
  intros Hrefl Hsym Htrans. induction l as [|x xs IH]; simpl; [tauto|].
  intros [->|H].
  - rewrite Hrefl. f_equal.
    assert (E : forall l', (forall y, In y l' -> eqb r y = false) ->
                           filter (fun x => eqb x r) l' = []).
    { induction l' as [|y ys IHl]; simpl; auto. intro Hl.
      rewrite Hsym, (Hl y) by auto. apply IHl. auto. }
    apply E. intros y Hy. apply filter_In in Hy. destruct Hy as [_ Hy].
    now apply negb_true_iff in Hy.
  - apply filter_In in H. destruct H as [H Hx]. apply negb_true_iff in Hx.
    rewrite Hx. rewrite <- (IH H).
    assert (E : forall l', filter (fun y => eqb y r)
                                  (filter (fun y => negb (eqb x y)) l')
                           = filter (fun y => eqb y r) l').
    { induction l' as [|y ys IHl]; simpl; auto.
      destruct (eqb x y) eqn:Exy; simpl.
      - destruct (eqb y r) eqn:Eyr; auto.
        rewrite (Htrans x y r Exy Eyr) in Hx. discriminate.
      - now rewrite IHl. }
    apply E.
Qed.

Lemma flat_map_single {A B : Type} (f : A -> list B) (g : A -> B) (l : list A) :
  (forall x, In x l -> f x = [g x]) -> flat_map f l = map g l.
Proof.
  induction l as [|x xs IH]; simpl; intro H; auto.
  rewrite (H x) by auto. simpl. now rewrite IH by auto.
Qed.

Lemma map_range_index {A B : Type} (H : cell * A -> B) (H' : A -> B) (l : list A) :
  (forall p, H p = H' (snd p)) -> map H (range_index l) = map H' l.
Proof.
  intro E. rewrite <- (range_index_snd l) at 2. rewrite map_map.
  apply map_ext. auto.
Qed.

Lemma list_eqb_refl (l : list cell) : list_eqb cell_eqb l l = true.
Proof.
  induction l as [|x xs IH]; simpl; auto. now rewrite cell_eqb_refl.
Qed.

Lemma select_columns_spec (df : DataFrame) (cs : list string) :
  (forall c, In c cs -> mem_str c (columns df) = true) ->
  select_columns df cs
  = Ok (mkDF cs (map (fun r => (fst r, map (fun c => cell_of df c r) cs)) (rows df))).
Proof.
  intro H. unfold select_columns.
  rewrite (mapM_ok _ (fun c => match index_of c (columns df) with
                               | Some i => i
                               | None => O
                               end)).
  - cbn [bind]. do 2 f_equal. apply map_ext. intro r. f_equal.
    rewrite map_map. apply map_ext_in. intros c Hc. unfold cell_of.
    destruct (index_of_Some _ _ (H c Hc)) as [i ->]. reflexivity.
  - intros c Hc. destruct (index_of_Some _ _ (H c Hc)) as [i ->]. reflexivity.
Qed.

(** ** Means *)

Lemma numeric_values_spec (l : list cell) :
  (forall x, In x l -> exists q, cell_num x = Some q) ->
  numeric_values l = Ok (map float_of l).
Proof.
  induction l as [|x xs IH]; cbn [numeric_values map]; intro H; auto.
  destruct (H x (or_introl eq_refl)) as [q Hq].
  destruct x; simpl in Hq; try discriminate;
    rewrite IH by (intros y Hy; apply H; now right); reflexivity.
Qed.

Lemma mean_numeric (l : list cell) :
  (forall x, In x l -> exists q, cell_num x = Some q) ->
  l <> [] ->
  mean l = Ok (float_mean l).
Proof.
  intros H Hne. unfold mean. rewrite numeric_values_spec by assumption.
  cbn [bind]. destruct l as [|x xs]; [congruence|]. reflexivity.
Qed.

(** ** The average view *)

Section AverageView.

Variable a : MetricsApp.
Hypothesis Hready : avg_ready a.

Local Abbreviation D := (data a).
Local Abbreviation ms := (metric_names a).
Local Abbreviation ns := (meta_names a).
Local Abbreviation key := (row_key (data a)).
Local Abbreviation keyeq := (same_key (data a)).
Local Abbreviation firsts := (first_rows (data a)).
Local Abbreviation means := (group_means (data a) (metric_names a)).
Local Abbreviation metas := (row_metadata (data a) (meta_names a)).

Lemma keyeq_refl r : keyeq r r = true.
Proof. apply cell_eqb_refl. Qed.

Lemma keyeq_sym r r' : keyeq r r' = keyeq r' r.
Proof. apply cell_eqb_sym. Qed.

Lemma keyeq_trans r1 r2 r3 :
  keyeq r1 r2 = true -> keyeq r2 r3 = true -> keyeq r1 r3 = true.
Proof. apply cell_eqb_trans. Qed.

Lemma firsts_rows r : In r firsts -> In r (rows D).
Proof. unfold first_rows. apply dedup_In. Qed.

Lemma key_string r : In r (rows D) -> exists s, key r = CStr s.
Proof. destruct Hready as (_ & _ & _ & H & _). apply H. Qed.

Lemma keyeq_eq r r' : In r (rows D) -> keyeq r r' = true -> key r' = key r.
Proof.
  intros Hr H. destruct (key_string r Hr) as [s Hs].
  unfold same_key in H. rewrite Hs in *. now apply cell_eqb_str.
Qed.

Lemma model_column_keys : column_values D Columns.Model = map key (rows D).
Proof.
  destruct Hready as (Hm & _). destruct (index_of_Some _ _ Hm) as [i Hi].
  unfold column_values, row_key, cell_of. now rewrite Hi.
Qed.

Lemma keys_notnull : filter (fun v => negb (isnull v)) (map key (rows D)) = map key (rows D).
Proof.
  apply filter_notnull_id. intro H. apply in_map_iff in H.
  destruct H as [r [Hk Hr]]. destruct (key_string r Hr) as [s Hs]. congruence.
Qed.

Lemma keys_firsts : dedup cell_eqb (map key (rows D)) = map key firsts.
Proof. unfold first_rows. apply dedup_map. reflexivity. Qed.

Lemma models_in_order_firsts : models_in_order D = map key firsts.
Proof.
  unfold models_in_order. rewrite model_column_keys. apply keys_firsts.
Qed.

Lemma rows_of_model_first r :
  In r firsts -> exists tl, rows_of_model D (key r) = r :: tl.
Proof.
  intro H. unfold rows_of_model.
  apply (dedup_first keyeq (rows D) r keyeq_refl keyeq_sym H).
Qed.

Lemma rows_of_model_rows k r : In r (rows_of_model D k) -> In r (rows D).
Proof. unfold rows_of_model. intro H. apply filter_In in H. tauto. Qed.

Lemma metric_present c : In c ms -> mem_str c (columns D) = true.
Proof.
  destruct Hready as (_ & H & _). intro Hc. apply H, in_or_app. now left.
Qed.

Lemma meta_present c : In c ns -> mem_str c (columns D) = true /\ c <> Columns.Model.
Proof.
  destruct Hready as (_ & H & _). intro Hc. apply H, in_or_app. now right.
Qed.

(** The group-wise means of the metric columns. *)
Lemma groupby_metrics :
  groupby_mean
    (mkDF (Columns.Model :: ms)
          (map (fun r => (fst r, map (fun c => cell_of D c r) (Columns.Model :: ms)))
               (rows D)))
    Columns.Model
  = Ok (mkDF ms (map (fun r => (key r, means (key r))) firsts)).
Proof.
  unfold groupby_mean. cbn [columns rows index_of].
  rewrite String.eqb_refl. cbn [length seq remove_nth].
  rewrite map_map. change (fun x : cell * list cell => cell_at 0 (fst x, map (fun c => cell_of D c x) (Columns.Model :: ms)))
    with key.
  unfold group_keys. rewrite keys_notnull, keys_firsts.
  rewrite (mapM_ok _ (fun k => (k, means k))).
  - now rewrite map_map.
  - intros k Hk. apply in_map_iff in Hk. destruct Hk as [r0 [Hk0 Hr0]].
    destruct (rows_of_model_first r0 Hr0) as [tl Htl]. rewrite Hk0 in Htl.
    rewrite (mapM_ok _ (fun j => float_mean
                                   (map (fun r => cell_of D (nth (j - 1) ms ""%string) r)
                                        (rows_of_model D k)))).
    + cbn [bind]. do 2 f_equal. unfold group_means.
      apply (map_seq_nth (fun c => float_mean
                                     (map (fun r => cell_of D c r) (rows_of_model D k)))
                         ""%string ms 1).
    + intros j Hj. apply in_seq in Hj.
      unfold get_group. cbn [rows columns].
      rewrite filter_map_comm, map_map.
      change (fun x : cell * list cell =>
                cell_eqb (cell_at 0 (fst x, map (fun c => cell_of D c x) (Columns.Model :: ms))) k)
        with (fun x => cell_eqb (cell_of D Columns.Model x) k).
      fold (rows_of_model D k).
      assert (Hc : In (nth (j - 1) ms ""%string) ms) by (apply nth_In; lia).
      assert (E : map (fun x : cell * list cell =>
                         cell_at j (fst x, map (fun c => cell_of D c x) (Columns.Model :: ms)))
                      (rows_of_model D k)
                  = map (fun r => cell_of D (nth (j - 1) ms ""%string) r)
                        (rows_of_model D k)).
      { apply map_ext. intro r. unfold cell_at. cbn [snd map].
        destruct j as [|p]; [lia|]. cbn [nth].
        replace (S p - 1)%nat with p by lia.
        rewrite (nth_indep _ CNaN (cell_of D ""%string r))
          by (rewrite length_map; lia).
        apply (map_nth (fun c => cell_of D c r)). }
      rewrite E, mean_numeric.
      * reflexivity.
      * intros x Hx. apply in_map_iff in Hx. destruct Hx as [r [<- Hr]].
        destruct Hready as (_ & _ & _ & _ & _ & H6). apply H6; auto.
        eapply rows_of_model_rows; eauto.
      * rewrite Htl. discriminate.
Qed.

(** The metadata, one row per model. *)
Lemma dedup_metadata :
  drop_duplicates
    (mkDF (Columns.Model :: ns)
          (map (fun r => (fst r, map (fun c => cell_of D c r) (Columns.Model :: ns)))
               (rows D)))
  = mkDF (Columns.Model :: ns) (map (fun r => (fst r, key r :: metas r)) firsts).
Proof.
  unfold drop_duplicates. cbn [columns rows]. f_equal.
  apply (dedup_map (fun r => (fst r, key r :: metas r)) keyeq).
  intros x y Hx Hy. cbn [snd list_eqb]. fold (keyeq x y).
  destruct (keyeq x y) eqn:E; cbn [andb]; auto.
  assert (Em : metas x = metas y).
  { unfold row_metadata. apply map_ext_in. intros c Hc.
    destruct Hready as (_ & _ & _ & _ & H5 & _). apply H5; auto.
    symmetry. apply keyeq_eq; auto. }
  rewrite Em. apply list_eqb_refl.
Qed.

Lemma flat_map_range_index {A B : Type} (f : cell * A -> list B) (f' : A -> list B)
      (l : list A) :
  (forall p, f p = f' (snd p)) -> flat_map f (range_index l) = flat_map f' l.
Proof.
  intro E. rewrite !flat_map_concat_map. f_equal. now apply map_range_index.
Qed.

Lemma mem_str_false (c : string) (l : list string) :
  ~ In c l -> mem_str c l = false.
Proof.
  intro H. destruct (mem_str c l) eqn:E; auto. apply mem_str_In in E. contradiction.
Qed.

(** The join of the means with the metadata. *)
Lemma merge_average :
  merge_left
    (reset_index Columns.Model
                 (mkDF ms (map (fun r => (key r, means (key r))) firsts)))
    (mkDF (Columns.Model :: ns) (map (fun r => (fst r, key r :: metas r)) firsts))
    Columns.Model
  = Ok (mkDF (Columns.Model :: ms ++ ns)
             (range_index (map (fun r => key r :: means (key r) ++ metas r) firsts))).
Proof.
  assert (Hkeys : forall c, In c (map key firsts) -> exists s, c = CStr s).
  { intros c Hc. apply in_map_iff in Hc. destruct Hc as [r [<- Hr]].
    apply key_string. now apply firsts_rows. }
  unfold merge_left, reset_index. cbn [columns rows index_of].
  rewrite String.eqb_refl.
  rewrite strings_no_clash.
  2:{ intros c Hc.
      rewrite (map_range_index (cell_at 0) (fun cells => nth 0 cells CNaN)) in Hc
        by reflexivity.
      rewrite !map_map in Hc. cbn [nth fst] in Hc. now apply Hkeys. }
  2:{ intros c Hc. rewrite map_map in Hc. now apply Hkeys. }
  rewrite all_matched_keys.
  2:{ cbn [rows]. intros l Hl. apply range_index_In in Hl.
      rewrite map_map in Hl. apply in_map_iff in Hl. destruct Hl as [r [Hs Hr]].
      exists (fst r, key r :: metas r). split.
      - apply in_map_iff. eauto.
      - unfold cell_at. rewrite <- Hs. cbn [snd nth fst]. apply cell_eqb_refl. }
  cbn [remove_nth columns rows]. do 2 f_equal.
  - cbn [map negb andb].
    rewrite String.eqb_refl. cbn [negb andb app]. f_equal. f_equal.
    + rewrite <- (map_id ms) at 2. apply map_ext_in. intros c Hc.
      destruct Hready as (_ & _ & H3 & _).
      rewrite (mem_str_false c ns) by (now apply H3).
      now rewrite andb_false_r.
    + rewrite <- (map_id ns) at 2. apply map_ext_in. intros c Hc.
      rewrite (mem_str_false c (Columns.Model :: ms)).
      * now rewrite andb_false_r.
      * intros [H|H].
        -- destruct (meta_present c Hc) as [_ Hn]. congruence.
        -- destruct Hready as (_ & _ & H3 & _). now apply (H3 c H).
  - rewrite map_map. cbn [fst snd].
    rewrite (flat_map_range_index
               _ (fun x => match filter (fun r => cell_eqb (cell_at 0 r) (nth 0 x CNaN))
                                        (map (fun r => (fst r, key r :: metas r)) firsts)
                           with
                           | [] => [x ++ repeat CNaN (length ns)]
                           | m :: ms' =>
                               map (fun r => x ++ remove_nth 0 (snd r)) (m :: ms')
                           end)) by reflexivity.
    rewrite flat_map_concat_map, map_map, <- flat_map_concat_map.
    f_equal. apply flat_map_single. intros r Hr. cbn [nth].
    rewrite filter_map_comm.
    change (fun x : cell * list cell => cell_eqb (cell_at 0 (fst x, key x :: metas x)) (key r))
      with (fun x => keyeq x r).
    unfold first_rows at 1.
    rewrite (dedup_single keyeq (rows D) r keyeq_refl keyeq_sym keyeq_trans Hr).
    reflexivity.
Qed.

(** The body of [_make_chart_data_avg] computes the average view of the
    specification. *)
Lemma avg_body_spec :
  make_chart_data_avg_body a = Ok (average_view_spec D ms ns).
Proof.
  destruct Hready as (Hm & _).
  unfold make_chart_data_avg_body.
  rewrite select_columns_spec.
  2:{ intros c [<-|Hc]; auto. now apply metric_present. }
  cbn [bind]. rewrite groupby_metrics. cbn [bind].
  rewrite select_columns_spec.
  2:{ intros c [<-|Hc]; auto. now apply meta_present. }
  cbn [bind]. rewrite dedup_metadata, merge_average. cbn [bind].
  unfold reset_index_drop, average_view_spec. cbn [columns rows].
  rewrite range_index_snd, models_in_order_firsts, map_map. do 3 f_equal.
  apply map_ext_in. intros r Hr. f_equal. f_equal.
  destruct (rows_of_model_first r Hr) as [tl ->]. reflexivity.
Qed.

End AverageView.

(** ** The data of a constructed object are ready for the average view *)

Lemma remove_nth_In {A : Type} (j : nat) (l : list A) (x : A) :
  In x (remove_nth j l) -> In x l.
Proof.
  revert j. induction l as [|y ys IH]; intros [|j]; simpl; auto.
  intros [H|H]; eauto.
Qed.

Lemma In_remove_nth {A : Type} (j : nat) (l : list A) (x d : A) :
  In x l -> nth j l d <> x -> In x (remove_nth j l).
Proof.
  revert j. induction l as [|y ys IH]; intros [|j]; simpl; auto.
  - intros [H|H] Hn; [congruence|auto].
  - intros [H|H] Hn; [now left|right; eauto].
Qed.

Lemma Distinct_filter_single {R : Type} (f : R -> cell) (k : cell) (l : list R) :
  Distinct cell_eqb (map f l) ->
  (length (filter (fun r => cell_eqb (f r) k) l) <= 1)%nat.
Proof.
  induction l as [|x xs IH]; simpl; intro H; [lia|].
  inversion H as [|y ys Hx Hd]; subst.
  destruct (cell_eqb (f x) k) eqn:E; [|auto].
  assert (Hnone : filter (fun r => cell_eqb (f r) k) xs = []).
  { destruct (filter (fun r => cell_eqb (f r) k) xs) as [|z zs] eqn:Ez; auto.
    assert (Hz : In z (filter (fun r => cell_eqb (f r) k) xs)) by (rewrite Ez; now left).
    apply filter_In in Hz. destruct Hz as [Hz Hk].
    rewrite cell_eqb_sym in Hk.
    pose proof (cell_eqb_trans _ _ _ E Hk) as Ht.
    rewrite (Hx (f z) (in_map f xs z Hz)) in Ht. discriminate. }
  simpl. rewrite Hnone. simpl. lia.
Qed.

Lemma merge_extra_single (right : DataFrame) (j : nat) (k : cell) :
  Distinct cell_eqb (map (cell_at j) (rows right)) ->
  exists e, merge_extra right j k = [e].
Proof.
  intro H. unfold merge_extra.
  pose proof (Distinct_filter_single (cell_at j) k (rows right) H) as Hl.
  destruct (filter (fun r => cell_eqb (cell_at j r) k) (rows right)) as [|x [|y ys]];
    simpl in *; eauto; lia.
Qed.

Lemma merged_columns_plain (left right : DataFrame) (i j : nat) (merged : DataFrame) :
  index_of Columns.Model (columns left) = Some i ->
  index_of Columns.Model (columns right) = Some j ->
  merge_left left right Columns.Model = Ok merged ->
  (forall c, In c (columns right) -> c <> Columns.Model -> ~ In c (columns left)) ->
  columns merged = columns left ++ remove_nth j (columns right).
Proof.
  intros Hi Hj Hm Hdisj. destruct (merge_left_ok _ _ _ _ _ Hi Hj Hm) as [_ ->].
  cbn [columns]. f_equal.
  - rewrite <- (map_id (columns left)) at 2. apply map_ext_in. intros c Hc.
    destruct (String.eqb_spec c Columns.Model) as [E|E]; cbn [negb andb]; auto.
    destruct (mem_str c (remove_nth j (columns right))) eqn:Em; auto.
    apply mem_str_In, remove_nth_In in Em. exfalso. now apply (Hdisj c Em E).
  - rewrite <- (map_id (remove_nth j (columns right))) at 2.
    apply map_ext_in. intros c Hc.
    destruct (String.eqb_spec c Columns.Model) as [E|E]; cbn [negb andb]; auto.
    destruct (mem_str c (columns left)) eqn:Em; auto.
    apply mem_str_In in Em. apply remove_nth_In in Hc. exfalso.
    now apply (Hdisj c Hc E).
Qed.

Lemma construct_avg_ready (float_repr : Q -> string) (df : DataFrame)
      (md : option pyobj) (sl ad : bool) (a0 : MetricsApp) :
  wf_frame df ->
  fst (construct float_repr (PyFrame df) md sl ad) = Ok a0 ->
  (forall c, In c (meta_names a0) -> ~ In c (columns df)) ->
  (forall r c, In r (rows df) -> In c (metric_names a0) ->
               exists q, cell_num (cell_of df c r) = Some q) ->
  avg_ready a0.
Proof.
  intros Hwf Hc Hdisj Hnum.
  destruct (construct_data _ _ _ _ _ _ Hwf Hc)
    as (i & metadata & j & Hi & Hj & Hd & _ & Hm & Hms & Hns & _).
  set (df' := normalized_table float_repr df) in *.
  assert (Hcols' : columns df' = columns df) by apply normalized_table_columns.
  assert (Hi' : index_of Columns.Model (columns df') = Some i) by now rewrite Hcols'.
  destruct (merge_left_columns _ _ _ _ _ Hi' Hj Hm) as [Hrows Hidx].
  assert (Hmeta : forall c, In c (columns metadata) -> c <> Columns.Model ->
                            In c (meta_names a0)).
  { intros c H1 H2. rewrite Hns. apply filter_In. split; auto.
    apply negb_true_iff. now apply String.eqb_neq. }
  assert (Hcols : columns (data a0) = columns df ++ remove_nth j (columns metadata)).
  { rewrite <- Hcols'. apply (merged_columns_plain _ _ i j _ Hi' Hj Hm).
    intros c H1 H2. rewrite Hcols'. apply Hdisj. now apply Hmeta. }
  pose proof (index_of_lt _ _ _ Hi) as [Hilt _].
  pose proof (index_of_lt _ _ _ Hj) as [Hjlt Hjnth].
  pose proof (normalized_table_wf float_repr _ Hwf) as Hwf'. fold df' in Hwf'.
  unfold wf_frame in Hwf'. rewrite Forall_forall in Hwf'.
  assert (Horigin : forall r, In r (rows (data a0)) ->
            exists l r0 e, In l (rows df') /\ In r0 (rows df) /\
                           snd l = set_nth i (CStr (normalized_name float_repr (cell_at i r0)))
                                           (snd r0) /\
                           length (snd l) = length (columns df) /\
                           merge_extra (merge_right df' metadata i j) j (cell_at i l)
                           = [e] /\
                           snd r = snd l ++ e).
  { intros r Hr.
    destruct (merged_row_origin _ _ _ _ _ _ Hi' Hj Hm Hr) as (l & e & Hl & He & Hs).
    destruct (normalized_table_model _ _ _ _ Hwf Hi Hl) as (r0 & Hr0 & _ & Hset & _).
    rewrite <- (merge_right_keys df' metadata i j) in Hd.
    destruct (merge_extra_single (merge_right df' metadata i j) j (cell_at i l) Hd)
      as [e' He'].
    rewrite He' in He. destruct He as [<-|[]].
    exists l, r0, e'. repeat split; auto. rewrite <- Hcols'. now apply Hwf'. }
  assert (Hmetric : forall c, In c (metric_names a0) ->
            In c (columns df) /\ c <> Columns.Model /\
            exists q, index_of c (columns df) = Some q /\ q <> i /\
                      index_of c (columns (data a0)) = Some q).
  { intros c Hin. rewrite Hms in Hin. apply filter_In in Hin.
    destruct Hin as [Hin Hmc]. unfold is_metric_column in Hmc.
    apply negb_true_iff, orb_false_iff in Hmc. destruct Hmc as [Hmc _].
    apply String.eqb_neq in Hmc. repeat split; auto.
    destruct (index_of_Some c (columns df)) as [q Hq]; [now apply mem_str_In|].
    exists q. repeat split; auto.
    - intros ->. apply Hmc. eapply index_of_inj; eauto.
    - rewrite Hcols. now apply index_of_app_l. }
  assert (Hmetaidx : forall c, In c (meta_names a0) ->
            c <> Columns.Model /\
            exists p, index_of c (columns (data a0)) = Some (length (columns df) + p)%nat).
  { intros c Hin. pose proof (Hdisj c Hin) as Hnot.
    rewrite Hns in Hin. apply filter_In in Hin. destruct Hin as [Hin Hmc].
    apply negb_true_iff, String.eqb_neq in Hmc. split; auto.
    assert (Hr : In c (remove_nth j (columns metadata))).
    { apply (In_remove_nth j _ c ""%string); auto. congruence. }
    destruct (index_of_Some c (remove_nth j (columns metadata))) as [p Hp];
      [now apply mem_str_In|].
    exists p. rewrite Hcols, index_of_app_r, Hp; auto.
    apply index_of_None. destruct (mem_str c (columns df)) eqn:E; auto.
    apply mem_str_In in E. contradiction. }
  assert (Hkey : forall r l e, snd r = snd l ++ e ->
                               length (snd l) = length (columns df) ->
                               cell_of (data a0) Columns.Model r = cell_at i l).
  { intros r l e Hs Hlen. unfold cell_of. rewrite Hidx. unfold cell_at.
    rewrite Hs. apply app_nth1. lia. }
  repeat split.
  - destruct (mem_str Columns.Model (columns (data a0))) eqn:E; auto.
    apply index_of_None in E. congruence.
  - apply in_app_or in H. destruct H as [H|H].
    + destruct (Hmetric c H) as (_ & _ & q & _ & _ & Hq).
      destruct (mem_str c (columns (data a0))) eqn:E; auto.
      apply index_of_None in E. congruence.
    + destruct (Hmetaidx c H) as (_ & p & Hp).
      destruct (mem_str c (columns (data a0))) eqn:E; auto.
      apply index_of_None in E. congruence.
  - apply in_app_or in H. destruct H as [H|H].
    + now destruct (Hmetric c H) as (_ & Hn & _).
    + now destruct (Hmetaidx c H) as (Hn & _).
  - intros c H1 H2. destruct (Hmetric c H1) as (Hin & _). now apply (Hdisj c H2).
  - intros r Hr.
    destruct (construct_model_cells float_repr df md sl ad a0
                                    (cell_of (data a0) Columns.Model r) Hwf Hc)
      as (c0 & _ & E).
    + unfold column_values, cell_of. rewrite Hidx. now apply in_map.
    + eauto.
  - intros r1 r2 c Hr1 Hr2 Ek Hin.
    destruct (Horigin r1 Hr1) as (l1 & _ & e1 & _ & _ & _ & Hlen1 & He1 & Hs1).
    destruct (Horigin r2 Hr2) as (l2 & _ & e2 & _ & _ & _ & Hlen2 & He2 & Hs2).
    rewrite (Hkey r1 l1 e1 Hs1 Hlen1), (Hkey r2 l2 e2 Hs2 Hlen2) in Ek.
    rewrite Ek in He1. rewrite He1 in He2. inversion He2; subst e2.
    destruct (Hmetaidx c Hin) as (_ & p & Hp).
    unfold cell_of. rewrite Hp. unfold cell_at. rewrite Hs1, Hs2.
    rewrite !app_nth2 by lia. now rewrite Hlen1, Hlen2.
  - intros r c Hr Hin.
    destruct (Horigin r Hr) as (l & r0 & e & _ & Hr0 & Hset & Hlen & _ & Hs).
    destruct (Hmetric c Hin) as (_ & _ & q & Hq & Hqi & Hq').
    pose proof (index_of_lt _ _ _ Hq) as [Hqlt _].
    destruct (Hnum r0 c Hr0 Hin) as [x Hx]. exists x. rewrite <- Hx. f_equal.
    unfold cell_of. rewrite Hq, Hq'. unfold cell_at. rewrite Hs.
    rewrite app_nth1 by lia. rewrite Hset. apply nth_set_nth_other. auto.
Qed.

Lemma avg_call_result (a : MetricsApp) :
  cache_ok a -> fst (_make_chart_data_avg a) = make_chart_data_avg_body a.
Proof.
  intros [_ Ha]. unfold _make_chart_data_avg.
  destruct (avg_cache a) as [v|] eqn:E.
  - symmetry. now apply Ha.
  - destruct (make_chart_data_avg_body a); reflexivity.
Qed.

Lemma machine_numbers_num (df : DataFrame) (c : string) (r : cell * list cell) :
  machine_numbers df c -> In r (rows df) ->
  exists q, cell_num (cell_of df c r) = Some q.
Proof.
  intros [H|H] Hr.
  - destruct (H r Hr) as (z & -> & _). simpl. eauto.
  - destruct (H r Hr) as (q & -> & _). simpl. eauto.
Qed.

(** C5, as amended: for an object constructed from a (rectangular) metrics
    table whose metric columns are [int64] or [float64] columns and whose
    column names are not used by the metadata, the average view is, at any
    time, the table with one row per model in order of first appearance,
    holding the model, the mean of every metric over the rows of the model
    as float arithmetic gives it (the compensated sum of the values,
    divided by their number; no mean overflowing), and the metadata of the
    model. For [DF_METRICS] (Model1: 0.1, 0.3, 0.5; Model2: 0.2, 0.4, 0.6)
    the view gives 0.3 for Model1 and 0.39999999999999997 for Model2, which
    is within one unit in the last place (2^-54) of the arithmetic mean of
    the three floats. *)
Theorem average_view_correct (float_repr : Q -> string) (df : DataFrame)
        (models_metadata : option pyobj) (show_legend auto_display : bool)
        (a0 a : MetricsApp) :
  wf_frame df ->
  fst (construct float_repr (PyFrame df) models_metadata show_legend auto_display)
  = Ok a0 ->
  (forall c, In c (meta_names a0) -> ~ In c (columns df)) ->
  (forall c, In c (metric_names a0) -> machine_numbers df c) ->
  finite_means (data a0) (metric_names a0) ->
  lifetime a0 a ->
  fst (_make_chart_data_avg a)
  = Ok (average_view_spec (data a0) (metric_names a0) (meta_names a0)) /\
  (fst (construct float_repr (PyFrame DF_METRICS) None true false)
   = Ok app_of_DF_METRICS /\
   fst (_make_chart_data_avg app_of_DF_METRICS) = Ok computed_average /\
   (Qabs (float_below_0_4
          - arithmetic_mean [float_0_2; float_0_4; float_0_6]) < 1 # 2 ^ 54)%Q).
Proof.
  intros Hwf Hc Hdisj Hnum _ Hl. split.
  - assert (Hnum' : forall r c, In r (rows df) -> In c (metric_names a0) ->
                                exists q, cell_num (cell_of df c r) = Some q).
    { intros r c Hr Hin. apply machine_numbers_num; auto. }
    pose proof (construct_avg_ready _ _ _ _ _ _ Hwf Hc Hdisj Hnum') as Hready.
    destruct (construct_caches _ _ _ _ _ _ Hc) as (_ & _ & H0).
    rewrite (avg_call_result a (lifetime_cache_ok _ _ H0 Hl)).
    rewrite (avg_body_same a0 a (lifetime_same _ _ Hl)).
    now apply avg_body_spec.
  - split; [vm_compute; reflexivity|].
    split; [vm_compute; reflexivity|]. vm_compute. reflexivity.
Qed.

Lemma average_view_correct_witness :
  let a := snd (_make_chart_data_fold app_with_metadata (CInt 0)) in
  fst (_make_chart_data_avg a)
  = Ok (average_view_spec (data app_with_metadata) (metric_names app_with_metadata)
                          (meta_names app_with_metadata)) /\
  (fst (construct repr_example (PyFrame DF_METRICS) None true false)
   = Ok app_of_DF_METRICS /\
   fst (_make_chart_data_avg app_of_DF_METRICS) = Ok computed_average /\
   (Qabs (float_below_0_4
          - arithmetic_mean [float_0_2; float_0_4; float_0_6]) < 1 # 2 ^ 54)%Q).
Proof.
  intro a.
  apply (average_view_correct repr_example DF_METRICS (Some (PyFrame metadata_df))
                              true false app_with_metadata a).
  - unfold wf_frame. repeat constructor.
  - vm_compute. reflexivity.
  - intros c Hc Hin. simpl in Hc, Hin.
    repeat (destruct Hc as [<-|Hc]; [intuition discriminate|]). exact Hc.
  - intros c Hc. right. simpl in Hc.
    repeat (destruct Hc as [<-|Hc];
            [intros r Hr; simpl in Hr;
             repeat (destruct Hr as [<-|Hr];
                     [eexists; split; [reflexivity|vm_compute; reflexivity]|]);
             destruct Hr|]).
    destruct Hc.
  - intros m c Hm Hc. vm_compute in Hm. simpl in Hc.
    repeat (destruct Hm as [<-|Hm];
            [repeat (destruct Hc as [<-|Hc]; [eexists; vm_compute; reflexivity|]);
             destruct Hc|]).
    destruct Hm.
  - apply lifetime_step with (a := app_with_metadata).
    + apply lifetime_start.
    + apply step_fold.
Defined.

(** C5, as it is worded, fails: the average view of [DF_METRICS] does not
    hold 0.4 for Model2 but the float just below it. *)
Lemma average_view_counterexample :
  ~ average_view_yields app_of_DF_METRICS expected_average.
Proof.
  unfold average_view_yields. intros (v & Hv & He).
  assert (E : fst (_make_chart_data_avg app_of_DF_METRICS) = Ok computed_average)
    by (vm_compute; reflexivity).
  assert (N : frame_eqb computed_average expected_average = false)
    by (vm_compute; reflexivity).
  rewrite E in Hv. injection Hv as <-. rewrite N in He. discriminate He.
Qed.

(** * Further properties of the code *)

(** ** When [construct] succeeds *)

Lemma Distinct_filter {A : Type} (eqb : A -> A -> bool) (P : A -> bool) (l : list A) :
  Distinct eqb l -> Distinct eqb (filter P l).
Proof.
  induction 1 as [|x l Hx Hl IH]; simpl; [constructor|].
  destruct (P x); auto. constructor; auto.
  intros y Hy. apply filter_In in Hy. apply Hx. tauto.
Qed.

Lemma Distinct_dedup {A : Type} (eqb : A -> A -> bool) (l : list A) :
  Distinct eqb (dedup eqb l).
Proof.
  induction l as [|x xs IH]; simpl; constructor.
  - intros y Hy. apply filter_In in Hy. destruct Hy as [_ Hy].
    now apply negb_true_iff in Hy.
  - now apply Distinct_filter.
Qed.

Lemma series_drop_duplicates_values (s : Series) :
  values (series_drop_duplicates s) = dedup cell_eqb (values s).
Proof.
  unfold series_drop_duplicates, values. symmetry.
  apply (dedup_map snd (fun a b => cell_eqb (snd a) (snd b)) cell_eqb).
  reflexivity.
Qed.

(** The metadata [construct] derives from the metrics table are valid. *)
Lemma derived_metadata_valid (float_repr : Q -> string) (df : DataFrame) (s : Series) :
  wf_frame df ->
  mem_str Columns.Model (columns df) = true ->
  get_column (normalized_table float_repr df) Columns.Model = Ok s ->
  _validate_models_metadata
    (PyFrame (to_frame Columns.Model (series_drop_duplicates s))) = Ok tt.
Proof.
  intros Hwf Hm Hs. destruct (index_of_Some _ _ Hm) as [i Hi].
  assert (Hstr : forall c, In c (values s) -> exists t, c = CStr t).
  { intros c Hc. unfold get_column in Hs.
    rewrite normalized_table_columns, Hi in Hs. inversion Hs; subst s; clear Hs.
    unfold values in Hc. rewrite map_map in Hc. apply in_map_iff in Hc.
    destruct Hc as [r [<- Hr]]. cbn [snd].
    destruct (normalized_table_model _ _ _ _ Hwf Hi Hr) as (r0 & _ & _ & _ & ->).
    eauto. }
  unfold _validate_models_metadata, to_frame, get_column. cbn [columns rows mem_str existsb index_of].
  rewrite String.eqb_refl. cbn [orb negb bind].
  rewrite !map_map. cbn [fst snd cell_at nth].
  set (d := series_drop_duplicates s).
  assert (Ed : map (fun x : cell * cell => (fst x, snd x)) d = d).
  { rewrite <- (map_id d) at 2. apply map_ext. now intros []. }
  rewrite Ed, length_map.
  assert (Hfull : nunique d = length d).
  { apply nunique_full. unfold d. rewrite series_drop_duplicates_values. split.
    - apply Distinct_dedup.
    - intro Hin. apply dedup_In in Hin. destruct (Hstr _ Hin). discriminate. }
  rewrite Hfull, Nat.eqb_refl. cbn [negb].
  assert (Hnull : series_has_null d = false).
  { unfold series_has_null. destruct (existsb isnull (values d)) eqn:E; auto.
    apply existsb_isnull in E. apply nunique_full in Hfull. tauto. }
  now rewrite Hnull.
Qed.

(** The model column of a table after the names validator holds strings. *)
Lemma normalized_model_strings (float_repr : Q -> string) (df : DataFrame) (s : Series) :
  wf_frame df ->
  get_column (normalized_table float_repr df) Columns.Model = Ok s ->
  (forall c, In c (values s) -> exists t, c = CStr t) /\
  forall i, index_of Columns.Model (columns df) = Some i ->
            values s = map (cell_at i) (rows (normalized_table float_repr df)).
Proof.
  intros Hwf Hs. unfold get_column in Hs. rewrite normalized_table_columns in Hs.
  destruct (index_of Columns.Model (columns df)) as [i|] eqn:Hi; [|discriminate].
  inversion Hs; subst s; clear Hs. unfold values. rewrite map_map. cbn [snd]. split.
  - intros c Hc. apply in_map_iff in Hc. destruct Hc as [r [<- Hr]].
    destruct (normalized_table_model _ _ _ _ Hwf Hi Hr) as (r0 & _ & _ & _ & ->).
    eauto.
  - intros i' E. now inversion E.
Qed.

(** Without metadata and without display, [construct] goes through once
    the three validators have passed. *)
Lemma validators_pass_construct (float_repr : Q -> string) (df : DataFrame)
      (show_legend : bool) :
  wf_frame df ->
  _validate_models_metrics_base (PyFrame df) = Ok tt ->
  _validate_models_metrics_split float_repr df = Ok tt ->
  fst (_validate_models_metrics_names float_repr df) = Ok tt ->
  exists a0,
    fst (construct float_repr (PyFrame df) None show_legend false) = Ok a0.
Proof.
  intros Hwf Hb Hs Hn. unfold construct. rewrite Hb, Hs.
  pose proof (names_validator_table float_repr df) as Ht.
  destruct (_validate_models_metrics_names float_repr df) as [r df'] eqn:En.
  cbn [fst snd] in Hn, Ht. subst r df'. cbn [fst].
  destruct (validate_base_ok _ Hb) as [Hm _].
  assert (Hm' : mem_str Columns.Model (columns (normalized_table float_repr df)) = true)
    by now rewrite normalized_table_columns.
  destruct (get_column_mem _ _ Hm') as [s Hs'].
  destruct (index_of_Some _ _ Hm) as [i Hi].
  assert (Hi' : index_of Columns.Model (columns (normalized_table float_repr df)) = Some i)
    by now rewrite normalized_table_columns.
  destruct (normalized_model_strings float_repr df s Hwf Hs') as [Hstr Hvals].
  unfold construct_merged. rewrite Hs'. cbn [bind].
  pose proof (derived_metadata_valid float_repr df s Hwf Hm Hs') as Hv.
  rewrite Hv. cbn [bind].
  set (metadata := to_frame Columns.Model (series_drop_duplicates s)) in *.
  destruct (validate_metadata_ok _ Hv) as (j & Hj & _).
  destruct (merge_left (normalized_table float_repr df) metadata Columns.Model)
    as [merged|e] eqn:Eg.
  - destruct (merge_left_columns _ _ _ _ _ Hi' Hj Eg) as [_ Hidx].
    cbn [bind]. unfold get_column. rewrite Hidx. cbn [bind].
    unfold __init__. eauto.
  - exfalso. unfold merge_left in Eg. rewrite Hi', Hj in Eg.
    rewrite strings_no_clash in Eg; [discriminate| |].
    + intros c Hc. apply Hstr. now rewrite (Hvals i Hi).
    + intros c Hc. unfold metadata, to_frame in Hc, Hj. cbn [rows columns] in Hc, Hj.
      cbn [index_of] in Hj. rewrite String.eqb_refl in Hj. inversion Hj; subst j.
      rewrite map_map in Hc. cbn [cell_at snd nth] in Hc.
      fold (values (series_drop_duplicates s)) in Hc.
      rewrite series_drop_duplicates_values in Hc. apply dedup_In in Hc.
      now apply Hstr.
Qed.

(** With and without display, [construct] hands the same fields to
    [__init__]. *)
Lemma construct_as_init (float_repr : Q -> string) (mm : pyobj) (md : option pyobj)
      (sl : bool) (a0 : MetricsApp) :
  fst (construct float_repr mm md sl false) = Ok a0 ->
  forall ad, fst (construct float_repr mm md sl ad)
             = __init__ (data a0) (metric_names a0) (meta_names a0) sl ad.
Proof.
  unfold construct.
  destruct (_validate_models_metrics_base mm) as [[]|e]; [|discriminate].
  destruct mm as [df|]; [|discriminate].
  destruct (_validate_models_metrics_split float_repr df) as [[]|e]; [|discriminate].
  destruct (_validate_models_metrics_names float_repr df) as [[[]|e] df'];
    [|discriminate].
  cbn [fst]. unfold construct_merged.
  destruct (match md with
            | Some o => Ok o
            | None => m <- get_column df' Columns.Model;;
                      Ok (PyFrame (to_frame Columns.Model (series_drop_duplicates m)))
            end) as [o|e]; [|discriminate].
  cbn [bind]. destruct (_validate_models_metadata o) as [[]|e]; [|discriminate].
  cbn [bind]. destruct o as [metadata|]; [|discriminate].
  destruct (merge_left df' metadata Columns.Model) as [merged|e]; [|discriminate].
  cbn [bind]. destruct (get_column merged Columns.Model) as [m|e]; [|discriminate].
  cbn [bind]. unfold __init__ at 1. intro H. inversion H; subst a0; clear H.
  reflexivity.
Qed.

(** X1: on a rectangular metrics table, [construct] returns an object only
    when the three validators of the metrics table pass and, if metadata
    are given, the metadata validator passes. Without metadata and with
    [auto_display] off, it returns an object exactly when the three
    validators pass: the metadata derived from the table are always valid,
    and the join of the table with them cannot fail. *)
Theorem construct_succeeds_iff_validators_pass (float_repr : Q -> string)
        (df : DataFrame) (models_metadata : option pyobj)
        (show_legend auto_display : bool) :
  wf_frame df ->
  ((exists a0,
       fst (construct float_repr (PyFrame df) models_metadata show_legend auto_display)
       = Ok a0) ->
   _validate_models_metrics_base (PyFrame df) = Ok tt /\
   _validate_models_metrics_split float_repr df = Ok tt /\
   fst (_validate_models_metrics_names float_repr df) = Ok tt /\
   match models_metadata with
   | Some o => _validate_models_metadata o = Ok tt
   | None => True
   end) /\
  ((exists a0,
       fst (construct float_repr (PyFrame df) None show_legend false) = Ok a0) <->
   _validate_models_metrics_base (PyFrame df) = Ok tt /\
   _validate_models_metrics_split float_repr df = Ok tt /\
   fst (_validate_models_metrics_names float_repr df) = Ok tt).
Proof.
  intro Hwf.
  assert (Honly : forall md ad,
             (exists a0, fst (construct float_repr (PyFrame df) md show_legend ad) = Ok a0) ->
             _validate_models_metrics_base (PyFrame df) = Ok tt /\
             _validate_models_metrics_split float_repr df = Ok tt /\
             fst (_validate_models_metrics_names float_repr df) = Ok tt /\
             match md with
             | Some o => _validate_models_metadata o = Ok tt
             | None => True
             end).
  { intros md ad [a0 Hc]. apply construct_inv in Hc.
    destruct Hc as (df0 & df' & metadata & merged & m & ac & E0 & Hb & Hs & Hn & Hmd
                    & Hv & _).
    inversion E0; subst df0. repeat split; auto.
    - now rewrite Hn.
    - destruct md as [o|]; auto. now subst o. }
  split; [apply Honly|]. split.
  - intro H. destruct (Honly None false H) as (Hb & Hs & Hn & _). auto.
  - intros (Hb & Hs & Hn). now apply validators_pass_construct.
Qed.

Lemma construct_succeeds_iff_validators_pass_witness :
  ((exists a0,
       fst (construct repr_example (PyFrame DF_METRICS) (Some (PyFrame metadata_df))
                      true false) = Ok a0) ->
   _validate_models_metrics_base (PyFrame DF_METRICS) = Ok tt /\
   _validate_models_metrics_split repr_example DF_METRICS = Ok tt /\
   fst (_validate_models_metrics_names repr_example DF_METRICS) = Ok tt /\
   _validate_models_metadata (PyFrame metadata_df) = Ok tt) /\
  ((exists a0,
       fst (construct repr_example (PyFrame DF_METRICS) None true false) = Ok a0) <->
   _validate_models_metrics_base (PyFrame DF_METRICS) = Ok tt /\
   _validate_models_metrics_split repr_example DF_METRICS = Ok tt /\
   fst (_validate_models_metrics_names repr_example DF_METRICS) = Ok tt).
Proof.
  apply (construct_succeeds_iff_validators_pass
           repr_example DF_METRICS (Some (PyFrame metadata_df)) true false).
  unfold wf_frame. repeat constructor.
Defined.

(** X2: the lists of names of a constructed object: there is at least one
    metric name; the metric names are columns of the metrics table other
    than the model and fold columns; the model column is no metadata name;
    and without metadata there is no metadata name at all. *)
Theorem constructed_names (float_repr : Q -> string) (df : DataFrame)
        (models_metadata : option pyobj) (show_legend auto_display : bool)
        (a0 : MetricsApp) :
  fst (construct float_repr (PyFrame df) models_metadata show_legend auto_display)
  = Ok a0 ->
  metric_names a0 <> [] /\
  (forall c, In c (metric_names a0) <->
             In c (columns df) /\ c <> Columns.Model /\ c <> Columns.Split) /\
  (forall c, In c (meta_names a0) -> c <> Columns.Model) /\
  (models_metadata = None -> meta_names a0 = []).
Proof.
  intro Hc. apply construct_inv in Hc.
  destruct Hc as (df0 & df' & metadata & merged & m & ac & E0 & Hb & _ & Hn & Hmd & _ & _ & _ & ->).
  inversion E0; subst df0; clear E0. cbn [metric_names meta_names].
  assert (Ecols : columns df' = columns df).
  { pose proof (names_validator_table float_repr df) as Ht. rewrite Hn in Ht.
    cbn [snd] in Ht. subst df'. apply normalized_table_columns. }
  rewrite Ecols. repeat split.
  - unfold _validate_models_metrics_base in Hb.
    destruct (mem_str Columns.Model (columns df)); [|discriminate]. cbn [negb] in Hb.
    destruct (filter is_metric_column (columns df)); [discriminate|]. discriminate.
  - apply filter_In in H. tauto.
  - apply filter_In in H. destruct H as [_ H]. unfold is_metric_column in H.
    apply negb_true_iff, orb_false_iff in H. destruct H as [H _].
    now apply String.eqb_neq.
  - apply filter_In in H. destruct H as [_ H]. unfold is_metric_column in H.
    apply negb_true_iff, orb_false_iff in H. destruct H as [_ H].
    now apply String.eqb_neq.
  - intros (H1 & H2 & H3). apply filter_In. split; auto.
    unfold is_metric_column. apply negb_true_iff, orb_false_iff.
    split; now apply String.eqb_neq.
  - intros c H. apply filter_In in H. destruct H as [_ H].
    now apply negb_true_iff, String.eqb_neq in H.
  - intros ->. destruct Hmd as (s & _ & ->). cbn [to_frame columns filter].
    now rewrite String.eqb_refl.
Qed.

Lemma constructed_names_witness :
  metric_names app_with_metadata <> [] /\
  (forall c, In c (metric_names app_with_metadata) <->
             In c (columns DF_METRICS) /\ c <> Columns.Model /\ c <> Columns.Split) /\
  (forall c, In c (meta_names app_with_metadata) -> c <> Columns.Model) /\
  (Some (PyFrame metadata_df) = None -> meta_names app_with_metadata = []).
Proof.
  apply (constructed_names repr_example DF_METRICS (Some (PyFrame metadata_df))
                           true false app_with_metadata).
  vm_compute. reflexivity.
Defined.

(** ** What the names validator does to the table *)

Lemma map_fixed {A : Type} (f : A -> A) (l : list A) :
  map f l = l <-> forall x, In x l -> f x = x.
Proof.
  induction l as [|x xs IH]; simpl.
  - split; auto. tauto.
  - split.
    + intros H y Hy. inversion H as [[H1 H2]].
      destruct Hy as [<-|Hy]; auto. apply IH; auto.
    + intro H. f_equal; [apply H; auto|]. apply IH. auto.
Qed.

Lemma column_values_normalized_other (float_repr : Q -> string) (df : DataFrame)
      (c : string) :
  c <> Columns.Model ->
  column_values (normalized_table float_repr df) c = column_values df c.
Proof.
  intro Hc. unfold column_values. rewrite normalized_table_columns.
  destruct (index_of c (columns df)) as [q|] eqn:Eq; auto.
  unfold normalized_table.
  destruct (index_of Columns.Model (columns df)) as [i|] eqn:Ei; auto.
  cbn [rows]. rewrite map_map. apply map_ext. intro r.
  apply cell_at_normalized. intros ->. apply Hc. eapply index_of_inj; eauto.
Qed.

Lemma normalized_table_labels (float_repr : Q -> string) (df : DataFrame) :
  map fst (rows (normalized_table float_repr df)) = map fst (rows df).
Proof.
  unfold normalized_table.
  destruct (index_of Columns.Model (columns df)); auto.
  cbn [rows]. now rewrite map_map.
Qed.

Lemma column_values_normalized_model (float_repr : Q -> string) (df : DataFrame) :
  wf_frame df ->
  column_values (normalized_table float_repr df) Columns.Model
  = map (fun c => CStr (normalized_name float_repr c)) (column_values df Columns.Model).
Proof.
  intro Hwf. unfold column_values. rewrite normalized_table_columns.
  destruct (index_of Columns.Model (columns df)) as [i|] eqn:Ei; auto.
  unfold normalized_table. rewrite Ei. cbn [rows]. rewrite !map_map.
  apply map_ext_in. intros r Hr. apply cell_at_normalized_same.
  unfold wf_frame in Hwf. rewrite Forall_forall in Hwf. rewrite (Hwf r Hr).
  now apply index_of_lt in Ei.
Qed.

(** X3: whatever its verdict, the names validator keeps the column names,
    the row labels and every column other than the model column of the
    table it is given; on a rectangular table the model column it leaves
    holds the normal form of each name, in the same order. *)
Theorem names_validator_frame (float_repr : Q -> string) (df : DataFrame) :
  let df' := snd (_validate_models_metrics_names float_repr df) in
  columns df' = columns df /\
  map fst (rows df') = map fst (rows df) /\
  (forall c, c <> Columns.Model -> column_values df' c = column_values df c) /\
  (wf_frame df ->
   column_values df' Columns.Model
   = map (fun c => CStr (normalized_name float_repr c))
         (column_values df Columns.Model)).
Proof.
  cbv zeta. rewrite names_validator_table. repeat split.
  - apply normalized_table_columns.
  - apply normalized_table_labels.
  - intros c Hc. now apply column_values_normalized_other.
  - apply column_values_normalized_model.
Qed.

Lemma normalized_name_fixed (float_repr : Q -> string) (c : cell) :
  CStr (normalized_name float_repr c) = c <->
  exists s, c = CStr s /\ has_space s = false.
Proof.
  split.
  - intro H. exists (normalized_name float_repr c). split; [now symmetry|].
    apply replace_space_no_space.
  - intros [s [-> Hs]]. unfold normalized_name. cbn [py_str].
    now rewrite replace_space_fixed.
Qed.

Lemma set_nth_fixed {A : Type} (i : nat) (v d : A) (l : list A) :
  (i < length l)%nat -> (set_nth i v l = l <-> v = nth i l d).
Proof.
  revert i. induction l as [|x xs IH]; intros [|i]; simpl; intro H; try lia.
  - split; intro E; [injection E as E1; exact E1|now subst].
  - rewrite <- (IH i) by lia.
    split; intro E; [injection E as E1; exact E1|now f_equal].
Qed.

Lemma normalized_table_fixed (float_repr : Q -> string) (df : DataFrame) :
  wf_frame df ->
  mem_str Columns.Model (columns df) = true ->
  (normalized_table float_repr df = df <->
   forall c, In c (column_values df Columns.Model) ->
             exists s, c = CStr s /\ has_space s = false).
Proof.
  intros Hwf Hm. destruct (index_of_Some _ _ Hm) as [i Hi].
  pose proof (index_of_lt _ _ _ Hi) as [Hlt _].
  unfold wf_frame in Hwf. rewrite Forall_forall in Hwf.
  unfold normalized_table, column_values. rewrite Hi.
  destruct df as [cols rs]. cbn [columns rows] in *.
  assert (Hrow : forall r, In r rs ->
            ((fst r, set_nth i (CStr (normalized_name float_repr (cell_at i r))) (snd r)) = r
             <-> exists s, cell_at i r = CStr s /\ has_space s = false)).
  { intros r Hr. rewrite <- normalized_name_fixed. destruct r as [lab cells].
    cbn [fst snd]. unfold cell_at. cbn [snd].
    rewrite <- (set_nth_fixed i _ CNaN cells)
      by (pose proof (Hwf _ Hr) as Hw; cbn [snd] in Hw; rewrite Hw; exact Hlt).
    split; intro E; [injection E as E1; exact E1|now f_equal]. }
  split.
  - intros E c Hc. apply in_map_iff in Hc. destruct Hc as [r [<- Hr]].
    apply Hrow; auto. injection E as E'.
    apply (proj1 (map_fixed _ rs) E' r Hr).
  - intro H. f_equal. apply map_fixed. intros r Hr. apply Hrow; auto.
    apply H. now apply in_map.
Qed.

(** X4: on a rectangular table with a model column, the names validator
    leaves the table as it was exactly when every model name is a string
    without a space. *)
Theorem names_validator_keeps_table_iff (float_repr : Q -> string) (df : DataFrame) :
  wf_frame df ->
  mem_str Columns.Model (columns df) = true ->
  (snd (_validate_models_metrics_names float_repr df) = df <->
   forall c, In c (column_values df Columns.Model) ->
             exists s, c = CStr s /\ has_space s = false).
Proof.
  intros Hwf Hm. rewrite names_validator_table. now apply normalized_table_fixed.
Qed.

Lemma names_validator_keeps_table_iff_witness :
  snd (_validate_models_metrics_names repr_example DF_METRICS) = DF_METRICS <->
  forall c, In c (column_values DF_METRICS Columns.Model) ->
            exists s, c = CStr s /\ has_space s = false.
Proof.
  apply (names_validator_keeps_table_iff repr_example DF_METRICS).
  - unfold wf_frame. repeat constructor.
  - reflexivity.
Defined.

Lemma normalized_table_idem (float_repr : Q -> string) (df : DataFrame) :
  wf_frame df ->
  normalized_table float_repr (normalized_table float_repr df)
  = normalized_table float_repr df.
Proof.
  intro Hwf. destruct (mem_str Columns.Model (columns df)) eqn:Hm.
  - apply normalized_table_fixed.
    + now apply normalized_table_wf.
    + now rewrite normalized_table_columns.
    + intros c Hc. rewrite column_values_normalized_model in Hc by assumption.
      apply in_map_iff in Hc. destruct Hc as [c0 [<- _]].
      eexists. split; [reflexivity|]. apply replace_space_no_space.
  - apply index_of_None in Hm. unfold normalized_table at 1.
    rewrite normalized_table_columns, Hm. reflexivity.
Qed.

Lemma names_validator_verdict (float_repr : Q -> string) (df : DataFrame) :
  wf_frame df ->
  mem_str Columns.Model (columns df) = true ->
  fst (_validate_models_metrics_names float_repr (normalized_table float_repr df))
  = fst (_validate_models_metrics_names float_repr df).
Proof.
  intros Hwf Hm.
  pose proof (normalized_table_wf float_repr df Hwf) as Hwf'.
  assert (Hm' : mem_str Columns.Model (columns (normalized_table float_repr df)) = true)
    by now rewrite normalized_table_columns.
  destruct (index_of_Some _ _ Hm) as [i Hi].
  pose proof (index_of_lt _ _ _ Hi) as [Hlt _].
  assert (Hrows : rows (normalized_table float_repr df)
                  = map (fun r => (fst r,
                                   set_nth i (CStr (normalized_name float_repr (cell_at i r)))
                                           (snd r))) (rows df)).
  { unfold normalized_table. now rewrite Hi. }
  assert (Hmodel : forall r, In r (rows df) ->
            normalized_name float_repr
              (cell_of (normalized_table float_repr df) Columns.Model
                       (fst r, set_nth i (CStr (normalized_name float_repr (cell_at i r)))
                                       (snd r)))
            = normalized_name float_repr (cell_of df Columns.Model r)).
  { intros r Hr. unfold cell_of. rewrite normalized_table_columns, Hi.
    rewrite cell_at_normalized_same.
    - unfold normalized_name at 1. cbn [py_str]. apply replace_space_idem.
    - unfold wf_frame in Hwf. rewrite Forall_forall in Hwf. now rewrite (Hwf r Hr). }
  destruct (mem_str Columns.Split (columns df)) eqn:Hs.
  - assert (Hs' : mem_str Columns.Split (columns (normalized_table float_repr df)) = true)
      by now rewrite normalized_table_columns.
    rewrite (names_validator_fold _ _ Hwf' Hm' Hs'), (names_validator_fold _ _ Hwf Hm Hs).
    rewrite Hrows, map_map, !length_map. cbn [fst].
    destruct (index_of_Some _ _ Hs) as [j Hj].
    assert (Hij : i <> j).
    { intros ->. pose proof (index_of_inj _ _ _ _ Hi Hj). discriminate. }
    assert (E : map (fun x : cell * list cell =>
                       (fst x,
                        CStr (normalized_name float_repr
                                (cell_of (normalized_table float_repr df) Columns.Model
                                   (fst x, set_nth i (CStr (normalized_name float_repr (cell_at i x))) (snd x)))
                              ++ py_str float_repr
                                   (cell_of (normalized_table float_repr df) Columns.Split
                                      (fst x, set_nth i (CStr (normalized_name float_repr (cell_at i x))) (snd x))))%string))
                    (rows df)
                = map (fun r => (fst r,
                                 CStr (normalized_name float_repr (cell_of df Columns.Model r)
                                       ++ py_str float_repr (cell_of df Columns.Split r))%string))
                      (rows df)).
    { apply map_ext_in. intros r Hr. rewrite (Hmodel r Hr). do 4 f_equal.
      unfold cell_of. rewrite normalized_table_columns, Hj.
      now apply cell_at_normalized. }
    now rewrite E.
  - assert (Hs' : mem_str Columns.Split (columns (normalized_table float_repr df)) = false)
      by now rewrite normalized_table_columns.
    rewrite (names_validator_no_fold _ _ Hwf' Hm' Hs'),
      (names_validator_no_fold _ _ Hwf Hm Hs).
    rewrite Hrows, map_map, !length_map. cbn [fst].
    assert (E : map (fun x : cell * list cell =>
                       (fst x,
                        CStr (normalized_name float_repr
                                (cell_of (normalized_table float_repr df) Columns.Model
                                   (fst x, set_nth i (CStr (normalized_name float_repr (cell_at i x))) (snd x))))))
                    (rows df)
                = map (fun r => (fst r, CStr (normalized_name float_repr
                                                (cell_of df Columns.Model r))))
                      (rows df)).
    { apply map_ext_in. intros r Hr. now rewrite (Hmodel r Hr). }
    now rewrite E.
Qed.

(** X5: on a rectangular table with a model column, running the names
    validator a second time, on the table the first run left, gives the same
    verdict and changes nothing more. *)
Theorem names_validator_idempotent (float_repr : Q -> string) (df : DataFrame) :
  wf_frame df ->
  mem_str Columns.Model (columns df) = true ->
  _validate_models_metrics_names
    float_repr (snd (_validate_models_metrics_names float_repr df))
  = _validate_models_metrics_names float_repr df.
Proof.
  intros Hwf Hm.
  rewrite (surjective_pairing
             (_validate_models_metrics_names
                float_repr (snd (_validate_models_metrics_names float_repr df)))).
  rewrite (surjective_pairing (_validate_models_metrics_names float_repr df)) at 3.
  rewrite !names_validator_table. f_equal.
  - now apply names_validator_verdict.
  - now apply normalized_table_idem.
Qed.

Lemma names_validator_idempotent_witness :
  _validate_models_metrics_names
    repr_example (snd (_validate_models_metrics_names repr_example metrics_spaced))
  = _validate_models_metrics_names repr_example metrics_spaced.
Proof.
  apply (names_validator_idempotent repr_example metrics_spaced).
  - unfold wf_frame. repeat constructor.
  - reflexivity.
Defined.

(** ** What [construct] does to the caller's table *)

(** X6: [construct] leaves the metrics table of its caller as it was
    exactly when the base or the split validator rejects it, or when every
    model name is a string without a space; in every other case the model
    column of the caller's table has been rewritten, whether [construct]
    goes on to succeed or not. *)
Theorem construct_keeps_table_iff (float_repr : Q -> string) (df : DataFrame)
        (models_metadata : option pyobj) (show_legend auto_display : bool) :
  wf_frame df ->
  (snd (construct float_repr (PyFrame df) models_metadata show_legend auto_display)
   = PyFrame df <->
   _validate_models_metrics_base (PyFrame df) <> Ok tt \/
   _validate_models_metrics_split float_repr df <> Ok tt \/
   forall c, In c (column_values df Columns.Model) ->
             exists s, c = CStr s /\ has_space s = false) /\
  (_validate_models_metrics_base (PyFrame df) = Ok tt ->
   _validate_models_metrics_split float_repr df = Ok tt ->
   snd (construct float_repr (PyFrame df) models_metadata show_legend auto_display)
   = PyFrame (normalized_table float_repr df)).
Proof.
  intro Hwf. unfold construct.
  destruct (_validate_models_metrics_base (PyFrame df)) as [[]|e] eqn:Hb.
  2:{ split; [|discriminate]. split; auto. intros _. left. discriminate. }
  destruct (_validate_models_metrics_split float_repr df) as [[]|e] eqn:Hs.
  2:{ split; [|discriminate]. split; auto. intros _. right. left. discriminate. }
  destruct (validate_base_ok _ Hb) as [Hm _].
  pose proof (names_validator_table float_repr df) as Ht.
  pose proof (normalized_table_fixed float_repr df Hwf Hm) as Hfix.
  assert (Hgoal : snd match _validate_models_metrics_names float_repr df with
                      | (Ok _, df') =>
                          (construct_merged df' models_metadata show_legend auto_display,
                           PyFrame df')
                      | (Raise e, df') => (Raise e, PyFrame df')
                      end
                  = PyFrame (normalized_table float_repr df)).
  { destruct (_validate_models_metrics_names float_repr df) as [[[]|e] df'];
      cbn [snd] in *; now subst. }
  rewrite Hgoal. split; [|auto]. split.
  - intro E. right. right. apply Hfix. now injection E.
  - intros [H|[H|H]]; try congruence. f_equal. now apply Hfix.
Qed.

Lemma construct_keeps_table_iff_witness :
  (snd (construct repr_example (PyFrame metrics_spaced) None true false)
   = PyFrame metrics_spaced <->
   _validate_models_metrics_base (PyFrame metrics_spaced) <> Ok tt \/
   _validate_models_metrics_split repr_example metrics_spaced <> Ok tt \/
   forall c, In c (column_values metrics_spaced Columns.Model) ->
             exists s, c = CStr s /\ has_space s = false) /\
  (_validate_models_metrics_base (PyFrame metrics_spaced) = Ok tt ->
   _validate_models_metrics_split repr_example metrics_spaced = Ok tt ->
   snd (construct repr_example (PyFrame metrics_spaced) None true false)
   = PyFrame (normalized_table repr_example metrics_spaced)).
Proof.
  apply (construct_keeps_table_iff repr_example metrics_spaced None true false).
  unfold wf_frame. repeat constructor.
Defined.

(** ** The join made by [construct] *)

(** The data of a constructed object, row by row. *)
Lemma construct_join (float_repr : Q -> string) (df : DataFrame)
      (md : option pyobj) (sl ad : bool) (a0 : MetricsApp) :
  wf_frame df ->
  fst (construct float_repr (PyFrame df) md sl ad) = Ok a0 ->
  exists i metadata j,
    index_of Columns.Model (columns df) = Some i /\
    index_of Columns.Model (columns metadata) = Some j /\
    index_of Columns.Model (columns (data a0)) = Some i /\
    match md with
    | None => columns metadata = [Columns.Model] /\
              Forall (fun r => length (snd r) = 1%nat) (rows metadata)
    | Some o => o = PyFrame metadata
    end /\
    Distinct cell_eqb (map (cell_at j) (rows metadata)) /\
    merge_left (normalized_table float_repr df) metadata Columns.Model = Ok (data a0) /\
    meta_names a0
    = filter (fun col => negb (String.eqb col Columns.Model)) (columns metadata) /\
    rows (data a0)
    = range_index
        (map (fun l => snd l
                       ++ hd [] (merge_extra
                                   (merge_right (normalized_table float_repr df)
                                                metadata i j)
                                   j (cell_at i l)))
             (rows (normalized_table float_repr df))).
Proof.
  intros Hwf Hc.
  destruct (construct_data _ _ _ _ _ _ Hwf Hc)
    as (i & _ & _ & Hi & _ & _ & _ & _ & _ & _ & _).
  pose proof Hc as Hinv. apply construct_inv in Hinv.
  destruct Hinv as (df0 & df' & metadata & merged & m & ac & E0 & Hb & _ & Hn & Hmd & Hv
                    & Hm & Hg & Ea).
  inversion E0; subst df0; clear E0.
  destruct (validate_metadata_ok _ Hv) as (j & Hj & Hd & _).
  assert (Edf' : df' = normalized_table float_repr df).
  { rewrite <- names_validator_table. now rewrite Hn. }
  subst df'.
  assert (Hi' : index_of Columns.Model (columns (normalized_table float_repr df)) = Some i)
    by now rewrite normalized_table_columns.
  destruct (merge_left_columns _ _ _ _ _ Hi' Hj Hm) as [Hrows Hidx].
  assert (Edata : data a0 = merged).
  { destruct (construct_data _ _ _ _ _ _ Hwf Hc)
      as (i2 & md2 & j2 & _ & _ & _ & _ & Hm2 & _).
    subst a0. cbn [data] in *.
    assert (Em : m = map (fun r => (fst r, cell_at i r)) (rows merged)).
    { unfold get_column in Hg. rewrite Hidx in Hg. now inversion Hg. }
    rewrite Em. apply set_column_same; auto.
    intros r Hr.
    destruct (merged_row_origin _ _ _ _ _ _ Hi' Hj Hm Hr) as (l & e & Hl & _ & Hs).
    destruct (normalized_table_model _ _ _ _ Hwf Hi Hl) as (r0 & Hr0 & _ & Hset & Hcell).
    pose proof (normalized_table_wf float_repr _ Hwf) as Hwf'.
    unfold wf_frame in Hwf'. rewrite Forall_forall in Hwf'.
    pose proof (Hwf' l Hl) as Hlen. rewrite normalized_table_columns in Hlen.
    pose proof (index_of_lt _ _ _ Hi) as [Hlt _].
    assert (Hcl : cell_at i r = cell_at i l).
    { unfold cell_at. rewrite Hs. apply app_nth1. lia. }
    split.
    - rewrite Hs, length_app. lia.
    - rewrite Hcl, Hcell. unfold str_replace, normalized_name.
      now rewrite replace_space_idem. }
  exists i, metadata, j. rewrite Edata.
  repeat (split; [assumption|]). split.
  { destruct md as [o|]; auto. destruct Hmd as (s & _ & ->).
    split; [reflexivity|]. unfold to_frame. cbn [rows]. apply Forall_map.
    apply Forall_forall. reflexivity. }
  split; [assumption|]. split; [assumption|]. split.
  { subst a0. reflexivity. }
  rewrite Hrows. f_equal. apply flat_map_single. intros l _.
  rewrite <- (merge_right_keys (normalized_table float_repr df) metadata i j) in Hd.
  destruct (merge_extra_single _ j (cell_at i l) Hd) as [e ->]. reflexivity.
Qed.

Lemma range_index_length {A : Type} (l : list A) : length (range_index l) = length l.
Proof.
  unfold range_index. rewrite length_combine, length_map, length_seq. lia.
Qed.

Lemma range_index_labels {A : Type} (l : list A) :
  map fst (range_index l) = map (fun n => CInt (Z.of_nat n)) (seq 0 (length l)).
Proof.
  unfold range_index.
  assert (H : forall (ks : list cell), length ks = length l ->
                                       map fst (combine ks l) = ks).
  { induction l as [|x xs IH]; intros [|k ks]; simpl; intro H;
      try discriminate; auto. f_equal. apply IH. lia. }
  apply H. now rewrite length_map, length_seq.
Qed.

Lemma normalized_table_length (float_repr : Q -> string) (df : DataFrame) :
  length (rows (normalized_table float_repr df)) = length (rows df).
Proof.
  rewrite <- (length_map fst), normalized_table_labels. apply length_map.
Qed.

Lemma joined_column (float_repr : Q -> string) (df : DataFrame) (a0 : MetricsApp)
      (ext : cell * list cell -> list cell) (c : string) (q : nat) :
  wf_frame df ->
  rows (data a0)
  = range_index (map (fun l => snd l ++ ext l) (rows (normalized_table float_repr df))) ->
  index_of c (columns (data a0)) = Some q ->
  index_of c (columns df) = Some q ->
  column_values (data a0) c = column_values (normalized_table float_repr df) c.
Proof.
  intros Hwf Hrows Hq Hq'. unfold column_values.
  rewrite Hq, normalized_table_columns, Hq', Hrows.
  rewrite (map_range_index (cell_at q) (fun cells => nth q cells CNaN)) by reflexivity.
  rewrite map_map. apply map_ext_in. intros l Hl. unfold cell_at.
  apply app_nth1.
  pose proof (normalized_table_wf float_repr _ Hwf) as Hwf'.
  unfold wf_frame in Hwf'. rewrite Forall_forall in Hwf'.
  rewrite (Hwf' l Hl), normalized_table_columns. now apply index_of_lt in Hq'.
Qed.

Lemma construct_rows_kept (float_repr : Q -> string) (df : DataFrame)
        (models_metadata : option pyobj) (show_legend auto_display : bool)
        (a0 : MetricsApp) :
  wf_frame df ->
  fst (construct float_repr (PyFrame df) models_metadata show_legend auto_display)
  = Ok a0 ->
  length (rows (data a0)) = length (rows df) /\
  map fst (rows (data a0))
  = map (fun n => CInt (Z.of_nat n)) (seq 0 (length (rows df))) /\
  column_values (data a0) Columns.Model
  = map (fun c => CStr (normalized_name float_repr c)) (column_values df Columns.Model) /\
  ((forall c, In c (meta_names a0) -> ~ In c (columns df)) ->
   forall c, In c (columns df) -> c <> Columns.Model ->
             column_values (data a0) c = column_values df c).
Proof.
  intros Hwf Hc.
  destruct (construct_join _ _ _ _ _ _ Hwf Hc)
    as (i & metadata & j & Hi & Hj & Hidx & _ & _ & Hm & Hns & Hrows).
  assert (Hlen : length (rows (data a0)) = length (rows df)).
  { now rewrite Hrows, range_index_length, length_map, normalized_table_length. }
  split; [assumption|]. split.
  { rewrite <- Hlen, Hrows at 1. rewrite range_index_labels.
    now rewrite Hrows, range_index_length. }
  split.
  { rewrite (joined_column float_repr df a0 _ Columns.Model i Hwf Hrows Hidx Hi).
    now apply column_values_normalized_model. }
  intros Hdisj c Hin Hcm.
  assert (Hi' : index_of Columns.Model (columns (normalized_table float_repr df)) = Some i)
    by now rewrite normalized_table_columns.
  assert (Hcols : columns (data a0) = columns df ++ remove_nth j (columns metadata)).
  { rewrite <- (normalized_table_columns float_repr df).
    apply (merged_columns_plain _ _ i j _ Hi' Hj Hm).
    intros x H1 H2. rewrite normalized_table_columns. apply Hdisj.
    rewrite Hns. apply filter_In. split; auto.
    apply negb_true_iff. now apply String.eqb_neq. }
  destruct (index_of_Some c (columns df)) as [q Hq]; [now apply mem_str_In|].
  rewrite (joined_column float_repr df a0 _ c q Hwf Hrows); auto.
  - now apply column_values_normalized_other.
  - rewrite Hcols. now apply index_of_app_l.
Qed.

(** X7: [construct] neither drops nor repeats a row of a (rectangular)
    metrics table: the data of the object have as many rows, in the same
    order, under the labels 0, 1, 2, ...; their model column holds the
    normal forms of the model names; and, when the metadata reuse no column
    name of the metrics table, every other column of the metrics table is
    there unchanged. *)
Theorem construct_keeps_rows (float_repr : Q -> string) (df : DataFrame)
        (models_metadata : option pyobj) (show_legend auto_display : bool)
        (a0 : MetricsApp) :
  wf_frame df ->
  fst (construct float_repr (PyFrame df) models_metadata show_legend auto_display)
  = Ok a0 ->
  length (rows (data a0)) = length (rows df) /\
  map fst (rows (data a0))
  = map (fun n => CInt (Z.of_nat n)) (seq 0 (length (rows df))) /\
  column_values (data a0) Columns.Model
  = map (fun c => CStr (normalized_name float_repr c)) (column_values df Columns.Model) /\
  ((forall c, In c (meta_names a0) -> ~ In c (columns df)) ->
   forall c, In c (columns df) -> c <> Columns.Model ->
             column_values (data a0) c = column_values df c).
Proof.
  apply construct_rows_kept.
Qed.

Lemma construct_keeps_rows_witness :
  length (rows (data app_with_metadata)) = length (rows DF_METRICS) /\
  map fst (rows (data app_with_metadata))
  = map (fun n => CInt (Z.of_nat n)) (seq 0 (length (rows DF_METRICS))) /\
  column_values (data app_with_metadata) Columns.Model
  = map (fun c => CStr (normalized_name repr_example c))
        (column_values DF_METRICS Columns.Model) /\
  ((forall c, In c (meta_names app_with_metadata) -> ~ In c (columns DF_METRICS)) ->
   forall c, In c (columns DF_METRICS) -> c <> Columns.Model ->
             column_values (data app_with_metadata) c = column_values DF_METRICS c).
Proof.
  apply (construct_keeps_rows repr_example DF_METRICS (Some (PyFrame metadata_df))
                              true false app_with_metadata).
  - unfold wf_frame. repeat constructor.
  - vm_compute. reflexivity.
Defined.

Lemma nth_remove_nth {A : Type} (j p : nat) (l : list A) (d : A) :
  nth p (remove_nth j l) d = nth (if (p <? j)%nat then p else S p) l d.
Proof.
  revert j p. induction l as [|x xs IH]; intros j p.
  - destruct j, p; simpl; try reflexivity; destruct (_ <? _)%nat; reflexivity.
  - destruct j as [|j]; [reflexivity|]. destruct p as [|p]; [reflexivity|].
    cbn [remove_nth nth]. rewrite IH. change (S p <? S j)%nat with (p <? j)%nat.
    destruct (p <? j)%nat; reflexivity.
Qed.

Lemma index_of_remove_nth (c : string) (cols : list string) (j q : nat) :
  index_of c cols = Some q -> q <> j ->
  index_of c (remove_nth j cols) = Some (if (q <? j)%nat then q else (q - 1)%nat).
Proof.
  revert j q. induction cols as [|x xs IH]; intros j q; simpl; [discriminate|].
  destruct (String.eqb x c) eqn:E.
  - intros Hq Hj. inversion Hq; subst q. destruct j; [congruence|].
    simpl. now rewrite E.
  - destruct (index_of c xs) as [q'|] eqn:Eq; simpl; [|discriminate].
    intros Hq Hj. inversion Hq; subst q. destruct j as [|j].
    + simpl. rewrite Eq. f_equal. lia.
    + simpl. rewrite E. rewrite (IH j q' eq_refl) by lia. simpl.
      change (S q' <? S j)%nat with (q' <? j)%nat.
      destruct (q' <? j)%nat eqn:El; f_equal.
      apply Nat.ltb_ge in El. lia.
Qed.

Lemma nth_repeat_default {A : Type} (a : A) (n p : nat) : nth p (repeat a n) a = a.
Proof.
  revert p. induction n as [|n IH]; intros [|p]; simpl; auto.
Qed.

(** X8: in an object constructed from a (rectangular) metrics table and a
    metadata table that reuses none of its column names, every row carries
    the metadata recorded under the normal form of its model name. Where
    the metadata have a row whose model is that name, the row carries its
    cells: as they are, when every model has such a row or the column is
    not an integer column; as floats, when some model has none and the
    column is an integer column, which the missing values turn into a
    float column. Where the metadata have no such row, the row carries
    missing values. *)
Theorem construct_joins_metadata (float_repr : Q -> string) (df metadata : DataFrame)
        (show_legend auto_display : bool) (a0 : MetricsApp) :
  wf_frame df ->
  fst (construct float_repr (PyFrame df) (Some (PyFrame metadata))
                 show_legend auto_display) = Ok a0 ->
  (forall c, In c (meta_names a0) -> ~ In c (columns df)) ->
  forall r, In r (rows (data a0)) ->
    (forall mr, In mr (rows metadata) ->
                cell_of metadata Columns.Model mr = cell_of (data a0) Columns.Model r ->
                forall c, In c (meta_names a0) ->
                  (every_model_has_metadata float_repr df metadata \/
                   ~ integer_column metadata c ->
                   cell_of (data a0) c r = cell_of metadata c mr) /\
                  (~ every_model_has_metadata float_repr df metadata ->
                   integer_column metadata c ->
                   cell_of (data a0) c r = int_to_float (cell_of metadata c mr))) /\
    ((forall mr, In mr (rows metadata) ->
                 cell_of metadata Columns.Model mr <> cell_of (data a0) Columns.Model r) ->
     forall c, In c (meta_names a0) -> cell_of (data a0) c r = CNaN).
Proof.
  intros Hwf Hc Hdisj r Hr.
  destruct (construct_join _ _ _ _ _ _ Hwf Hc)
    as (i & md & j & Hi & Hj & Hidx & Emd & Hd & Hm & Hns & Hrows).
  inversion Emd; subst md; clear Emd.
  assert (Hi' : index_of Columns.Model (columns (normalized_table float_repr df)) = Some i)
    by now rewrite normalized_table_columns.
  assert (Hcols : columns (data a0) = columns df ++ remove_nth j (columns metadata)).
  { rewrite <- (normalized_table_columns float_repr df).
    apply (merged_columns_plain _ _ i j _ Hi' Hj Hm).
    intros x H1 H2. rewrite normalized_table_columns. apply Hdisj.
    rewrite Hns. apply filter_In. split; auto.
    apply negb_true_iff. now apply String.eqb_neq. }
  set (L := normalized_table float_repr df) in *.
  set (md' := merge_right L metadata i j) in *.
  destruct (merge_right_rows L metadata i j) as (f & Ef & Hf). fold md' in Ef.
  rewrite Hrows in Hr. apply range_index_In in Hr. apply in_map_iff in Hr.
  destruct Hr as [l [Hs Hl]].
  pose proof (normalized_table_wf float_repr _ Hwf) as Hwf'. fold L in Hwf'.
  unfold wf_frame in Hwf'. rewrite Forall_forall in Hwf'.
  pose proof (Hwf' l Hl) as Hlen. unfold L in Hlen.
  rewrite normalized_table_columns in Hlen.
  pose proof (index_of_lt _ _ _ Hi) as [Hilt _].
  pose proof (index_of_lt _ _ _ Hj) as [_ Hjnth].
  destruct (normalized_table_model _ _ _ _ Hwf Hi Hl) as (r0 & _ & _ & _ & Hcell).
  assert (Hkey : cell_of (data a0) Columns.Model r = cell_at i l).
  { unfold cell_of. rewrite Hidx. unfold cell_at. rewrite <- Hs.
    apply app_nth1. lia. }
  assert (Hmeta : forall c, In c (meta_names a0) ->
            exists q, index_of c (columns metadata) = Some q /\ q <> j /\
                      cell_of (data a0) c r
                      = nth (if (q <? j)%nat then q else (q - 1)%nat)
                            (hd [] (merge_extra md' j (cell_at i l))) CNaN).
  { intros c Hin. pose proof (Hdisj c Hin) as Hnot.
    rewrite Hns in Hin. apply filter_In in Hin. destruct Hin as [Hin Hmc].
    apply negb_true_iff, String.eqb_neq in Hmc.
    destruct (index_of_Some c (columns metadata)) as [q Hq]; [now apply mem_str_In|].
    assert (Hqj : q <> j).
    { intros ->. apply Hmc. eapply index_of_inj; eauto. }
    exists q. repeat split; auto.
    unfold cell_of. rewrite Hcols, index_of_app_r.
    - rewrite (index_of_remove_nth c _ j q Hq Hqj). cbn [option_map].
      unfold cell_at. rewrite <- Hs. rewrite app_nth2 by lia.
      f_equal. lia.
    - apply index_of_None. destruct (mem_str c (columns df)) eqn:E; auto.
      apply mem_str_In in E. contradiction. }
  assert (Hfilter : filter (fun x => cell_eqb (cell_at j x) (cell_at i l)) (rows md')
                    = map f (filter (fun x => cell_eqb (cell_at j x) (cell_at i l))
                                    (rows metadata))).
  { rewrite Ef, filter_map_comm. f_equal. apply filter_ext. intro x.
    now destruct (Hf x) as (_ & -> & _). }
  assert (Hall : all_matched L metadata i j = true <->
                 every_model_has_metadata float_repr df metadata).
  { unfold all_matched, every_model_has_metadata. rewrite forallb_forall. split.
    - intros H x0 Hx0.
      assert (Hx : In (fst x0, set_nth i (CStr (normalized_name float_repr (cell_at i x0)))
                                       (snd x0)) (rows L)).
      { unfold L, normalized_table. rewrite Hi. cbn [rows]. apply in_map_iff.
        exists x0. auto. }
      destruct (normalized_table_model _ _ _ _ Hwf Hi Hx) as (x1 & _ & _ & _ & Hc1).
      specialize (H _ Hx). apply existsb_exists in H. destruct H as (mr & Hmr & Hk).
      exists mr. split; auto. unfold cell_of. rewrite Hj, Hi.
      assert (Hc0 : cell_at i (fst x0, set_nth i (CStr (normalized_name float_repr
                                                          (cell_at i x0))) (snd x0))
                    = CStr (normalized_name float_repr (cell_at i x0))).
      { unfold cell_at at 1. cbn [snd]. apply nth_set_nth_same.
        unfold wf_frame in Hwf. rewrite Forall_forall in Hwf. rewrite (Hwf x0 Hx0).
        lia. }
      rewrite Hc0 in Hk. rewrite cell_eqb_sym in Hk. now apply cell_eqb_str in Hk.
    - intros H x Hx.
      destruct (normalized_table_model _ _ _ _ Hwf Hi Hx) as (x0 & Hx0 & _ & _ & Hcx).
      destruct (H x0 Hx0) as (mr & Hmr & Hk). apply existsb_exists.
      exists mr. split; auto. unfold cell_of in Hk. rewrite Hj, Hi in Hk.
      rewrite Hk, Hcx. apply cell_eqb_refl. }
  assert (Hint : forall c q, index_of c (columns metadata) = Some q ->
                             (int_column metadata q = true <-> integer_column metadata c)).
  { intros c q Hq. unfold int_column, integer_column, column_values. rewrite Hq.
    destruct (dtype_of (map (cell_at q) (rows metadata))); split; intro H;
      try discriminate; auto; destruct H; discriminate. }
  rewrite Hkey, Hcell. split.
  - intros mr Hmr Ek c Hin. destruct (Hmeta c Hin) as (q & Hq & Hqj & ->).
    unfold merge_extra. rewrite Hfilter.
    pose proof (Distinct_filter_single (cell_at j) (cell_at i l) (rows metadata) Hd) as Hone.
    assert (Hin' : In mr (filter (fun x => cell_eqb (cell_at j x) (cell_at i l))
                                 (rows metadata))).
    { apply filter_In. split; auto. unfold cell_of in Ek. rewrite Hj in Ek.
      rewrite Ek, Hcell. apply cell_eqb_refl. }
    destruct (filter (fun x => cell_eqb (cell_at j x) (cell_at i l)) (rows metadata))
      as [|x [|y ys]]; simpl in Hone, Hin'; try lia.
    destruct Hin' as [->|[]]. cbn [map hd].
    rewrite nth_remove_nth.
    assert (Eq : nth (if ((if (q <? j)%nat then q else (q - 1)%nat) <? j)%nat
                      then if (q <? j)%nat then q else (q - 1)%nat
                      else S (if (q <? j)%nat then q else (q - 1)%nat))
                     (snd (f mr)) CNaN
                 = cell_at q (f mr)).
    { unfold cell_at. f_equal. destruct (q <? j)%nat eqn:E1.
      + now rewrite E1.
      + apply Nat.ltb_ge in E1.
        destruct (q - 1 <? j)%nat eqn:E2; [apply Nat.ltb_lt in E2; lia|lia]. }
    rewrite Eq. destruct (Hf mr) as (_ & _ & _ & Hp). rewrite (Hp q).
    unfold cell_of. rewrite Hq.
    assert (Hqj' : (q =? j)%nat = false) by now apply Nat.eqb_neq.
    rewrite Hqj'. cbn [negb]. rewrite andb_true_r. split.
    + intros [Ha|Hn].
      * apply Hall in Ha. rewrite Ha. reflexivity.
      * destruct (int_column metadata q) eqn:Ei.
        -- exfalso. apply Hn. now apply (Hint c q Hq).
        -- now rewrite andb_false_r.
    + intros Hna Hic.
      destruct (all_matched L metadata i j) eqn:Ea.
      * exfalso. apply Hna. now apply Hall.
      * apply (Hint c q Hq) in Hic. now rewrite Hic.
  - intros Hnone c Hin. destruct (Hmeta c Hin) as (q & Hq & Hqj & ->).
    unfold merge_extra. rewrite Hfilter.
    destruct (filter (fun x => cell_eqb (cell_at j x) (cell_at i l)) (rows metadata))
      as [|x xs] eqn:Ef'.
    + cbn [map hd]. apply nth_repeat_default.
    + exfalso. assert (Hx : In x (filter (fun x => cell_eqb (cell_at j x) (cell_at i l))
                                         (rows metadata))) by (rewrite Ef'; now left).
      apply filter_In in Hx. destruct Hx as [Hx Hk].
      apply (Hnone x Hx). unfold cell_of. rewrite Hj.
      rewrite Hcell in Hk. rewrite cell_eqb_sym in Hk.
      now apply cell_eqb_str in Hk.
Qed.

Lemma construct_joins_metadata_witness :
  let metadata := frame_of ["model"; "factors"] [ [CStr "Model1"; CInt 64] ] in
  let a0 :=
    mkApp (frame_of ["model"; "prec@10"; "factors"]
             [ [CStr "Model1"; CFloat (1#2); CFloat (64#1)];
               [CStr "Model2"; CFloat (1#4); CNaN] ])
          ["prec@10"] ["factors"] true false [] None in
  let r := nth 0 (rows (data a0)) (CNaN, []) in
  (forall mr, In mr (rows metadata) ->
              cell_of metadata Columns.Model mr = cell_of (data a0) Columns.Model r ->
              forall c, In c (meta_names a0) ->
                (every_model_has_metadata
                   repr_example
                   (frame_of ["model"; "prec@10"]
                      [ [CStr "Model1"; CFloat (1#2)]; [CStr "Model2"; CFloat (1#4)] ])
                   metadata \/
                 ~ integer_column metadata c ->
                 cell_of (data a0) c r = cell_of metadata c mr) /\
                (~ every_model_has_metadata
                     repr_example
                     (frame_of ["model"; "prec@10"]
                        [ [CStr "Model1"; CFloat (1#2)]; [CStr "Model2"; CFloat (1#4)] ])
                     metadata ->
                 integer_column metadata c ->
                 cell_of (data a0) c r = int_to_float (cell_of metadata c mr))) /\
  ((forall mr, In mr (rows metadata) ->
               cell_of metadata Columns.Model mr <> cell_of (data a0) Columns.Model r) ->
   forall c, In c (meta_names a0) -> cell_of (data a0) c r = CNaN).
Proof.
  intros metadata a0 r.
  apply (construct_joins_metadata
           repr_example
           (frame_of ["model"; "prec@10"]
              [ [CStr "Model1"; CFloat (1#2)]; [CStr "Model2"; CFloat (1#4)] ])
           metadata true false a0).
  - unfold wf_frame. repeat constructor.
  - vm_compute. reflexivity.
  - intros c Hc Hin. simpl in Hc, Hin.
    repeat (destruct Hc as [<-|Hc]; [intuition discriminate|]). exact Hc.
  - vm_compute. left. reflexivity.
Defined.

Lemma construct_data_without_metadata (float_repr : Q -> string) (df : DataFrame)
        (show_legend auto_display : bool) (a0 : MetricsApp) :
  wf_frame df ->
  fst (construct float_repr (PyFrame df) None show_legend auto_display) = Ok a0 ->
  data a0 = reset_index_drop (normalized_table float_repr df) /\
  meta_names a0 = [].
Proof.
  intros Hwf Hc.
  destruct (construct_join _ _ _ _ _ _ Hwf Hc)
    as (i & md & j & Hi & Hj & Hidx & [Ecols Hone] & Hd & Hm & Hns & Hrows).
  rewrite Ecols in Hj, Hns. cbn [index_of] in Hj. rewrite String.eqb_refl in Hj.
  inversion Hj; subst j; clear Hj.
  split; [|rewrite Hns; cbn [filter]; now rewrite String.eqb_refl].
  assert (Hi' : index_of Columns.Model (columns (normalized_table float_repr df)) = Some i)
    by now rewrite normalized_table_columns.
  assert (Hj : index_of Columns.Model (columns md) = Some O).
  { rewrite Ecols. cbn [index_of]. now rewrite String.eqb_refl. }
  assert (Hcols : columns (data a0) = columns (normalized_table float_repr df)).
  { rewrite (merged_columns_plain _ _ i O _ Hi' Hj Hm).
    - rewrite Ecols. cbn [remove_nth]. apply app_nil_r.
    - rewrite Ecols. intros c [<-|[]] H. congruence. }
  destruct (data a0) as [cols rs]. cbn [columns rows] in *.
  unfold reset_index_drop. f_equal; auto.
  rewrite Hrows. f_equal. apply map_ext. intro l.
  set (md' := merge_right (normalized_table float_repr df) md i 0).
  assert (He : hd [] (merge_extra md' 0 (cell_at i l)) = []).
  { unfold merge_extra. unfold md' at 2. rewrite merge_right_columns, Ecols.
    cbn [remove_nth length repeat].
    rewrite Forall_forall in Hone.
    destruct (filter (fun r => cell_eqb (cell_at 0 r) (cell_at i l)) (rows md'))
      as [|x xs] eqn:Ef; auto.
    assert (Hx : In x (rows md')).
    { assert (In x (filter (fun r => cell_eqb (cell_at 0 r) (cell_at i l)) (rows md')))
        as H by (rewrite Ef; now left). apply filter_In in H. tauto. }
    cbn [map hd].
    destruct (merge_right_rows (normalized_table float_repr df) md i 0)
      as (f & Ef' & Hf).
    fold md' in Ef'. rewrite Ef' in Hx. apply in_map_iff in Hx.
    destruct Hx as (x0 & <- & Hx0). destruct (Hf x0) as (_ & _ & Hlen & _).
    specialize (Hone x0 Hx0). rewrite <- Hlen in Hone.
    destruct (snd (f x0)) as [|v [|w ws]]; simpl in Hone; try discriminate.
    reflexivity. }
  rewrite He. apply app_nil_r.
Qed.

(** X9: without metadata, the data of an object constructed from a
    (rectangular) metrics table are that table with the model names in
    normal form and a fresh index, and there is no metadata name. *)
Theorem construct_without_metadata (float_repr : Q -> string) (df : DataFrame)
        (show_legend auto_display : bool) (a0 : MetricsApp) :
  wf_frame df ->
  fst (construct float_repr (PyFrame df) None show_legend auto_display) = Ok a0 ->
  data a0 = reset_index_drop (normalized_table float_repr df) /\
  meta_names a0 = [].
Proof.
  apply construct_data_without_metadata.
Qed.

Lemma construct_without_metadata_witness :
  data app_of_DF_METRICS = reset_index_drop (normalized_table repr_example DF_METRICS) /\
  meta_names app_of_DF_METRICS = [].
Proof.
  apply (construct_without_metadata repr_example DF_METRICS true false app_of_DF_METRICS).
  - unfold wf_frame. repeat constructor.
  - vm_compute. reflexivity.
Defined.

(** ** Sorting *)

Lemma string_compare_refl (s : string) : String.compare s s = Eq.
Proof.
  induction s as [|c r IH]; simpl; auto.
  unfold Ascii.compare. now rewrite N.compare_refl.
Qed.

Lemma string_compare_lt_trans (a b c : string) :
  String.compare a b = Lt -> String.compare b c = Lt -> String.compare a c = Lt.
Proof.
  revert b c. induction a as [|x a IH]; intros [|y b] [|z c]; simpl;
    try discriminate; auto.
  destruct (Ascii.compare x y) eqn:Exy; try discriminate;
    destruct (Ascii.compare y z) eqn:Eyz; try discriminate; intros H1 H2.
  - apply Ascii.compare_eq_iff in Exy, Eyz. subst.
    unfold Ascii.compare. rewrite N.compare_refl. eauto.
  - apply Ascii.compare_eq_iff in Exy. subst. now rewrite Eyz.
  - apply Ascii.compare_eq_iff in Eyz. subst. now rewrite Exy.
  - unfold Ascii.compare in *. rewrite N.compare_lt_iff in *.
    assert (H : (N_of_ascii x < N_of_ascii z)%N) by (eapply N.lt_trans; eauto).
    apply N.compare_lt_iff in H. now rewrite H.
Qed.

Section SortedSpec.

(** A class of values that Python can compare with one another, such as the
    strings or the integers. *)
Variable C : cell -> Prop.
Hypothesis lt_def : forall a b, C a -> C b -> exists t, py_lt a b = Some t.
Hypothesis lt_trans :
  forall a b c, C a -> C b -> C c -> cell_lt a b -> cell_lt b c -> cell_lt a c.
Hypothesis lt_conn :
  forall a b, C a -> C b -> py_lt a b = Some false -> py_lt b a = Some false ->
              cell_eqb a b = true.

Lemma py_insert_spec (x : cell) (l : list cell) :
  C x -> Forall C l -> StronglySorted cell_lt l ->
  (forall y, In y l -> cell_eqb x y = false) ->
  exists l', py_insert x l = Ok l' /\ Permutation l' (x :: l) /\
             StronglySorted cell_lt l'.
Proof.
  intros Hx. induction l as [|y ys IH]; intros HC Hs Hd.
  - exists [x]. repeat split; auto. repeat constructor.
  - inversion HC as [|? ? Hy HCys]; subst.
    inversion Hs as [|? ? Hsys Hyall]; subst.
    cbn [py_insert]. destruct (lt_def y x Hy Hx) as [[|] Et]; rewrite Et.
    + destruct IH as (l' & E & Hp & Hs'); auto.
      { intros z Hz. apply Hd. now right. }
      rewrite E. cbn [bind]. exists (y :: l'). repeat split; auto.
      * rewrite Hp. apply perm_swap.
      * constructor; auto. apply Forall_forall. intros z Hz.
        apply (Permutation_in _ Hp) in Hz. destruct Hz as [<-|Hz]; auto.
        rewrite Forall_forall in Hyall. auto.
    + exists (x :: y :: ys). repeat split; auto.
      assert (Hxy : cell_lt x y).
      { destruct (lt_def x y Hx Hy) as [[|] Et']; auto.
        pose proof (lt_conn x y Hx Hy Et' Et) as He.
        rewrite (Hd y (or_introl eq_refl)) in He. discriminate. }
      constructor; auto. constructor; auto.
      apply Forall_forall. intros z Hz. rewrite Forall_forall in Hyall, HCys.
      apply (lt_trans x y z); auto.
Qed.

Lemma sorted_spec (l : list cell) :
  Forall C l -> Distinct cell_eqb l ->
  exists l', sorted l = Ok l' /\ Permutation l' l /\ StronglySorted cell_lt l'.
Proof.
  induction l as [|x xs IH]; intros HC Hd.
  - exists []. repeat split; auto. constructor.
  - inversion HC as [|? ? Hx HCxs]; subst. inversion Hd as [|? ? Hxd Hdxs]; subst.
    destruct (IH HCxs Hdxs) as (r & E & Hp & Hs).
    destruct (py_insert_spec x r) as (l' & E' & Hp' & Hs'); auto.
    + apply Forall_forall. intros z Hz. rewrite Forall_forall in HCxs.
      apply HCxs. now apply (Permutation_in _ Hp).
    + intros y Hy. apply Hxd. now apply (Permutation_in _ Hp).
    + cbn [sorted]. rewrite E. cbn [bind]. exists l'. repeat split; auto.
      rewrite Hp'. now constructor.
Qed.

End SortedSpec.

Lemma sorted_strings_spec (l : list cell) :
  Forall is_str l -> Distinct cell_eqb l ->
  exists l', sorted l = Ok l' /\ Permutation l' l /\ StronglySorted cell_lt l'.
Proof.
  apply sorted_spec.
  - intros a b [s ->] [t ->]. simpl. eauto.
  - intros a b c [s ->] [t ->] [u ->]. unfold cell_lt. simpl.
    unfold String.ltb. intros H1 H2.
    destruct (String.compare s t) eqn:E1; try discriminate.
    destruct (String.compare t u) eqn:E2; try discriminate.
    now rewrite (string_compare_lt_trans _ _ _ E1 E2).
  - intros a b [s ->] [t ->]. simpl. unfold String.ltb. intros H1 H2.
    rewrite String.compare_antisym in H2.
    destruct (String.compare s t) eqn:E; simpl in *; try discriminate.
    apply String.compare_eq_iff in E. subst. apply String.eqb_refl.
Qed.

Lemma py_lt_int (a b : Z) : py_lt (CInt a) (CInt b) = Some (a <? b)%Z.
Proof.
  simpl. f_equal. unfold Qle_bool, Qeq_bool. simpl. rewrite !Z.mul_1_r.
  destruct (Z.leb_spec a b), (Z.eqb_spec a b), (Z.ltb_spec a b); simpl; auto; lia.
Qed.

Lemma cell_eqb_int (a b : Z) : cell_eqb (CInt a) (CInt b) = (a =? b)%Z.
Proof.
  simpl. unfold Qeq_bool. simpl. now rewrite !Z.mul_1_r.
Qed.

Lemma sorted_ints_spec (l : list cell) :
  Forall is_int l -> Distinct cell_eqb l ->
  exists l', sorted l = Ok l' /\ Permutation l' l /\ StronglySorted cell_lt l'.
Proof.
  apply sorted_spec.
  - intros a b [x ->] [y ->]. rewrite py_lt_int. eauto.
  - intros a b c [x ->] [y ->] [z ->]. unfold cell_lt. rewrite !py_lt_int.
    intros H1 H2. injection H1 as H1. injection H2 as H2. f_equal.
    apply Z.ltb_lt in H1, H2. apply Z.ltb_lt. lia.
  - intros a b [x ->] [y ->]. rewrite !py_lt_int, cell_eqb_int.
    intros H1 H2. injection H1 as H1. injection H2 as H2.
    apply Z.ltb_ge in H1, H2. apply Z.eqb_eq. lia.
Qed.

Lemma dedup_In_iff (C : cell -> Prop) (l : list cell) (n : cell) :
  (forall a b, C a -> C b -> cell_eqb b a = true -> b = a) ->
  Forall C l ->
  (In n (dedup cell_eqb l) <-> In n l).
Proof.
  intros Heq HC. split; [apply dedup_In|].
  intro H. destruct (dedup_complete l n H) as [y [Hy Hyn]].
  rewrite Forall_forall in HC.
  now rewrite <- (Heq n y (HC n H) (HC y (dedup_In _ _ _ Hy)) Hyn).
Qed.

Lemma is_str_eq (a b : cell) : is_str a -> is_str b -> cell_eqb b a = true -> b = a.
Proof.
  intros [s ->] _ H. rewrite cell_eqb_sym in H. now apply cell_eqb_str in H.
Qed.

Lemma is_int_eq (a b : cell) : is_int a -> is_int b -> cell_eqb b a = true -> b = a.
Proof.
  intros [z ->] [y ->] H. rewrite cell_eqb_int in H. apply Z.eqb_eq in H. now subst.
Qed.

(** ** The queries of a constructed object *)

Lemma model_names_sorted_permutation (float_repr : Q -> string) (df : DataFrame)
      (md : option pyobj) (sl ad : bool) (a0 a : MetricsApp) :
  wf_frame df ->
  fst (construct float_repr (PyFrame df) md sl ad) = Ok a0 ->
  lifetime a0 a ->
  Forall is_str (column_values (data a0) Columns.Model) /\
  exists names,
    model_names a = Ok names /\
    Permutation names (dedup cell_eqb (column_values (data a0) Columns.Model)) /\
    StronglySorted cell_lt names.
Proof.
  intros Hwf Hc Hl. destruct (lifetime_same _ _ Hl) as [Hd _].
  destruct (construct_join _ _ _ _ _ _ Hwf Hc)
    as (i & _ & _ & _ & _ & Hidx & _).
  assert (Hstr : Forall is_str (column_values (data a0) Columns.Model)).
  { apply Forall_forall. intros c Hin.
    destruct (construct_model_cells _ _ _ _ _ _ c Hwf Hc Hin) as (c0 & _ & ->).
    unfold is_str. eauto. }
  split; auto.
  unfold model_names, get_column. rewrite Hd, Hidx. cbn [bind].
  unfold unique, values. rewrite map_map. cbn [snd].
  assert (Ev : map (fun x : cell * list cell => cell_at i x) (rows (data a0))
               = column_values (data a0) Columns.Model).
  { unfold column_values. now rewrite Hidx. }
  rewrite Ev. apply sorted_strings_spec.
  - apply Forall_forall. intros c Hin. apply dedup_In in Hin.
    rewrite Forall_forall in Hstr. auto.
  - apply Distinct_dedup.
Qed.

(** X10: at any time in the life of an object constructed from a
    (rectangular) metrics table, [model_names] returns the model names of
    the data, each once, in strictly increasing order. *)
Theorem model_names_sorted (float_repr : Q -> string) (df : DataFrame)
        (models_metadata : option pyobj) (show_legend auto_display : bool)
        (a0 a : MetricsApp) :
  wf_frame df ->
  fst (construct float_repr (PyFrame df) models_metadata show_legend auto_display)
  = Ok a0 ->
  lifetime a0 a ->
  exists names,
    model_names a = Ok names /\
    StronglySorted cell_lt names /\
    forall n, In n names <-> In n (column_values (data a0) Columns.Model).
Proof.
  intros Hwf Hc Hl.
  destruct (model_names_sorted_permutation _ _ _ _ _ _ _ Hwf Hc Hl)
    as (Hstr & names & E & Hp & Hs).
  exists names. repeat split; auto.
  - intro H. apply (Permutation_in _ Hp) in H. now apply dedup_In in H.
  - intro H. apply (Permutation_in _ (Permutation_sym Hp)).
    now apply (dedup_In_iff is_str _ _ is_str_eq Hstr).
Qed.

Lemma model_names_sorted_witness :
  exists names,
    model_names app_with_metadata = Ok names /\
    StronglySorted cell_lt names /\
    forall n, In n names <-> In n (column_values (data app_with_metadata) Columns.Model).
Proof.
  apply (model_names_sorted repr_example DF_METRICS (Some (PyFrame metadata_df))
                            true false app_with_metadata app_with_metadata).
  - unfold wf_frame. repeat constructor.
  - vm_compute. reflexivity.
  - apply lifetime_start.
Defined.

Lemma split_ok_rows (float_repr : Q -> string) (df : DataFrame) :
  mem_str Columns.Split (columns df) = true ->
  _validate_models_metrics_split float_repr df = Ok tt ->
  rows df <> [].
Proof.
  intros Hs. unfold _validate_models_metrics_split. rewrite Hs. cbn [negb].
  destruct (index_of Columns.Model (columns df)) as [i|]; [|discriminate].
  intros H E. rewrite E in H. discriminate.
Qed.

(** X11: for an object constructed from a (rectangular) metrics table that
    has a fold column holding integers, and metadata that reuse none of its
    column names, [fold_ids] returns, at any time, a list that is not empty
    and holds the folds of the metrics table, each once, in strictly
    increasing order. *)
Theorem fold_ids_sorted (float_repr : Q -> string) (df : DataFrame)
        (models_metadata : option pyobj) (show_legend auto_display : bool)
        (a0 a : MetricsApp) :
  wf_frame df ->
  fst (construct float_repr (PyFrame df) models_metadata show_legend auto_display)
  = Ok a0 ->
  (forall c, In c (meta_names a0) -> ~ In c (columns df)) ->
  mem_str Columns.Split (columns df) = true ->
  Forall is_int (column_values df Columns.Split) ->
  lifetime a0 a ->
  exists l,
    fold_ids a = Ok (Some l) /\
    l <> [] /\
    StronglySorted cell_lt l /\
    forall n, In n l <-> In n (column_values df Columns.Split).
Proof.
  intros Hwf Hc Hdisj Hs Hint Hl. destruct (lifetime_same _ _ Hl) as [Hd _].
  destruct (construct_rows_kept _ _ _ _ _ _ Hwf Hc) as (Hlen & _ & _ & Hcol).
  assert (Ecol : column_values (data a0) Columns.Split = column_values df Columns.Split).
  { apply Hcol; auto; [now apply mem_str_In|discriminate]. }
  assert (Hrows : rows df <> []).
  { pose proof Hc as Hinv. apply construct_inv in Hinv.
    destruct Hinv as (df0 & _ & _ & _ & _ & _ & E0 & _ & Hsp & _).
    inversion E0; subst df0. eapply split_ok_rows; eauto. }
  destruct (index_of_Some _ _ Hs) as [q Hq].
  assert (Hne : column_values df Columns.Split <> []).
  { unfold column_values. rewrite Hq. destruct (rows df); [congruence|discriminate]. }
  assert (Hq' : exists q', index_of Columns.Split (columns (data a0)) = Some q').
  { destruct (index_of Columns.Split (columns (data a0))) as [q'|] eqn:E; eauto.
    unfold column_values in Ecol at 1. rewrite E in Ecol. congruence. }
  destruct Hq' as [q' Hq'].
  assert (Hmem : mem_str Columns.Split (columns (data a0)) = true).
  { destruct (mem_str Columns.Split (columns (data a0))) eqn:E; auto.
    apply index_of_None in E. congruence. }
  unfold fold_ids, get_column. rewrite Hd, Hmem, Hq'. cbn [bind].
  unfold unique, values. rewrite map_map. cbn [snd].
  assert (Ev : map (fun x : cell * list cell => cell_at q' x) (rows (data a0))
               = column_values df Columns.Split).
  { rewrite <- Ecol. unfold column_values. now rewrite Hq'. }
  rewrite Ev.
  destruct (sorted_ints_spec (dedup cell_eqb (column_values df Columns.Split)))
    as (l & E & Hp & Hsorted).
  { apply Forall_forall. intros c Hin. apply dedup_In in Hin.
    rewrite Forall_forall in Hint. auto. }
  { apply Distinct_dedup. }
  rewrite E. cbn [bind]. exists l.
  assert (Hiff : forall n, In n l <-> In n (column_values df Columns.Split)).
  { intro n. rewrite <- (dedup_In_iff is_int _ n is_int_eq Hint).
    split; intro H; [now apply (Permutation_in _ Hp)|
                      now apply (Permutation_in _ (Permutation_sym Hp))]. }
  repeat split; auto; try apply Hiff.
  intros ->. destruct (column_values df Columns.Split) as [|c cs]; [congruence|].
  apply (Hiff c). now left.
Qed.

Lemma fold_ids_sorted_witness :
  exists l,
    fold_ids app_with_metadata = Ok (Some l) /\
    l <> [] /\
    StronglySorted cell_lt l /\
    forall n, In n l <-> In n (column_values DF_METRICS Columns.Split).
Proof.
  apply (fold_ids_sorted repr_example DF_METRICS (Some (PyFrame metadata_df))
                         true false app_with_metadata app_with_metadata).
  - unfold wf_frame. repeat constructor.
  - vm_compute. reflexivity.
  - intros c Hc Hin. simpl in Hc, Hin.
    repeat (destruct Hc as [<-|Hc]; [intuition discriminate|]). exact Hc.
  - reflexivity.
  - vm_compute. repeat constructor; eexists; reflexivity.
  - apply lifetime_start.
Defined.

(** ** The views of a constructed object *)

Lemma avg_call_twice (a : MetricsApp) :
  fst (_make_chart_data_avg (snd (_make_chart_data_avg a)))
  = fst (_make_chart_data_avg a).
Proof.
  unfold _make_chart_data_avg at 2 3.
  destruct (avg_cache a) as [v|] eqn:E; cbn [fst snd].
  - unfold _make_chart_data_avg. now rewrite E.
  - destruct (make_chart_data_avg_body a) as [v|e] eqn:Eb; cbn [fst snd].
    + reflexivity.
    + unfold _make_chart_data_avg. now rewrite E, Eb.
Qed.

Lemma constructed_cache_ok (float_repr : Q -> string) (mm : pyobj)
      (md : option pyobj) (sl ad : bool) (a0 a : MetricsApp) :
  fst (construct float_repr mm md sl ad) = Ok a0 ->
  lifetime a0 a -> cache_ok a.
Proof.
  intros Hc Hl. destruct (construct_caches _ _ _ _ _ _ Hc) as (_ & _ & H0).
  now apply (lifetime_cache_ok a0).
Qed.

(** X12: at any time in the life of a constructed object, the average view
    is what the body of [_make_chart_data_avg] computes from the data the
    object was constructed with, be it a table or an exception, and asking
    for it again gives the same result. *)
Theorem avg_view_memoised (float_repr : Q -> string) (models_metrics : pyobj)
        (models_metadata : option pyobj) (show_legend auto_display : bool)
        (a0 a : MetricsApp) :
  fst (construct float_repr models_metrics models_metadata show_legend auto_display)
  = Ok a0 ->
  lifetime a0 a ->
  fst (_make_chart_data_avg a) = make_chart_data_avg_body a0 /\
  fst (_make_chart_data_avg (snd (_make_chart_data_avg a)))
  = fst (_make_chart_data_avg a).
Proof.
  intros Hc Hl. split; [|apply avg_call_twice].
  rewrite (avg_call_result a (constructed_cache_ok _ _ _ _ _ _ _ Hc Hl)).
  apply avg_body_same. now apply lifetime_same.
Qed.

Lemma avg_view_memoised_witness :
  let a := snd (_make_chart_data_avg app_with_metadata) in
  fst (_make_chart_data_avg a) = make_chart_data_avg_body app_with_metadata /\
  fst (_make_chart_data_avg (snd (_make_chart_data_avg a)))
  = fst (_make_chart_data_avg a).
Proof.
  intro a.
  apply (avg_view_memoised repr_example (PyFrame DF_METRICS)
                           (Some (PyFrame metadata_df)) true false app_with_metadata a).
  - vm_compute. reflexivity.
  - apply lifetime_step with (a := app_with_metadata).
    + apply lifetime_start.
    + apply step_avg.
Defined.

(** X13: a request for the fold view of an object whose data have no fold
    column raises a [KeyError], at any time in the life of a constructed
    object, and leaves the object as it was: nothing is memoised. *)
Theorem fold_view_without_folds (float_repr : Q -> string) (models_metrics : pyobj)
        (models_metadata : option pyobj) (show_legend auto_display : bool)
        (a0 a : MetricsApp) (fold_number : cell) :
  fst (construct float_repr models_metrics models_metadata show_legend auto_display)
  = Ok a0 ->
  lifetime a0 a ->
  mem_str Columns.Split (columns (data a0)) = false ->
  _make_chart_data_fold a fold_number = (Raise (KeyError Columns.Split), a).
Proof.
  intros Hc Hl Hs.
  destruct (constructed_cache_ok _ _ _ _ _ _ _ Hc Hl) as [Hf _].
  destruct (lifetime_same _ _ Hl) as [Hd _].
  assert (Hbody : forall k, make_chart_data_fold_body a k = Raise (KeyError Columns.Split)).
  { intro k. unfold make_chart_data_fold_body, get_column. rewrite Hd.
    apply index_of_None in Hs. now rewrite Hs. }
  unfold _make_chart_data_fold.
  destruct (cache_lookup fold_number (fold_cache a)) as [v|] eqn:E.
  - destruct (cache_lookup_In _ _ _ E) as [k [Hin _]].
    specialize (Hf k v Hin). rewrite (Hbody k) in Hf. discriminate.
  - now rewrite Hbody.
Qed.

Lemma fold_view_without_folds_witness :
  let a0 := mkApp (frame_of ["model"; "prec@10"]
                            [ [CStr "my_model"; CFloat (1#2)]; [CStr "other"; CFloat (1#4)] ])
                  ["prec@10"] [] true false [] None in
  _make_chart_data_fold (snd (_make_chart_data_avg a0)) (CInt 0)
  = (Raise (KeyError Columns.Split), snd (_make_chart_data_avg a0)).
Proof.
  intro a0.
  apply (fold_view_without_folds
           repr_example
           (PyFrame (frame_of ["model"; "prec@10"]
                       [ [CStr "my model"; CFloat (1#2)]; [CStr "other"; CFloat (1#4)] ]))
           None true false a0).
  - vm_compute. reflexivity.
  - apply lifetime_step with (a := a0).
    + apply lifetime_start.
    + apply step_avg.
  - reflexivity.
Defined.

Lemma average_view_model_column (df : DataFrame) (metrics metas : list string) :
  columns (average_view_spec df metrics metas) = Columns.Model :: metrics ++ metas /\
  column_values (average_view_spec df metrics metas) Columns.Model = models_in_order df /\
  length (rows (average_view_spec df metrics metas)) = length (models_in_order df).
Proof.
  unfold average_view_spec, column_values. cbn [columns rows index_of].
  rewrite String.eqb_refl. repeat split.
  - rewrite (map_range_index (cell_at 0) (fun cells => nth 0 cells CNaN)) by reflexivity.
    rewrite map_map. cbn [nth]. apply map_id.
  - now rewrite range_index_length, length_map.
Qed.

(** X14: under the conditions of the average view (a rectangular metrics
    table with numbers in its metric columns, metadata that reuse none of
    its column names), the average view has the columns model, metrics,
    metadata, in this order, and exactly one row for each name that
    [model_names] returns. *)
Theorem average_view_rows (float_repr : Q -> string) (df : DataFrame)
        (models_metadata : option pyobj) (show_legend auto_display : bool)
        (a0 a : MetricsApp) :
  wf_frame df ->
  fst (construct float_repr (PyFrame df) models_metadata show_legend auto_display)
  = Ok a0 ->
  (forall c, In c (meta_names a0) -> ~ In c (columns df)) ->
  (forall r c, In r (rows df) -> In c (metric_names a0) ->
               exists q, cell_num (cell_of df c r) = Some q) ->
  lifetime a0 a ->
  exists v names,
    fst (_make_chart_data_avg a) = Ok v /\
    model_names a = Ok names /\
    columns v = Columns.Model :: metric_names a0 ++ meta_names a0 /\
    Permutation names (column_values v Columns.Model) /\
    length (rows v) = length names.
Proof.
  intros Hwf Hc Hdisj Hnum Hl.
  pose proof (construct_avg_ready _ _ _ _ _ _ Hwf Hc Hdisj Hnum) as Hready.
  destruct (model_names_sorted_permutation _ _ _ _ _ _ _ Hwf Hc Hl)
    as (_ & names & En & Hp & _).
  destruct (average_view_model_column (data a0) (metric_names a0) (meta_names a0))
    as (Hcols & Hmodel & Hlen).
  exists (average_view_spec (data a0) (metric_names a0) (meta_names a0)), names.
  repeat split; auto.
  - rewrite (avg_call_result a (constructed_cache_ok _ _ _ _ _ _ _ Hc Hl)).
    rewrite (avg_body_same a0 a (lifetime_same _ _ Hl)). now apply avg_body_spec.
  - now rewrite Hmodel.
  - rewrite Hlen. unfold models_in_order. symmetry. now apply Permutation_length.
Qed.

Lemma average_view_rows_witness :
  exists v names,
    fst (_make_chart_data_avg app_with_metadata) = Ok v /\
    model_names app_with_metadata = Ok names /\
    columns v = Columns.Model :: metric_names app_with_metadata
                              ++ meta_names app_with_metadata /\
    Permutation names (column_values v Columns.Model) /\
    length (rows v) = length names.
Proof.
  apply (average_view_rows repr_example DF_METRICS (Some (PyFrame metadata_df))
                           true false app_with_metadata app_with_metadata).
  - unfold wf_frame. repeat constructor.
  - vm_compute. reflexivity.
  - intros c Hc Hin. simpl in Hc, Hin.
    repeat (destruct Hc as [<-|Hc]; [intuition discriminate|]). exact Hc.
  - intros r c Hr Hc. simpl in Hr, Hc.
    repeat (destruct Hr as [<-|Hr];
            [repeat (destruct Hc as [<-|Hc]; [eexists; reflexivity|]); destruct Hc|]).
    destruct Hr.
  - apply lifetime_start.
Defined.

(** ** Empty tables *)

Lemma check_groups_not_stop (float_repr : Q -> string) (df : DataFrame) (i j : nat)
      (n : nat) (names keys : list cell) :
  index_of Columns.Split (columns df) = Some j ->
  check_groups float_repr df i n names keys <> Raise StopIteration.
Proof.
  intro Hj. induction keys as [|k ks IH]; cbn [check_groups]; [discriminate|].
  change "i_split"%string with Columns.Split.
  unfold get_column, get_group. cbn [columns rows]. rewrite Hj. cbn [bind].
  destruct (negb (nunique _ =? n)%nat); [discriminate|].
  destruct (negb (set_eqb _ names)); [discriminate|]. exact IH.
Qed.

(** X15: on a table with a fold column and a model column, the split
    validator raises [StopIteration] exactly when no row has a model, in
    particular when the table has no row; so [construct] raises
    [StopIteration], not a validation error, on a table with the model
    column, the fold column and a metric column but no row. *)
Theorem split_validator_stop_iteration (float_repr : Q -> string) (df : DataFrame)
        (models_metadata : option pyobj) (show_legend auto_display : bool) :
  mem_str Columns.Split (columns df) = true ->
  mem_str Columns.Model (columns df) = true ->
  (_validate_models_metrics_split float_repr df = Raise StopIteration <->
   forall c, In c (column_values df Columns.Model) -> isnull c = true) /\
  (rows df = [] -> filter is_metric_column (columns df) <> [] ->
   fst (construct float_repr (PyFrame df) models_metadata show_legend auto_display)
   = Raise StopIteration).
Proof.
  intros Hs Hm.
  destruct (index_of_Some _ _ Hm) as [i Hi].
  destruct (index_of_Some _ _ Hs) as [j Hj].
  assert (Hiff : _validate_models_metrics_split float_repr df = Raise StopIteration <->
                 forall c, In c (column_values df Columns.Model) -> isnull c = true).
  { unfold _validate_models_metrics_split, column_values. rewrite Hs, Hi. cbn [negb].
    set (col := map (cell_at i) (rows df)).
    destruct (group_keys true col) as [|ref ks] eqn:Ek.
    - split; auto. intros _ c Hc. destruct (isnull c) eqn:En; auto.
      destruct (group_keys_complete true col c Hc En) as [k [Hk _]].
      rewrite Ek in Hk. destruct Hk.
    - split.
      + intro H. exfalso. unfold get_column, get_group in H. cbn [columns rows] in H.
        rewrite Hj in H. cbn [bind] in H.
        now apply check_groups_not_stop with (j := j) in H.
      + intro H. exfalso.
        assert (Hin : In ref (group_keys true col)) by (rewrite Ek; now left).
        apply group_keys_In in Hin. destruct Hin as [Hin Hn].
        rewrite (H ref Hin) in Hn. discriminate. }
  split; auto.
  intros Hrows Hmetric. unfold construct, _validate_models_metrics_base.
  rewrite Hm. cbn [negb].
  destruct (filter is_metric_column (columns df)) as [|c cs] eqn:Ef; [congruence|].
  cbn [length Nat.ltb Nat.leb]. unfold frame_has_null. rewrite Hrows. cbn [existsb].
  assert (E : _validate_models_metrics_split float_repr df = Raise StopIteration).
  { apply Hiff. unfold column_values. rewrite Hi, Hrows. intros c' []. }
  now rewrite E.
Qed.

Lemma split_validator_stop_iteration_witness :
  (_validate_models_metrics_split
     repr_example (mkDF ["model"; "i_split"; "prec@10"] []) = Raise StopIteration <->
   forall c, In c (column_values (mkDF ["model"; "i_split"; "prec@10"] []) Columns.Model) ->
             isnull c = true) /\
  (rows (mkDF ["model"; "i_split"; "prec@10"] []) = [] ->
   filter is_metric_column (columns (mkDF ["model"; "i_split"; "prec@10"] [])) <> [] ->
   fst (construct repr_example (PyFrame (mkDF ["model"; "i_split"; "prec@10"] []))
                  None true false)
   = Raise StopIteration).
Proof.
  apply (split_validator_stop_iteration
           repr_example (mkDF ["model"; "i_split"; "prec@10"] []) None true false);
    reflexivity.
Defined.

(** X16: a table with the model column and a metric column, no fold column
    and no row is accepted by [construct] when no metadata are given; the
    object has no row of data, no model name, no fold identifiers, and its
    average view is the table without rows whose columns are the model and
    the metrics. *)
Theorem construct_empty_table (float_repr : Q -> string) (df : DataFrame)
        (show_legend auto_display : bool) :
  rows df = [] ->
  mem_str Columns.Model (columns df) = true ->
  filter is_metric_column (columns df) <> [] ->
  mem_str Columns.Split (columns df) = false ->
  exists a0,
    fst (construct float_repr (PyFrame df) None show_legend auto_display) = Ok a0 /\
    rows (data a0) = [] /\
    model_names a0 = Ok [] /\
    fold_ids a0 = Ok None /\
    fst (_make_chart_data_avg a0) = Ok (mkDF (Columns.Model :: metric_names a0) []).
Proof.
  intros Hrows Hm Hmetric Hs.
  assert (Hwf : wf_frame df) by (unfold wf_frame; rewrite Hrows; constructor).
  destruct (validators_pass_construct float_repr df show_legend)
    as [af Hc]; auto.
  { unfold _validate_models_metrics_base. rewrite Hm. cbn [negb].
    destruct (filter is_metric_column (columns df)); [congruence|].
    cbn [length Nat.ltb Nat.leb]. unfold frame_has_null. now rewrite Hrows. }
  { unfold _validate_models_metrics_split. now rewrite Hs. }
  { rewrite names_validator_no_fold by assumption. now rewrite Hrows. }
  destruct (construct_data_without_metadata _ _ _ _ _ Hwf Hc) as [Hd Hns].
  assert (Hr : rows (data af) = []).
  { rewrite Hd. unfold reset_index_drop. cbn [rows].
    pose proof (normalized_table_length float_repr df) as Hl. rewrite Hrows in Hl.
    destruct (rows (normalized_table float_repr df)); [reflexivity|discriminate]. }
  assert (Hcols : columns (data af) = columns df).
  { rewrite Hd. unfold reset_index_drop. cbn [columns]. apply normalized_table_columns. }
  assert (Hnames : model_names af = Ok []).
  { unfold model_names, get_column. rewrite Hcols, Hr.
    destruct (index_of_Some _ _ Hm) as [i ->]. reflexivity. }
  assert (Hfold : fold_ids af = Ok None).
  { unfold fold_ids. now rewrite Hcols, Hs. }
  assert (Hbody : make_chart_data_avg_body af
                  = Ok (mkDF (Columns.Model :: metric_names af) [])).
  { assert (Hready : avg_ready af).
    { apply (construct_avg_ready float_repr df None show_legend false); auto.
      - rewrite Hns. intros c [].
      - rewrite Hrows. intros r c []. }
    rewrite (avg_body_spec af Hready). f_equal.
    unfold average_view_spec, models_in_order, column_values.
    rewrite Hns, Hr, app_nil_r.
    destruct (index_of Columns.Model (columns (data af))); reflexivity. }
  assert (Hms : metric_names af <> []).
  { destruct (construct_data _ _ _ _ _ _ Hwf Hc) as (_ & _ & _ & _ & _ & _ & _ & _ & E & _).
    now rewrite E. }
  destruct (construct_caches _ _ _ _ _ _ Hc) as (_ & Hnone & _).
  specialize (Hnone eq_refl).
  pose proof (construct_as_init _ _ _ _ _ Hc auto_display) as Einit.
  destruct auto_display.
  - destruct af as [d ms ns sl0 ad0 fc0 ac0].
    cbn [data metric_names meta_names avg_cache] in *.
    set (self := mkApp d ms ns show_legend true [] None) in *.
    assert (Ed : display self
                 = (Ok tt, with_avg_cache self (Some (mkDF (Columns.Model :: ms) [])))).
    { apply (display_succeeds self None); auto; discriminate. }
    exists (with_avg_cache self (Some (mkDF (Columns.Model :: ms) []))).
    split; [|repeat split; auto].
    rewrite Einit. unfold __init__. fold self. now rewrite Ed.
  - exists af. repeat split; auto.
    unfold _make_chart_data_avg. now rewrite Hnone, Hbody.
Qed.

Lemma construct_empty_table_witness :
  exists a0,
    fst (construct repr_example (PyFrame (mkDF ["model"; "prec@10"] [])) None true false)
    = Ok a0 /\
    rows (data a0) = [] /\
    model_names a0 = Ok [] /\
    fold_ids a0 = Ok None /\
    fst (_make_chart_data_avg a0) = Ok (mkDF (Columns.Model :: metric_names a0) []).
Proof.
  apply (construct_empty_table repr_example (mkDF ["model"; "prec@10"] []) true false).
  - reflexivity.
  - reflexivity.
  - simpl. discriminate.
  - reflexivity.
Defined.

(** ** The fold views cover the data *)

Lemma sum_nat_app (l1 l2 : list nat) : sum_nat (l1 ++ l2) = (sum_nat l1 + sum_nat l2)%nat.
Proof.
  induction l1 as [|x xs IH]; simpl; auto. rewrite IH. lia.
Qed.

Lemma sum_nat_perm (l1 l2 : list nat) : Permutation l1 l2 -> sum_nat l1 = sum_nat l2.
Proof.
  induction 1; simpl; lia.
Qed.

Lemma sum_nat_split {A : Type} (P : A -> bool) (g : A -> nat) (l : list A) :
  sum_nat (map g l)
  = (sum_nat (map g (filter P l)) + sum_nat (map g (filter (fun x => negb (P x)) l)))%nat.
Proof.
  induction l as [|x xs IH]; simpl; auto.
  destruct (P x); simpl; rewrite IH; lia.
Qed.

Lemma count_congr (l : list cell) (a b : cell) :
  cell_eqb a b = true ->
  length (filter (fun v => cell_eqb v a) l) = length (filter (fun v => cell_eqb v b) l).
Proof.
  intro H. f_equal. apply filter_ext. intro v.
  rewrite (cell_eqb_sym v a), (cell_eqb_sym v b). now apply cell_eqb_congr.
Qed.

Lemma count_equivalent (l : list cell) (x : cell) :
  sum_nat (map (fun k => length (filter (fun v => cell_eqb v k) l))
               (filter (fun k => cell_eqb x k) (dedup cell_eqb l)))
  = length (filter (fun v => cell_eqb v x) l).
Proof.
  pose proof (Distinct_filter_single (fun k => k) x (dedup cell_eqb l)) as Hone.
  rewrite map_id in Hone. specialize (Hone (Distinct_dedup cell_eqb l)).
  assert (E : filter (fun k => cell_eqb x k) (dedup cell_eqb l)
              = filter (fun k => cell_eqb k x) (dedup cell_eqb l)).
  { apply filter_ext. intro k. apply cell_eqb_sym. }
  rewrite E.
  destruct (filter (fun k => cell_eqb k x) (dedup cell_eqb l)) as [|k0 [|k1 ks]] eqn:Ef;
    simpl in Hone; try lia.
  - simpl. symmetry. apply length_zero_iff_nil.
    destruct (filter (fun v => cell_eqb v x) l) as [|v vs] eqn:Ev; auto.
    assert (Hv : In v (filter (fun v => cell_eqb v x) l)) by (rewrite Ev; now left).
    apply filter_In in Hv. destruct Hv as [Hv Hvx].
    destruct (dedup_complete l v Hv) as [y [Hy Hyv]].
    assert (Hin : In y (filter (fun k => cell_eqb k x) (dedup cell_eqb l))).
    { apply filter_In. split; auto. eapply cell_eqb_trans; eauto. }
    rewrite Ef in Hin. destruct Hin.
  - simpl. rewrite Nat.add_0_r. apply count_congr.
    assert (Hin : In k0 (filter (fun k => cell_eqb k x) (dedup cell_eqb l)))
      by (rewrite Ef; now left).
    apply filter_In in Hin. tauto.
Qed.

Lemma sum_nat_cons (a : nat) (l : list nat) : sum_nat (a :: l) = (a + sum_nat l)%nat.
Proof. reflexivity. Qed.

(** Every value of a list is counted once, under the first value it is
    equal to. *)
Lemma count_partition (l : list cell) :
  sum_nat (map (fun k => length (filter (fun v => cell_eqb v k) l)) (dedup cell_eqb l))
  = length l.
Proof.
  induction l as [|x xs IH]; [reflexivity|].
  cbn [dedup map]. rewrite sum_nat_cons.
  assert (E : map (fun k => length (filter (fun v => cell_eqb v k) (x :: xs)))
                  (filter (fun y => negb (cell_eqb x y)) (dedup cell_eqb xs))
              = map (fun k => length (filter (fun v => cell_eqb v k) xs))
                    (filter (fun y => negb (cell_eqb x y)) (dedup cell_eqb xs))).
  { apply map_ext_in. intros k Hk. apply filter_In in Hk. destruct Hk as [_ Hk].
    apply negb_true_iff in Hk. cbn [filter]. now rewrite Hk. }
  rewrite E. cbn [filter]. rewrite cell_eqb_refl. cbn [length].
  pose proof (sum_nat_split (fun k => cell_eqb x k)
                            (fun k => length (filter (fun v => cell_eqb v k) xs))
                            (dedup cell_eqb xs)) as Hsp.
  rewrite count_equivalent, IH in Hsp. cbv beta in Hsp. lia.
Qed.

Lemma cell_eqb_int_notnull (l : list cell) (f : cell) :
  Forall is_int l ->
  filter (fun v => py_eq v f) l = filter (fun v => cell_eqb v f) l.
Proof.
  intro H. apply filter_ext_in. intros v Hv. rewrite Forall_forall in H.
  destruct (H v Hv) as [z ->]. reflexivity.
Qed.

Lemma fold_view_length (df : DataFrame) (f : cell) :
  mem_str Columns.Split (columns df) = true ->
  length (rows (fold_view_spec df f))
  = length (filter (fun v => py_eq v f) (column_values df Columns.Split)).
Proof.
  intro Hs. destruct (index_of_Some _ _ Hs) as [j Hj].
  unfold fold_view_spec, column_values. rewrite Hj. cbn [rows].
  rewrite range_index_length.
  assert (E : map (cell_at j) (rows df)
              = map (fun cells => nth j cells CNaN) (map snd (rows df))).
  { rewrite map_map. reflexivity. }
  rewrite E, (filter_map_comm (fun cells => nth j cells CNaN) (fun v => py_eq v f)).
  now rewrite length_map.
Qed.

(** X17: for an object constructed from a (rectangular) metrics table that
    has a fold column holding integers, and metadata that reuse none of its
    column names, the fold views of the identifiers that [fold_ids] returns
    split the data: each is the table of the rows of that fold, and their
    numbers of rows add up to the number of rows of the metrics table. *)
Theorem fold_views_cover_data (float_repr : Q -> string) (df : DataFrame)
        (models_metadata : option pyobj) (show_legend auto_display : bool)
        (a0 a : MetricsApp) :
  wf_frame df ->
  fst (construct float_repr (PyFrame df) models_metadata show_legend auto_display)
  = Ok a0 ->
  (forall c, In c (meta_names a0) -> ~ In c (columns df)) ->
  mem_str Columns.Split (columns df) = true ->
  Forall is_int (column_values df Columns.Split) ->
  lifetime a0 a ->
  exists l,
    fold_ids a = Ok (Some l) /\
    (forall f, In f l ->
               fst (_make_chart_data_fold a f) = Ok (fold_view_spec (data a0) f)) /\
    sum_nat (map (fun f => length (rows (fold_view_spec (data a0) f))) l)
    = length (rows df).
Proof.
  intros Hwf Hc Hdisj Hs Hint Hl. destruct (lifetime_same _ _ Hl) as [Hd _].
  destruct (construct_rows_kept _ _ _ _ _ _ Hwf Hc) as (Hlen & _ & _ & Hcol).
  assert (Ecol : column_values (data a0) Columns.Split = column_values df Columns.Split).
  { apply Hcol; auto; [now apply mem_str_In|discriminate]. }
  destruct (index_of_Some _ _ Hs) as [q Hq].
  assert (Hcl : length (column_values df Columns.Split) = length (rows df)).
  { unfold column_values. rewrite Hq. apply length_map. }
  assert (Hmem : mem_str Columns.Split (columns (data a0)) = true).
  { destruct (mem_str Columns.Split (columns (data a0))) eqn:E; auto.
    apply index_of_None in E. unfold column_values in Ecol at 1. rewrite E in Ecol.
    rewrite <- Ecol in Hcl. simpl in Hcl.
    destruct (index_of Columns.Split (columns (data a0))) as [q'|] eqn:E'; [congruence|].
    exfalso.
    pose proof Hc as Hinv. apply construct_inv in Hinv.
    destruct Hinv as (df0 & _ & _ & _ & _ & _ & E0 & _ & Hsp & _).
    inversion E0; subst df0.
    apply (split_ok_rows float_repr df Hs Hsp).
    destruct (rows df); [reflexivity|discriminate]. }
  destruct (index_of_Some _ _ Hmem) as [q' Hq'].
  unfold fold_ids, get_column. rewrite Hd, Hmem, Hq'. cbn [bind].
  unfold unique, values. rewrite map_map. cbn [snd].
  assert (Ev : map (fun x : cell * list cell => cell_at q' x) (rows (data a0))
               = column_values df Columns.Split).
  { rewrite <- Ecol. unfold column_values. now rewrite Hq'. }
  rewrite Ev.
  destruct (sorted_ints_spec (dedup cell_eqb (column_values df Columns.Split)))
    as (l & E & Hp & _).
  { apply Forall_forall. intros c Hin. apply dedup_In in Hin.
    rewrite Forall_forall in Hint. auto. }
  { apply Distinct_dedup. }
  rewrite E. cbn [bind]. exists l. repeat split; auto.
  - intros f _.
    rewrite (fold_call_result a f (constructed_cache_ok _ _ _ _ _ _ _ Hc Hl)).
    rewrite fold_body_spec by (now rewrite Hd). now rewrite Hd.
  - rewrite <- Hcl, <- (count_partition (column_values df Columns.Split)).
    rewrite (sum_nat_perm _ _ (Permutation_map _ Hp)).
    f_equal. apply map_ext. intro f.
    rewrite (fold_view_length _ f Hmem), Ecol. f_equal.
    now apply cell_eqb_int_notnull.
Qed.

Lemma fold_views_cover_data_witness :
  exists l,
    fold_ids app_with_metadata = Ok (Some l) /\
    (forall f, In f l ->
               fst (_make_chart_data_fold app_with_metadata f)
               = Ok (fold_view_spec (data app_with_metadata) f)) /\
    sum_nat (map (fun f => length (rows (fold_view_spec (data app_with_metadata) f))) l)
    = length (rows DF_METRICS).
Proof.
  apply (fold_views_cover_data repr_example DF_METRICS (Some (PyFrame metadata_df))
                               true false app_with_metadata app_with_metadata).
  - unfold wf_frame. repeat constructor.
  - vm_compute. reflexivity.
  - intros c Hc Hin. simpl in Hc, Hin.
    repeat (destruct Hc as [<-|Hc]; [intuition discriminate|]). exact Hc.
  - reflexivity.
  - vm_compute. repeat constructor; eexists; reflexivity.
  - apply lifetime_start.
Defined.

(** ** Trace names *)

Lemma split_at_space_whole (s : string) :
  has_space s = false -> split_at_space s = (s, None).
Proof.
  induction s as [|c r IH]; simpl; auto.
  intro H. apply orb_false_iff in H. destruct H as [H1 H2].
  rewrite H1, (IH H2). reflexivity.
Qed.

Lemma split_at_space_prefix (p r : string) :
  has_space p = false ->
  split_at_space (p ++ String " "%char r) = (p, Some r).
Proof.
  induction p as [|c p IH]; simpl; auto.
  intro H. apply orb_false_iff in H. destruct H as [H1 H2].
  rewrite H1, (IH H2). reflexivity.
Qed.

Lemma split_at_space_join (s : string) :
  match split_at_space s with
  | (h, Some t) => s = (h ++ String " "%char t)%string /\ has_space h = false
  | (h, None) => s = h /\ has_space s = false
  end.
Proof.
  induction s as [|c r IH]; simpl; auto.
  destruct (Ascii.eqb c " "%char) eqn:E.
  - apply Ascii.eqb_eq in E. subst. simpl. auto.
  - destruct (split_at_space r) as [h [t|]] eqn:Er; cbn [fst snd].
    + destruct IH as [IH1 IH2]. simpl. rewrite E, IH2. split; auto. now rewrite IH1.
    + destruct IH as [IH1 IH2]. simpl. rewrite IH2. split; auto. now rewrite IH1.
Qed.

Lemma string_length_append (a b : string) :
  String.length (a ++ b) = (String.length a + String.length b)%nat.
Proof.
  induction a as [|c a IH]; simpl; auto.
Qed.

(** X18: the key under which [_update_chart] files a trace,
    [name.split(" ", 1)[-1]], is the name itself exactly when the name has no
    space; for a name made of a prefix without a space, a space and a rest,
    it is the rest, and so is [name.split(" ", 1)[1]], which raises for a
    name without a space. Hence every name that [model_names] returns for a
    constructed object is its own key, and is the key of any trace name
    made of a prefix without a space, a space and that name. *)
Theorem trace_key_of_model_names (float_repr : Q -> string) (df : DataFrame)
        (models_metadata : option pyobj) (show_legend auto_display : bool)
        (a0 a : MetricsApp) (names : list cell) (s : string) :
  wf_frame df ->
  fst (construct float_repr (PyFrame df) models_metadata show_legend auto_display)
  = Ok a0 ->
  lifetime a0 a ->
  model_names a = Ok names ->
  In (CStr s) names ->
  trace_key s = s /\ trace_tail s = None /\
  (forall prefix, has_space prefix = false ->
                  trace_key (prefix ++ String " "%char s) = s /\
                  trace_tail (prefix ++ String " "%char s) = Some s) /\
  (forall name, trace_key name = name <-> has_space name = false).
Proof.
  intros Hwf Hc Hl En Hin.
  destruct (model_names_sorted_permutation _ _ _ _ _ _ _ Hwf Hc Hl)
    as (_ & names' & En' & Hp & _).
  rewrite En in En'. inversion En'; subst names'; clear En'.
  apply (Permutation_in _ Hp) in Hin. apply dedup_In in Hin.
  destruct (construct_model_cells _ _ _ _ _ _ _ Hwf Hc Hin) as (c0 & _ & E).
  inversion E; subst s; clear E.
  pose proof (replace_space_no_space (py_str float_repr c0)) as Hns.
  fold (normalized_name float_repr c0) in Hns.
  unfold trace_key, trace_tail. rewrite (split_at_space_whole _ Hns).
  repeat split; auto.
  - now rewrite (split_at_space_prefix _ _ H).
  - now rewrite (split_at_space_prefix _ _ H).
  - intro H. pose proof (split_at_space_join name) as J.
    destruct (split_at_space name) as [h [t|]]; [|tauto].
    destruct J as [J _]. subst t. exfalso.
    apply (f_equal String.length) in J. rewrite string_length_append in J.
    simpl in J. lia.
  - intro H. now rewrite (split_at_space_whole _ H).
Qed.

Lemma trace_key_of_model_names_witness :
  let a0 :=
    mkApp (frame_of ["model"; "prec@10"]
             [ [CStr "my_model"; CFloat (1#2)]; [CStr "other"; CFloat (1#4)] ])
          ["prec@10"] [] true false [] None in
  trace_key "my_model" = "my_model" /\ trace_tail "my_model" = None /\
  (forall prefix, has_space prefix = false ->
                  trace_key (prefix ++ String " "%char "my_model") = "my_model" /\
                  trace_tail (prefix ++ String " "%char "my_model") = Some "my_model") /\
  (forall name, trace_key name = name <-> has_space name = false).
Proof.
  intro a0.
  apply (trace_key_of_model_names
           repr_example
           (frame_of ["model"; "prec@10"]
              [ [CStr "my model"; CFloat (1#2)]; [CStr "other"; CFloat (1#4)] ])
           None true false a0 a0 [CStr "my_model"; CStr "other"]).
  - unfold wf_frame. repeat constructor.
  - vm_compute. reflexivity.
  - apply lifetime_start.
  - reflexivity.
  - now left.
Defined.

(** ** Chart options *)

Lemma dict_get_set {V : Type} (d : dict V) (k k' : string) (v : V) :
  dict_get (dict_set d k' v) k = if String.eqb k' k then Some v else dict_get d k.
Proof.
  induction d as [|[k0 v0] rest IH]; simpl.
  - reflexivity.
  - destruct (String.eqb k0 k') eqn:E0; simpl.
    + apply String.eqb_eq in E0. subst k0.
      destruct (String.eqb k' k); reflexivity.
    + destruct (String.eqb k0 k) eqn:E1.
      * apply String.eqb_eq in E1. subst k0.
        rewrite String.eqb_sym in E0. now rewrite E0.
      * exact IH.
Qed.

Lemma dict_get_absent {V : Type} (d : dict V) (k : string) :
  ~ In k (map fst d) -> dict_get d k = None.
Proof.
  induction d as [|[k0 v0] rest IH]; simpl; auto.
  intro H. destruct (String.eqb_spec k0 k) as [E|E]; [tauto|]. apply IH. tauto.
Qed.

Lemma dict_get_update {V : Type} (other d : dict V) (k : string) :
  dict_wf other ->
  dict_get (dict_update d other) k
  = match dict_get other k with
    | Some v => Some v
    | None => dict_get d k
    end.
Proof.
  unfold dict_update, dict_wf. revert d.
  induction other as [|[k0 v0] rest IH]; intros d Hwf; simpl; auto.
  inversion Hwf as [|? ? Hnot Hrest]; subst. rewrite (IH _ Hrest).
  rewrite dict_get_set. simpl.
  destruct (String.eqb_spec k0 k) as [E|E]; auto.
  subst k0. now rewrite (dict_get_absent rest k Hnot).
Qed.

(** X19: the dictionary of options that [_create_chart] unpacks into its
    call of the chart library: an option given to the object is there with
    the given value, also for the width and the height; the width and the
    height not given are 800 and 500; the dictionary has no other key; and
    for an object made without options it holds exactly the width 800 and
    the height 500. *)
Theorem chart_scatter_kwargs_lookup (V : Type) (of_int : Z -> V)
        (scatter_kwargs : dict V) (k : string) :
  dict_wf scatter_kwargs ->
  dict_get (chart_scatter_kwargs V of_int (init_scatter_kwargs V (Some scatter_kwargs))) k
  = match dict_get scatter_kwargs k with
    | Some v => Some v
    | None => if String.eqb k "width" then Some (of_int 800%Z)
              else if String.eqb k "height" then Some (of_int 500%Z)
              else None
    end /\
  chart_scatter_kwargs V of_int (init_scatter_kwargs V None)
  = [("width", of_int 800%Z); ("height", of_int 500%Z)].
Proof.
  intro Hwf. split; [|reflexivity].
  unfold chart_scatter_kwargs, init_scatter_kwargs.
  rewrite dict_get_update by assumption.
  destruct (dict_get scatter_kwargs k); auto.
  cbn [dict_get]. rewrite (String.eqb_sym "width" k), (String.eqb_sym "height" k).
  reflexivity.
Qed.

Lemma chart_scatter_kwargs_lookup_witness :
  dict_get (chart_scatter_kwargs (option Z) Some
              (init_scatter_kwargs (option Z) (Some [("width", None); ("opacity", Some 1%Z)])))
           "width"
  = match dict_get [("width", None); ("opacity", Some 1%Z)] "width" with
    | Some v => Some v
    | None => if String.eqb "width" "width" then Some (Some 800%Z)
              else if String.eqb "width" "height" then Some (Some 500%Z)
              else None
    end /\
  chart_scatter_kwargs (option Z) Some (init_scatter_kwargs (option Z) None)
  = [("width", Some 800%Z); ("height", Some 500%Z)].
Proof.
  apply (chart_scatter_kwargs_lookup (option Z) Some
           [("width", None); ("opacity", Some 1%Z)] "width").
  unfold dict_wf. simpl. repeat constructor; simpl; intuition discriminate.
Defined.

(** ** Traces of the chart *)

Lemma find_app_first {A : Type} (f : A -> bool) (l1 l2 : list A) :
  find f (l1 ++ l2)
  = match find f l1 with Some x => Some x | None => find f l2 end.
Proof.
  induction l1 as [|a l1 IH]; simpl; auto. destruct (f a); auto.
Qed.

Lemma name2symbol_fold {X Y O : Type} (l : list (Trace X Y O)) (d : dict Y)
      (k : string) :
  dict_get (fold_left (fun d trace => dict_set d (trace_key (trace_name trace))
                                               (trace_marker_symbol trace)) l d) k
  = match last_symbol l k with Some s => Some s | None => dict_get d k end.
Proof.
  revert d. induction l as [|t l IH]; intro d; simpl.
  - reflexivity.
  - rewrite IH. unfold last_symbol. simpl. rewrite find_app_first.
    destruct (find _ (rev l)); simpl; auto.
    rewrite dict_get_set. destruct (String.eqb _ k); reflexivity.
Qed.

Lemma trace_name2symbol_lookup {X Y O : Type} (l : list (Trace X Y O)) (k : string) :
  dict_get (trace_name2symbol l) k = last_symbol l k.
Proof.
  unfold trace_name2symbol. rewrite name2symbol_fold. simpl.
  destruct (last_symbol l k); reflexivity.
Qed.

Lemma last_symbol_some {X Y O : Type} (l : list (Trace X Y O)) (k : string) :
  (exists s, last_symbol l k = Some s)
  <-> exists p, In p l /\ trace_key (trace_name p) = k.
Proof.
  unfold last_symbol. split.
  - intros [s H]. destruct (find _ (rev l)) as [p|] eqn:E; [|discriminate].
    apply find_some in E. destruct E as [E1 E2]. exists p. split.
    + now apply In_rev in E1.
    + now apply String.eqb_eq in E2.
  - intros (p & Hin & Hk).
    destruct (find _ (rev l)) as [q|] eqn:E; simpl; eauto.
    exfalso. apply In_rev in Hin.
    pose proof (find_none _ _ E _ Hin) as N. simpl in N.
    rewrite Hk, String.eqb_refl in N. discriminate.
Qed.

Lemma last_symbol_none {X Y O : Type} (l : list (Trace X Y O)) (k : string) :
  last_symbol l k = None
  <-> forall p, In p l -> trace_key (trace_name p) <> k.
Proof.
  split.
  - intros H p Hin Hk.
    destruct (proj2 (last_symbol_some l k)) as [s Hs]; eauto. congruence.
  - intro H. destruct (last_symbol l k) as [s|] eqn:E; auto.
    destruct (proj1 (last_symbol_some l k)) as (p & Hin & Hk); eauto.
    exfalso. eapply H; eauto.
Qed.

Lemma restore_symbols_result {X Y O : Type} (tbl : dict Y)
      (chart : list (Trace X Y O)) :
  match restore_symbols tbl chart with
  | inr fig_data =>
      Forall2 (fun t t' => exists s,
                   dict_get tbl (trace_key (trace_name t)) = Some s /\
                   t' = set_marker_symbol t s) chart fig_data
  | inl e =>
      exists t, In t chart /\ e = ChartKeyError (trace_key (trace_name t)) /\
                dict_get tbl (trace_key (trace_name t)) = None
  end.
Proof.
  induction chart as [|t chart IH]; simpl.
  - constructor.
  - destruct (dict_get tbl (trace_key (trace_name t))) as [s|] eqn:E.
    + destruct (restore_symbols tbl chart) as [e|r].
      * destruct IH as (t' & Hin & He & Hn). exists t'. auto.
      * constructor; auto. exists s. auto.
    + exists t. auto.
Qed.

Lemma restored_names {X Y O : Type} (P : Trace X Y O -> Trace X Y O -> Prop)
      (chart fig_data : list (Trace X Y O)) :
  (forall t t', P t t' -> exists s, t' = set_marker_symbol t s) ->
  Forall2 P chart fig_data ->
  map trace_name fig_data = map trace_name chart.
Proof.
  intros HP H. induction H as [|t t' l l' H1 H2 IH]; simpl; auto.
  destruct (HP _ _ H1) as [s Hs]. subst t'. simpl. now rewrite IH.
Qed.

Lemma restore_symbols_spec {X Y O : Type} (previous chart : list (Trace X Y O)) :
  match restore_symbols (trace_name2symbol previous) chart with
  | inr fig_data =>
      Forall2 (fun t t' => exists s,
                   last_symbol previous (trace_key (trace_name t)) = Some s /\
                   t' = set_marker_symbol t s) chart fig_data
  | inl e =>
      exists t, In t chart /\ e = ChartKeyError (trace_key (trace_name t)) /\
                forall p, In p previous ->
                          trace_key (trace_name p) <> trace_key (trace_name t)
  end.
Proof.
  pose proof (restore_symbols_result (trace_name2symbol previous) chart) as H.
  destruct (restore_symbols (trace_name2symbol previous) chart) as [e|r].
  - destruct H as (t & Hin & He & Hn). exists t. repeat split; auto.
    rewrite trace_name2symbol_lookup in Hn. now apply last_symbol_none.
  - eapply Forall2_impl; [|exact H].
    intros t t' (s & Hs & Ht). exists s. split; auto.
    now rewrite trace_name2symbol_lookup in Hs.
Qed.

(** X20: the first loop of [_update_chart] gives every trace of the new
    figure the symbol of the last trace of the previous figure filed under
    the same key, and changes nothing else of it; it raises [KeyError]
    exactly when some new trace has a key under which no previous trace is
    filed, and the error names such a key. *)
Theorem restore_symbols_carries (X Y O : Type) (previous chart : list (Trace X Y O)) :
  ((exists fig_data,
       restore_symbols (trace_name2symbol previous) chart = inr fig_data)
   <-> (forall t, In t chart ->
                  exists p, In p previous /\
                            trace_key (trace_name p) = trace_key (trace_name t))) /\
  (forall fig_data,
      restore_symbols (trace_name2symbol previous) chart = inr fig_data ->
      Forall2 (fun t t' => exists s,
                   last_symbol previous (trace_key (trace_name t)) = Some s /\
                   t' = set_marker_symbol t s) chart fig_data) /\
  (forall e,
      restore_symbols (trace_name2symbol previous) chart = inl e ->
      exists t, In t chart /\ e = ChartKeyError (trace_key (trace_name t)) /\
                forall p, In p previous ->
                          trace_key (trace_name p) <> trace_key (trace_name t)).
Proof.
  pose proof (restore_symbols_spec previous chart) as H.
  destruct (restore_symbols (trace_name2symbol previous) chart) as [e|r].
  - split; [|split].
    + split.
      * intros [f Hf]. discriminate.
      * intro Hall. exfalso. destruct H as (t & Hin & _ & Hn).
        destruct (Hall t Hin) as (p & Hp & Hk). exact (Hn p Hp Hk).
    + intros f Hf. discriminate.
    + intros e' He. inversion He; subst e'. exact H.
  - split; [|split].
    + split; [|eauto]. intros _ t Hin.
      apply last_symbol_some.
      clear - H Hin. induction H as [|a b l l' H1 H2 IH]; [contradiction|].
      destruct Hin as [->|Hin]; auto.
      destruct H1 as (s & Hs & _). eauto.
    + intros f Hf. inversion Hf; subst f. exact H.
    + intros e He. discriminate.
Qed.

Lemma name2idx_fold {X Y O : Type} (l : list (Trace X Y O)) :
  forall (s : nat) (d : dict nat),
    NoDup (map (fun t => trace_key (trace_name t)) l) ->
    (forall j t, nth_error l j = Some t ->
                 dict_get (fold_left (fun d it => dict_set d (trace_key (trace_name (snd it)))
                                                           (fst it))
                                     (combine (seq s (length l)) l) d)
                          (trace_key (trace_name t)) = Some (s + j)%nat) /\
    (forall k, ~ In k (map (fun t => trace_key (trace_name t)) l) ->
               dict_get (fold_left (fun d it => dict_set d (trace_key (trace_name (snd it)))
                                                         (fst it))
                                   (combine (seq s (length l)) l) d) k
               = dict_get d k).
Proof.
  induction l as [|t0 l IH]; intros s d Hnd; simpl.
  - split; auto. intros [|j] t H; discriminate.
  - inversion Hnd as [|? ? Hnot Hrest]; subst.
    destruct (IH (S s) (dict_set d (trace_key (trace_name t0)) s) Hrest) as [IH1 IH2].
    split.
    + intros [|j] t H; simpl in H.
      * inversion H; subst t. rewrite (IH2 _ Hnot), dict_get_set, String.eqb_refl.
        f_equal. lia.
      * rewrite (IH1 _ _ H). f_equal. lia.
    + intros k Hk. rewrite IH2 by tauto. rewrite dict_get_set.
      destruct (String.eqb_spec (trace_key (trace_name t0)) k) as [E|E]; auto.
      tauto.
Qed.

Lemma name2idx_lookup {X Y O : Type} (l : list (Trace X Y O)) (j : nat)
      (t : Trace X Y O) :
  NoDup (map (fun t => trace_key (trace_name t)) l) ->
  nth_error l j = Some t ->
  dict_get (nometa_trace_name2idx l) (trace_key (trace_name t)) = Some j.
Proof.
  intros Hnd H. unfold nometa_trace_name2idx.
  now rewrite (proj1 (name2idx_fold l 0 [] Hnd) _ _ H).
Qed.

Lemma lookup_name_key (use_meta : bool) (name : string) :
  has_space name = use_meta ->
  (if use_meta then trace_tail name else Some name) = Some (trace_key name).
Proof.
  intro H. unfold trace_tail, trace_key. destruct use_meta.
  - pose proof (split_at_space_join name) as J.
    destruct (split_at_space name) as [h [t|]]; auto.
    destruct J as [_ J]. congruence.
  - now rewrite (split_at_space_whole _ H).
Qed.

Lemma set_nth_app {A : Type} (pre : list A) (w0 v : A) (ws : list A) :
  set_nth (length pre) v (pre ++ w0 :: ws) = pre ++ v :: ws.
Proof.
  induction pre as [|a pre IH]; simpl; auto. now rewrite IH.
Qed.

Lemma nth_error_app_here {A : Type} (pre : list A) (w0 : A) (ws : list A) :
  nth_error (pre ++ w0 :: ws) (length pre) = Some w0.
Proof.
  induction pre as [|a pre IH]; simpl; auto.
Qed.

Lemma nth_error_app_none {A : Type} (pre : list A) :
  nth_error (pre ++ []) (length pre) = None.
Proof.
  induction pre as [|a pre IH]; simpl; auto.
Qed.

Lemma copy_onto_nil {X Y O : Type} (w : list (Trace X Y O)) : copy_onto w [] = w.
Proof.
  destruct w; reflexivity.
Qed.

Lemma patch_widget_offset {X Y O : Type} (tbl : dict nat) (use_meta : bool)
      (rest : list (Trace X Y O)) :
  forall pre w : list (Trace X Y O),
    (forall j t, nth_error rest j = Some t ->
                 exists k,
                   (if use_meta then trace_tail (trace_name t)
                    else Some (trace_name t)) = Some k /\
                   dict_get tbl k = Some (length pre + j)%nat) ->
    patch_widget tbl use_meta (pre ++ w) rest
    = if (length rest <=? length w)%nat then inr (pre ++ copy_onto w rest)
      else inl ChartIndexError.
Proof.
  induction rest as [|t rest IH]; intros pre w H.
  - simpl. now rewrite copy_onto_nil.
  - destruct (H 0%nat t eq_refl) as (k & Hk & Hi).
    rewrite Nat.add_0_r in Hi.
    cbn [patch_widget]. rewrite Hk, Hi.
    destruct w as [|w0 ws].
    + rewrite nth_error_app_none. reflexivity.
    + rewrite nth_error_app_here, set_nth_app.
      change (pre ++ copy_fields w0 t :: ws)
        with (pre ++ [copy_fields w0 t] ++ ws).
      rewrite app_assoc. rewrite IH.
      * cbn [length copy_onto]. change (S (length rest) <=? S (length ws))%nat
          with (length rest <=? length ws)%nat.
        destruct (length rest <=? length ws)%nat; auto.
        now rewrite <- app_assoc.
      * intros j t' Hj. destruct (H (S j) t' Hj) as (k' & Hk' & Hi').
        exists k'. split; auto. rewrite Hi'. f_equal.
        rewrite length_app. simpl. lia.
Qed.

Lemma patch_widget_positions {X Y O : Type} (use_meta : bool)
      (widget_data fig_data : list (Trace X Y O)) :
  NoDup (map (fun t => trace_key (trace_name t)) fig_data) ->
  (forall t, In t fig_data -> has_space (trace_name t) = use_meta) ->
  patch_widget (nometa_trace_name2idx fig_data) use_meta widget_data fig_data
  = if (length fig_data <=? length widget_data)%nat
    then inr (copy_onto widget_data fig_data)
    else inl ChartIndexError.
Proof.
  intros Hnd Hsp.
  apply (patch_widget_offset (nometa_trace_name2idx fig_data) use_meta fig_data
                             [] widget_data).
  intros j t Hj. exists (trace_key (trace_name t)). split.
  - apply lookup_name_key. apply Hsp. eapply nth_error_In; eauto.
  - simpl. now apply name2idx_lookup.
Qed.

(** X21: the second loop of [_update_chart]. When the traces of the new
    figure have pairwise different keys and their names all have a space
    with the metadata switch on, or none has with the switch off, the loop
    writes the fields of the trace at each position onto the trace of the
    widget at the same position and leaves the rest of the widget as it
    was; with fewer traces in the widget than in the figure it raises
    [IndexError]. *)
Theorem patch_widget_by_position (X Y O : Type) (use_meta : bool)
        (widget_data fig_data : list (Trace X Y O)) :
  NoDup (map (fun t => trace_key (trace_name t)) fig_data) ->
  (forall t, In t fig_data -> has_space (trace_name t) = use_meta) ->
  patch_widget (nometa_trace_name2idx fig_data) use_meta widget_data fig_data
  = if (length fig_data <=? length widget_data)%nat
    then inr (copy_onto widget_data fig_data)
    else inl ChartIndexError.
Proof.
  intros Hnd Hsp. now apply patch_widget_positions.
Qed.

Lemma patch_widget_by_position_witness :
  let t name symbol x := mkTrace Z string unit x x x symbol x name x x x tt in
  patch_widget (nometa_trace_name2idx [t "a A" "circle" 1%Z; t "b B" "square" 2%Z])
               true
               [t "A" "cross" 7%Z; t "B" "star" 8%Z; t "C" "x" 9%Z]
               [t "a A" "circle" 1%Z; t "b B" "square" 2%Z]
  = inr [t "a A" "circle" 1%Z; t "b B" "square" 2%Z; t "C" "x" 9%Z].
Proof.
  intro t.
  apply (patch_widget_by_position
           Z string unit true
           [t "A" "cross" 7%Z; t "B" "star" 8%Z; t "C" "x" 9%Z]
           [t "a A" "circle" 1%Z; t "b B" "square" 2%Z]).
  - simpl. repeat constructor; simpl; intuition discriminate.
  - intros t0 [<-|[<-|[]]]; reflexivity.
Defined.

(** X22: one update of the chart. When the traces of the new figure have
    pairwise different keys, each of which some trace of the previous figure
    is filed under, their names fit the metadata switch and the widget has a
    trace for each of them, the update succeeds: every new trace takes the
    symbol of the last previous trace with its key, and the widget shows the
    new traces, symbols included, position by position. *)
Theorem update_chart_keeps_symbols (X Y O : Type)
        (previous chart widget_data : list (Trace X Y O)) (use_meta : bool) :
  NoDup (map (fun t => trace_key (trace_name t)) chart) ->
  (forall t, In t chart -> has_space (trace_name t) = use_meta) ->
  (forall t, In t chart ->
             exists p, In p previous /\
                       trace_key (trace_name p) = trace_key (trace_name t)) ->
  (length chart <= length widget_data)%nat ->
  exists fig_data,
    update_chart_traces previous chart widget_data use_meta
    = inr (fig_data, copy_onto widget_data fig_data) /\
    Forall2 (fun t t' => exists s,
                 last_symbol previous (trace_key (trace_name t)) = Some s /\
                 t' = set_marker_symbol t s) chart fig_data.
Proof.
  intros Hnd Hsp Hprev Hlen. unfold update_chart_traces.
  pose proof (restore_symbols_spec previous chart) as H.
  destruct (restore_symbols (trace_name2symbol previous) chart) as [e|fig_data].
  - exfalso. destruct H as (t & Hin & _ & Hn).
    destruct (Hprev t Hin) as (p & Hp & Hk). exact (Hn p Hp Hk).
  - exists fig_data. split; auto.
    assert (Hnames : map trace_name fig_data = map trace_name chart).
    { eapply restored_names; [|exact H]. intros t t' (s & _ & Ht). eauto. }
    assert (Hkeys : map (fun t => trace_key (trace_name t)) fig_data
                    = map (fun t => trace_key (trace_name t)) chart).
    { rewrite <- (map_map trace_name trace_key fig_data).
      rewrite <- (map_map trace_name trace_key chart). now rewrite Hnames. }
    rewrite patch_widget_positions.
    + assert (Hl : length fig_data = length chart).
      { rewrite <- (length_map trace_name fig_data), Hnames. apply length_map. }
      rewrite Hl. destruct (Nat.leb_spec (length chart) (length widget_data)); auto.
      lia.
    + now rewrite Hkeys.
    + intros t Hin.
      assert (Hn : In (trace_name t) (map trace_name chart)).
      { rewrite <- Hnames. now apply in_map. }
      apply in_map_iff in Hn. destruct Hn as (t0 & E & Hin0).
      rewrite <- E. now apply Hsp.
Qed.

Lemma update_chart_keeps_symbols_witness :
  let t name symbol x := mkTrace Z string unit x x x symbol x name x x x tt in
  exists fig_data,
    update_chart_traces [t "A" "cross" 7%Z; t "B" "star" 8%Z]
                        [t "B" "circle" 1%Z; t "A" "circle" 2%Z]
                        [t "A" "cross" 7%Z; t "B" "star" 8%Z] false
    = inr (fig_data, copy_onto [t "A" "cross" 7%Z; t "B" "star" 8%Z] fig_data) /\
    Forall2 (fun t0 t' => exists s,
                 last_symbol [t "A" "cross" 7%Z; t "B" "star" 8%Z]
                             (trace_key (trace_name t0)) = Some s /\
                 t' = set_marker_symbol t0 s)
            [t "B" "circle" 1%Z; t "A" "circle" 2%Z] fig_data.
Proof.
  intro t.
  apply (update_chart_keeps_symbols
           Z string unit
           [t "A" "cross" 7%Z; t "B" "star" 8%Z]
           [t "B" "circle" 1%Z; t "A" "circle" 2%Z]
           [t "A" "cross" 7%Z; t "B" "star" 8%Z] false).
  - simpl. repeat constructor; simpl; intuition discriminate.
  - intros t0 [<-|[<-|[]]]; reflexivity.
  - intros t0 [<-|[<-|[]]].
    + exists (t "B" "star" 8%Z). simpl. auto.
    + exists (t "A" "cross" 7%Z). simpl. auto.
  - simpl. lia.
Defined.
